(** * The request router of llm-infrastructure: admission and lifecycle control

    A shallow embedding of [src/router/app.py]: the token estimator, the
    backend selector, the lifecycle controller, the request handlers and the
    TTL sweeper, with the properties of the design document stated and
    proved over them.

    Conventions.
    - Python [str] is [string], a sequence of characters whose [len] is
      [String.length]; dictionaries that are only looked up and
      updated by key ([inflight], [last_used], [sticky_backend_by_gpu]) are
      [gmap]s; the registry [BACKENDS], whose insertion order the code
      iterates, is an association list.
    - Python [int] is [Z]; a [float] is a double, carried by its rational
      value, and float arithmetic rounds as IEEE 754 does ([round_double]);
      wall-clock readings ([time.time()]) are the rational values of doubles.
    - A function that may raise returns [Exc]; code that talks to the
      container engine, the prober, the locks or the shared dictionaries
      lives in the monad [M], which records every such call in a trace. *)

From Stdlib Require Import ZArith QArith String Ascii List Bool Lia.
From stdpp Require Import base option list gmap strings pretty.

#[local] Set Warnings "-register-all".

Local Open Scope Z_scope.
Local Open Scope string_scope.
Local Open Scope list_scope.

(** ** Exceptions *)

Inductive exn :=
| KeyError (key : string)
| TypeError
| AttributeError
| AssertionError
| IndexError
| PermissionError (msg : string)
| JSONDecodeError
| OverflowError
| DockerError (text : string)   (* any exception of the docker client *)
| ProxyError (text : string).   (* any exception of the outbound HTTP call *)

Inductive Exc (A : Type) :=
| Ok (a : A)
| Raise (e : exn).
Arguments Ok {A} a.
Arguments Raise {A} e.

Definition exc_bind {A B} (x : Exc A) (f : A → Exc B) : Exc B :=
  match x with Ok a => f a | Raise e => Raise e end.

#[global] Instance Exc_ret : MRet Exc := @Ok.
#[global] Instance Exc_bind : MBind Exc := λ A B f x, exc_bind x f.

(** ** ENV / POLICY (lines 25-58): every constant read from the environment *)

Record Policy := {
  ROUTER_REQUIRE_API_KEY : bool;
  WEBUI_API_KEY : string;
  N8N_API_KEY : string;
  INTERACTIVE_WARMUP_S : Z;
  AUTOMATION_WARMUP_S : Z;
  HEALTH_PROBE_TIMEOUT_S : Z;
  MAX_START_RETRIES : Z;
  CONTAINER_STOP_TIMEOUT_S : Z;
  KEEP_LAST_PER_GPU : bool;
  ONE_HEAVY_PER_GPU : bool;
  STOP_EMBED_RANK_BEFORE_GPU1_GENERATOR : bool;
  WEBUI_FAIL_FAST_IF_GPU_BUSY : bool;
  N8N_ALLOW_PREEMPT_GPU1 : bool;
  ADAPTIVE_ROUTING_ENABLED : bool;
  ADAPTIVE_ROUTING_THRESHOLD : Z;
  GLOBAL_TTL_MIN : Z;
  GPU1_GENERATOR_TTL_MIN : Z;
  GRACE_IDLE_MIN : Z;
  CAP_LLAMA : Z;
  CAP_R1 : Z;
  CAP_QWEN : Z;
  CAP_MINITRON : Z;
  CAP_BGE_EMBED : Z;
  CAP_BGE_RERANK : Z
}.

(** The defaults of the [os.getenv] calls. *)
Definition default_policy : Policy := {|
  ROUTER_REQUIRE_API_KEY := true;
  WEBUI_API_KEY := "";
  N8N_API_KEY := "";
  INTERACTIVE_WARMUP_S := 45;
  AUTOMATION_WARMUP_S := 180;
  HEALTH_PROBE_TIMEOUT_S := 15;
  MAX_START_RETRIES := 3;
  CONTAINER_STOP_TIMEOUT_S := 45;
  KEEP_LAST_PER_GPU := true;
  ONE_HEAVY_PER_GPU := true;
  STOP_EMBED_RANK_BEFORE_GPU1_GENERATOR := true;
  WEBUI_FAIL_FAST_IF_GPU_BUSY := true;
  N8N_ALLOW_PREEMPT_GPU1 := true;
  ADAPTIVE_ROUTING_ENABLED := true;
  ADAPTIVE_ROUTING_THRESHOLD := 4096;
  GLOBAL_TTL_MIN := 20;
  GPU1_GENERATOR_TTL_MIN := 15;
  GRACE_IDLE_MIN := 5;
  CAP_LLAMA := 8;
  CAP_R1 := 6;
  CAP_QWEN := 8;
  CAP_MINITRON := 9;
  CAP_BGE_EMBED := 8;
  CAP_BGE_RERANK := 4
|}.

(** [dict.get(key)] on an insertion-ordered dictionary kept as a list. *)
Fixpoint assoc_get {V} (key : string) (d : list (string * V)) : option V :=
  match d with
  | [] => None
  | (k, v) :: d' => if String.eqb k key then Some v else assoc_get key d'
  end.

Definition CAPS (pol : Policy) : list (string * Z) :=
  [ ("llama31-8b-instruct", CAP_LLAMA pol);
    ("deepseek-r1-8b", CAP_R1 pol);
    ("qwen-coder-7b", CAP_QWEN pol);
    ("nemo-minitron-8b-instruct", CAP_MINITRON pol);
    ("bge-m3", CAP_BGE_EMBED pol);
    ("bge-reranker", CAP_BGE_RERANK pol) ].

(** ** Registry (lines 138-161) *)

Record Meta := {
  model : string;
  kind : string;
  gpu : string;
  strategy : string;
  base : string;
  container : string
}.

Definition mk (m k g s b c : string) : Meta :=
  {| model := m; kind := k; gpu := g; strategy := s; base := b; container := c |}.

Definition BACKENDS : list (string * Meta) :=
  [ ("llama31-8b-instruct@0",
       mk "llama31-8b-instruct" "chat" "0" "long" "http://llama_0:8000/v1" "llama_0");
    ("deepseek-r1-8b@0",
       mk "deepseek-r1-8b" "chat" "0" "long" "http://r1_0:8000/v1" "r1_0");
    ("qwen-coder-7b@0",
       mk "qwen-coder-7b" "chat" "0" "long" "http://qwen_0:8000/v1" "qwen_0");
    ("nemo-minitron-8b-instruct@0",
       mk "nemo-minitron-8b-instruct" "chat" "0" "long" "http://minitron_0:8000/v1" "minitron_0");
    ("llama31-8b-instruct@1",
       mk "llama31-8b-instruct" "chat" "1" "throughput" "http://llama_1:8000/v1" "llama_1");
    ("deepseek-r1-8b@1",
       mk "deepseek-r1-8b" "chat" "1" "throughput" "http://r1_1:8000/v1" "r1_1");
    ("qwen-coder-7b@1",
       mk "qwen-coder-7b" "chat" "1" "throughput" "http://qwen_1:8000/v1" "qwen_1");
    ("nemo-minitron-8b-instruct@1",
       mk "nemo-minitron-8b-instruct" "chat" "1" "throughput" "http://minitron_1:8000/v1" "minitron_1");
    ("bge-m3@1",
       mk "bge-m3" "embeddings" "1" "throughput" "http://bge_embed_1:8000/v1" "bge_embed_1");
    ("bge-reranker@1",
       mk "bge-reranker" "rerank" "1" "throughput" "http://bge_reranker_1:8000/v1" "bge_reranker_1") ].

(** [BACKENDS[bk]] *)
Definition BACKENDS_at (bk : string) : Exc Meta :=
  match assoc_get bk BACKENDS with
  | Some meta => Ok meta
  | None => Raise (KeyError bk)
  end.

(** [d.setdefault(key, []).append(x)] *)
Fixpoint setdefault_append (key x : string) (d : list (string * list string))
  : list (string * list string) :=
  match d with
  | [] => [(key, [x])]
  | (k, l) :: d' =>
      if String.eqb k key then (k, l ++ [x]) :: d'
      else (k, l) :: setdefault_append key x d'
  end.

(** The loop of lines 157-158. *)
Definition MODEL_BACKENDS : list (string * list string) :=
  Eval vm_compute in
    fold_left (λ d '(bk, meta), setdefault_append (model meta) bk d) BACKENDS [].

(** [MODEL_BACKENDS.get(model_id, [])] *)
Definition MODEL_BACKENDS_get (model_id : string) : list string :=
  default [] (assoc_get model_id MODEL_BACKENDS).

Definition GPU1_GENERATORS : list string :=
  ["deepseek-r1-8b"; "qwen-coder-7b"; "nemo-minitron-8b-instruct"; "llama31-8b-instruct"].

Definition GPU1_EMBED_RANK : list string := ["bge-m3"; "bge-reranker"].

(** [x in s] for a set of strings *)
Definition str_in (x : string) (s : list string) : bool :=
  existsb (String.eqb x) s.

(** ** JSON values, as [req.json()] delivers them *)

Inductive json :=
| JNull
| JBool (b : bool)
| JInt (z : Z)
| JFloat (q : Q) (repr : string)  (* a float: its value and what [str] prints *)
| JStr (s : string)
| JList (l : list json)
| JDict (d : list (string * json)).

(** ** Double-precision arithmetic

    A Python [float] is an IEEE 754 binary64 number.  A finite one is
    carried by its rational value; the sum or the difference of two
    floats is the exact result rounded to the nearest double, ties to
    even, and an infinity when that is out of range. *)
Inductive pyfloat :=
| FFinite (q : Q)
| FInf (negative : bool).

(** [floor (log2 (n / d))] for positive [n] and [d] *)
Definition log2_floor (n d : Z) : Z :=
  let l := Z.log2 n - Z.log2 d in
  if (if 0 <=? l then d * 2 ^ l <=? n else d <=? n * 2 ^ (- l))%Z then l else l - 1.

(** The integer nearest to [n / d], ties to even, for [0 <= n] and [0 < d] *)
Definition round_half_even (n d : Z) : Z :=
  let k := n / d in
  match 2 * (n mod d) ?= d with
  | Lt => k
  | Gt => k + 1
  | Eq => if Z.even k then k else k + 1
  end.

(** The double nearest to [q]: 53 significant bits, exponents from -1074
    (subnormal numbers) up, overflow at [2 ^ 1024]. *)
Definition round_double (q : Q) : pyfloat :=
  let n := Z.abs (Qnum q) in
  let d := Zpos (Qden q) in
  if (n =? 0)%Z then FFinite 0
  else
    let e := log2_floor n d in
    let p := Z.max (e - 52) (-1074) in
    let k := if (0 <=? p)%Z then round_half_even n (d * 2 ^ p)
             else round_half_even (n * 2 ^ (- p)) d in
    if (0 <=? p)%Z && (2 ^ 1024 <=? k * 2 ^ p)%Z then FInf (Qnum q <? 0)%Z
    else
      let m := Z.sgn (Qnum q) * k in
      FFinite (if (0 <=? p)%Z then inject_Z (m * 2 ^ p)
               else Qred (Qmake m (Z.to_pos (2 ^ (- p))))).

(** [a - b] and [a + b] on floats *)
Definition float_sub (a b : Q) : pyfloat := round_double (a - b).
Definition float_add (a b : Q) : pyfloat := round_double (a + b).

(** [float(z)], as the mixed arithmetic of an [int] and a [float] converts
    the [int]: the nearest double, [OverflowError] when it is too large *)
Definition float_of_int (z : Z) : Exc Q :=
  match round_double (inject_Z z) with
  | FFinite q => Ok q
  | FInf _ => Raise OverflowError
  end.

(** [a < n] and [a >= n] for a float [a] and an [int] [n]: Python compares
    the two values exactly. *)
Definition float_lt_int (a : pyfloat) (n : Z) : bool :=
  match a with
  | FFinite q => negb (Qle_bool (inject_Z n) q)
  | FInf negative => negative
  end.

Definition float_ge_int (a : pyfloat) (n : Z) : bool :=
  match a with
  | FFinite q => Qle_bool (inject_Z n) q
  | FInf negative => negb negative
  end.

(** What the estimator can return: [total] stays an [int] unless
    [max_tokens] is a float. *)
Inductive pynum :=
| PInt (z : Z)
| PFloat (x : pyfloat).

(** ** Token counting (lines 110-133) *)

(** [len(text) // 4]; [len] is defined on strings, lists and dictionaries
    and raises [TypeError] on the other JSON values. *)
Definition py_len (v : json) : Exc Z :=
  match v with
  | JStr s => Ok (Z.of_nat (String.length s))
  | JList l => Ok (Z.of_nat (List.length l))
  | JDict d => Ok (Z.of_nat (List.length d))
  | _ => Raise TypeError
  end.

Definition estimate_tokens (text : json) : Exc Z :=
  n ← py_len text; Ok (n / 4).

(** [item.get("type") == "text"] *)
Definition type_is_text (d : list (string * json)) : bool :=
  match assoc_get "type" d with
  | Some (JStr s) => String.eqb s "text"
  | _ => false
  end.

(** The inner loop of lines 125-127, started from [total]. *)
Fixpoint count_parts (items : list json) (total : Z) : Exc Z :=
  match items with
  | [] => Ok total
  | item :: rest =>
      match item with
      | JDict d =>
          if type_is_text d then
            n ← estimate_tokens (default (JStr "") (assoc_get "text" d));
            count_parts rest (total + n)
          else count_parts rest total
      | _ => count_parts rest total
      end
  end.

(** The body of the loop over messages (lines 121-127) for one [msg]. *)
Definition count_message (msg : json) (total : Z) : Exc Z :=
  match msg with
  | JDict d =>
      match default (JStr "") (assoc_get "content" d) with
      | JStr s => n ← estimate_tokens (JStr s); Ok (total + n)
      | JList items => count_parts items total
      | _ => Ok total
      end
  | _ => Raise AttributeError          (* msg.get on a value that is no dict *)
  end.

Fixpoint count_messages (msgs : list json) (total : Z) : Exc Z :=
  match msgs with
  | [] => Ok total
  | msg :: rest => t ← count_message msg total; count_messages rest t
  end.

(** [for msg in messages]: what iterating a JSON value yields.  A string
    yields its characters and a dictionary its keys, both strings. *)
Definition py_iter (v : json) : Exc (list json) :=
  match v with
  | JList l => Ok l
  | JStr s => Ok (map (λ c, JStr (String c EmptyString)) (list_ascii_of_string s))
  | JDict d => Ok (map (λ kv, JStr kv.1) d)
  | _ => Raise TypeError
  end.

(** [total += max_tokens] with [total] an [int]: an [int] or a [bool] is
    added exactly; for a [float], [total] is converted to a float and the
    sum is rounded. *)
Definition add_max_tokens (total : Z) (max_tokens : json) : Exc pynum :=
  match max_tokens with
  | JInt z => Ok (PInt (total + z))
  | JBool b => Ok (PInt (total + (if b then 1 else 0)))
  | JFloat q _ => t ← float_of_int total; Ok (PFloat (float_add t q))
  | _ => Raise TypeError
  end.

Definition estimate_request_tokens (payload : list (string * json)) : Exc pynum :=
  msgs ← py_iter (default (JList []) (assoc_get "messages" payload));
  total ← count_messages msgs 0;
  add_max_tokens total (default (JInt 512) (assoc_get "max_tokens" payload)).

(** *** The estimate in the words of the design document (section 4.2) *)

Definition spec_part_estimate (item : json) : Z :=
  match item with
  | JDict d =>
      if type_is_text d then
        match assoc_get "text" d with
        | Some (JStr t) => Z.of_nat (String.length t) / 4
        | _ => 0
        end
      else 0
  | _ => 0
  end.

Definition spec_content_estimate (content : option json) : Z :=
  match content with
  | Some (JStr s) => Z.of_nat (String.length s) / 4
  | Some (JList parts) => fold_right (λ p acc, spec_part_estimate p + acc) 0 parts
  | _ => 0
  end.

Definition spec_message_estimate (msg : json) : Z :=
  match msg with
  | JDict d => spec_content_estimate (assoc_get "content" d)
  | _ => 0
  end.

Definition spec_estimate (payload : list (string * json)) : Z :=
  match assoc_get "messages" payload with
  | Some (JList msgs) => fold_right (λ m acc, spec_message_estimate m + acc) 0 msgs
  | _ => 0
  end
  + match assoc_get "max_tokens" payload with
    | Some (JInt z) => z
    | _ => 512
    end.

(** Payloads on which the estimator is within its contract: [messages],
    when present, is a list of objects whose text parts carry a string (or
    no) [text]; [max_tokens], when present, is a non-negative integer.  The
    shape of [content] and of the parts is arbitrary. *)
Definition part_ok (item : json) : bool :=
  match item with
  | JDict d =>
      if type_is_text d then
        match assoc_get "text" d with
        | None | Some (JStr _) => true
        | _ => false
        end
      else true
  | _ => true
  end.

Definition message_ok (msg : json) : bool :=
  match msg with
  | JDict d =>
      match assoc_get "content" d with
      | Some (JList parts) => forallb part_ok parts
      | _ => true
      end
  | _ => false
  end.

Definition payload_ok (payload : list (string * json)) : bool :=
  match assoc_get "messages" payload with
  | None => true
  | Some (JList msgs) => forallb message_ok msgs
  | Some _ => false
  end
  && match assoc_get "max_tokens" payload with
     | None => true
     | Some (JInt z) => (0 <=? z)%Z
     | Some _ => false
     end.

(** ** State (lines 166-172)

    The locks are not data: acquiring and releasing them are calls recorded
    in the trace (see [M] below). *)

Record State := {
  inflight : gmap string Z;
  last_used : gmap string Q;
  sticky_backend_by_gpu : gmap string (option string)
}.

Definition initial_state : State := {|
  inflight := list_to_map (map (λ kv, (kv.1, 0)) BACKENDS);
  last_used := list_to_map (map (λ kv, (kv.1, 0%Q)) BACKENDS);
  sticky_backend_by_gpu := <["0" := None]> (<["1" := None]> ∅)
|}.

(** The value of a Python number. *)
Definition num_val (n : pynum) : pyfloat :=
  match n with
  | PInt z => FFinite (inject_Z z)
  | PFloat x => x
  end.

(** [a > b] for a number [a] and an [int] [b], compared exactly *)
Definition py_gt (a : pyfloat) (b : Q) : bool :=
  match a with
  | FFinite q => negb (Qle_bool q b)
  | FInf negative => negb negative
  end.

(** Python truth value of an [Optional[str]] *)
Definition truthy (s : option string) : bool :=
  match s with
  | Some s => negb (String.eqb s "")
  | None => false
  end.

(** ** Adaptive backend selection (lines 266-325) *)

Definition needs_long_context (pol : Policy) (estimated_tokens : pynum) : bool :=
  py_gt (num_val estimated_tokens) (inject_Z (ADAPTIVE_ROUTING_THRESHOLD pol)).

(** The loop over ["0"; "1"] of lines 282-293: [Ok (Some sb)] when it
    returns [sb], [Ok None] when it falls through. *)
Fixpoint sticky_scan (pol : Policy) (st : State) (model_id : string)
    (estimated_tokens : option pynum) (gpus : list string) : Exc (option string) :=
  match gpus with
  | [] => Ok None
  | g :: rest =>
      let sb := default None (sticky_backend_by_gpu st !! g) in
      match sb with
      | Some s =>
          if truthy sb then
            meta ← BACKENDS_at s;
            if String.eqb (model meta) model_id then
              match ADAPTIVE_ROUTING_ENABLED pol, estimated_tokens with
              | true, Some est =>
                  let backend_strategy := strategy meta in
                  let needs_long := needs_long_context pol est in
                  if (needs_long && String.eqb backend_strategy "long")
                     || (negb needs_long && String.eqb backend_strategy "throughput")
                  then Ok (Some s)
                  else sticky_scan pol st model_id estimated_tokens rest
              | _, _ => Ok (Some s)
              end
            else sticky_scan pol st model_id estimated_tokens rest
          else sticky_scan pol st model_id estimated_tokens rest
      | None => sticky_scan pol st model_id estimated_tokens rest
      end
  end.

(** [for bk in backends: if p(BACKENDS[bk]): return bk] *)
Fixpoint first_with (p : Meta → bool) (backends : list string) : Exc (option string) :=
  match backends with
  | [] => Ok None
  | bk :: rest =>
      meta ← BACKENDS_at bk;
      if p meta then Ok (Some bk) else first_with p rest
  end.

Definition choose_backend (pol : Policy) (st : State) (model_id : string)
    (estimated_tokens : option pynum) (role : option string) : Exc (option string) :=
  let backends := MODEL_BACKENDS_get model_id in
  match backends with
  | [] => Ok None
  | bk_first :: _ =>
      sticky ← sticky_scan pol st model_id estimated_tokens ["0"; "1"];
      match sticky with
      | Some sb => Ok (Some sb)
      | None =>
          adaptive ←
            match ADAPTIVE_ROUTING_ENABLED pol, estimated_tokens with
            | true, Some est =>
                if needs_long_context pol est
                then first_with (λ meta, String.eqb (strategy meta) "long") backends
                else first_with (λ meta, String.eqb (strategy meta) "throughput") backends
            | _, _ => Ok None
            end;
          match adaptive with
          | Some bk => Ok (Some bk)
          | None =>
              by_role ←
                match role with
                | Some r =>
                    if String.eqb r "webui"
                    then first_with (λ meta, String.eqb (gpu meta) "0") backends
                    else if String.eqb r "n8n"
                    then first_with (λ meta, String.eqb (gpu meta) "1") backends
                    else Ok None
                | None => Ok None
                end;
              match by_role with
              | Some bk => Ok (Some bk)
              | None => Ok (Some bk_first)
              end
          end
      end
  end.

(** *** The selection rules in the words of the design document (4.3) *)

(** [bk] is a registered backend of [model_id]. *)
Definition serves (bk model_id : string) : Prop :=
  ∃ meta, assoc_get bk BACKENDS = Some meta ∧ model meta = model_id.

(** long iff the estimate exceeds the threshold, throughput otherwise *)
Definition inferred_need (pol : Policy) (estimated_tokens : pynum) : string :=
  if needs_long_context pol estimated_tokens then "long" else "throughput".

(** The sticky backend of GPU [g] is [sb], it serves the model, and
    adaptive routing is disabled or its strategy is the inferred need. *)
Definition sticky_qualifies (pol : Policy) (st : State) (model_id : string)
    (estimated_tokens : option pynum) (g sb : string) : Prop :=
  sticky_backend_by_gpu st !! g = Some (Some sb) ∧
  ∃ meta, assoc_get sb BACKENDS = Some meta ∧ model meta = model_id ∧
    (ADAPTIVE_ROUTING_ENABLED pol = false ∨
     ∃ est, estimated_tokens = Some est ∧ strategy meta = inferred_need pol est).

(** First backend, in registry order, of the model with the strategy. *)
Definition first_registered (model_id strat : string) : option string :=
  fst <$> List.find (λ kv, String.eqb (model kv.2) model_id && String.eqb (strategy kv.2) strat)
                    BACKENDS.

(** Every sticky entry is empty or a registered backend id (of that GPU). *)
Definition sticky_wf (st : State) : Prop :=
  ∀ g sb, sticky_backend_by_gpu st !! g = Some (Some sb) →
    ∃ meta, assoc_get sb BACKENDS = Some meta ∧ gpu meta = g.

(** ** Error envelope (lines 65-66) *)

(** [JSONResponse(status_code, content={"error": {"message", "type"}})] *)
Record JSONResponse := {
  status_code : Z;
  err_message : string;
  err_type : string
}.

Definition json_error (status : Z) (msg typ : string) : JSONResponse :=
  {| status_code := status; err_message := msg; err_type := typ |}.

Definition chr (n : nat) : string := String (ascii_of_nat n) EmptyString.
Definition dquote : string := chr 34.
Definition backslash : string := chr 92.

Definition hex_digit (n : nat) : string :=
  chr (if (n <? 10)%nat then 48 + n else 87 + n).

(** One character under [json.dumps(..., ensure_ascii=False)]. *)
Definition json_escape_char (c : ascii) : string :=
  let n := nat_of_ascii c in
  if (n =? 34)%nat then backslash +:+ dquote
  else if (n =? 92)%nat then backslash +:+ backslash
  else if (n =? 10)%nat then backslash +:+ "n"
  else if (n =? 13)%nat then backslash +:+ "r"
  else if (n =? 9)%nat then backslash +:+ "t"
  else if (n =? 8)%nat then backslash +:+ "b"
  else if (n =? 12)%nat then backslash +:+ "f"
  else if (n <? 32)%nat
       then backslash +:+ "u00" +:+ hex_digit (n / 16) +:+ hex_digit (n mod 16)
  else String c EmptyString.

Fixpoint json_escape (s : string) : string :=
  match s with
  | EmptyString => EmptyString
  | String c s' => json_escape_char c +:+ json_escape s'
  end.

Definition json_string (s : string) : string := dquote +:+ json_escape s +:+ dquote.

(** [err.body]: the rendering of the content without spaces. *)
Definition body (r : JSONResponse) : string :=
  "{" +:+ json_string "error" +:+ ":{" +:+ json_string "message" +:+ ":"
      +:+ json_string (err_message r) +:+ "," +:+ json_string "type" +:+ ":"
      +:+ json_string (err_type r) +:+ "}}".

(** [needle in hay] *)
Definition contains (needle hay : string) : bool :=
  match String.index 0 needle hay with
  | Some _ => true
  | None => false
  end.

(** The test of line 455. *)
Definition looks_gpu_busy (err : JSONResponse) : bool :=
  (status_code err =? 503)%Z && negb (String.eqb (body err) "")
  && contains "gpu_busy" (body err).

(** ** The world outside the router: calls and their answers *)

Inductive lock :=
| backend_lock (bk : string)
| gpu_lock (g : string).

(** What the engine says about a container. *)
Inductive Inspect :=
| INotFound
| IState (running : bool)
| IError (text : string).

(** What [proxy] hands back. *)
Record Response := {
  resp_status : Z;
  resp_content : string
}.

(** One entry per call that leaves the handler's own code: reads and
    writes of the shared dictionaries, engine calls with the engine's
    answer, probes, sleeps, locks and the outbound proxy call. An answer
    [None] of an engine call means it returned, [Some text] that it raised
    (for a start, [text] is what [traceback.format_exc()] gives). *)
Inductive Event :=
| EvReadState (s : State)
| EvStatus (name : string) (r : Inspect)
| EvStart (name : string) (r : option string)
| EvGet (name : string) (r : option string)
| EvStop (name : string) (timeout : Z) (r : option string)
| EvKill (name : string) (r : option string)
| EvWaitHealthy (bk : string) (timeout_s : Z) (ok : bool)
| EvSleep (seconds : Z)
| EvAcquire (l : lock)
| EvRelease (l : lock)
| EvInc (bk : string)
| EvDec (bk : string)
| EvNow (t : Q)
| EvSetLastUsed (bk : string) (t : Q)
| EvSetSticky (g bk : string)
| EvProxy (base path : string) (r : Exc Response).

Definition Trace := list Event.

(** The environment: the answer to each call, which may depend on
    everything that happened before it in this task. *)
Record Oracle := {
  o_state : Trace → State;
  o_status : Trace → string → Inspect;
  o_start : Trace → string → option string;
  o_get : Trace → string → option string;
  o_stop : Trace → string → Z → option string;
  o_kill : Trace → string → option string;
  o_healthy : Trace → string → Z → bool;
  o_proxy : Trace → string → string → Exc Response;
  o_now : Trace → Q
}.

(** ** The monad of effectful code

    [m o h] runs [m] against the environment [o] after the history [h] and
    gives the outcome with the calls it made, in order. *)

Definition M (A : Type) : Type := Oracle → Trace → Exc A * Trace.

Definition m_ret {A} (a : A) : M A := λ _ _, (Ok a, []).

Definition m_bind {A B} (m : M A) (f : A → M B) : M B :=
  λ o h,
    match m o h with
    | (Ok a, t1) => let '(r, t2) := f a o (h ++ t1) in (r, t1 ++ t2)
    | (Raise e, t1) => (Raise e, t1)
    end.

#[global] Instance M_ret : MRet M := @m_ret.
#[global] Instance M_bind : MBind M := λ A B f m, m_bind m f.

Notation "m ;; k" := (m_bind m (λ _, k)) (at level 100, k at level 200, right associativity).

Definition raise {A} (e : exn) : M A := λ _ _, (Raise e, []).

Definition lift {A} (x : Exc A) : M A := λ _ _, (x, []).

(** [try: m except Exception: ...] : the outcome as a value *)
Definition try_ {A} (m : M A) : M (Exc A) :=
  λ o h, let '(r, t) := m o h in (Ok r, t).

(** [try: m finally: f] for a [f] that does not raise *)
Definition finally_ {A} (m : M A) (f : M unit) : M A :=
  λ o h, let '(r, t1) := m o h in let '(_, t2) := f o (h ++ t1) in (r, t1 ++ t2).

Definition emit (ev : Event) : M unit := λ _ _, (Ok tt, [ev]).

Definition ask {R} (q : Oracle → Trace → R) (ev : R → Event) : M R :=
  λ o h, let r := q o h in (Ok r, [ev r]).

Definition run {A} (m : M A) (o : Oracle) : Exc A * Trace := m o [].

(** *** Primitive calls *)

Definition read_state : M State := ask o_state EvReadState.
Definition sleep (seconds : Z) : M unit := emit (EvSleep seconds).
Definition acquire (l : lock) : M unit := emit (EvAcquire l).
Definition release (l : lock) : M unit := emit (EvRelease l).

(** [async with l: body] *)
Definition with_lock {A} (l : lock) (body : M A) : M A :=
  acquire l;; finally_ body (release l).

(** [wait_until_healthy(bk, timeout_s)] (lines 252-261), taken through its
    contract: it polls the backend over HTTP until the deadline, touches
    neither the engine, the locks nor the shared dictionaries, swallows the
    prober's exceptions and returns a boolean. *)
Definition wait_until_healthy (bk : string) (timeout_s : Z) : M bool :=
  ask (λ o h, o_healthy o h bk timeout_s) (EvWaitHealthy bk timeout_s).

(** An engine call that raises when the engine answers with a text. *)
Definition engine_call (q : Oracle → Trace → option string)
    (ev : option string → Event) : M unit :=
  r ← ask q ev;
  match r with
  | None => mret tt
  | Some text => raise (DockerError text)
  end.

(** ** Docker (lines 81-105) *)

Record Status := {
  exists_ : bool;
  running : bool
}.

Definition container_status (name : string) : M Status :=
  r ← ask (λ o h, o_status o h name) (EvStatus name);
  match r with
  | IState b => mret {| exists_ := true; running := b |}
  | INotFound => mret {| exists_ := false; running := false |}
  | IError text => raise (DockerError text)
  end.

(** [docker_client.containers.get(name).start()] *)
Definition start_container (name : string) : M unit :=
  engine_call (λ o h, o_start o h name) (EvStart name).

Definition stop_container (pol : Policy) (name : string) (timeout : option Z) : M unit :=
  let timeout := default (CONTAINER_STOP_TIMEOUT_S pol) timeout in
  engine_call (λ o h, o_get o h name) (EvGet name);;
  r ← try_ (engine_call (λ o h, o_stop o h name timeout) (EvStop name timeout));
  match r with
  | Ok _ => mret tt
  | Raise _ =>
      _ ← try_ (engine_call (λ o h, o_kill o h name) (EvKill name));
      mret tt
  end.

(** ** Helpers of the controller (lines 174-202) *)

Definition warmup_timeout_for_role (pol : Policy) (role : string) : Z :=
  if String.eqb role "webui" then INTERACTIVE_WARMUP_S pol else AUTOMATION_WARMUP_S pol.

Definition is_heavy_backend (bk : string) : Exc bool :=
  meta ← BACKENDS_at bk; Ok (String.eqb (kind meta) "chat").

(** The loop of [running_heavy_backend_on_gpu] over the entries [l]. *)
Fixpoint running_heavy_scan (g : string) (except_bk : option string)
    (l : list (string * Meta)) : M (option string) :=
  match l with
  | [] => mret None
  | (bk, meta) :: rest =>
      if negb (String.eqb (gpu meta) g) then running_heavy_scan g except_bk rest
      else if truthy except_bk && bool_decide (Some bk = except_bk)
      then running_heavy_scan g except_bk rest
      else if negb (String.eqb (kind meta) "chat") then running_heavy_scan g except_bk rest
      else
        st ← container_status (container meta);
        if exists_ st && running st then mret (Some bk)
        else running_heavy_scan g except_bk rest
  end.

Definition running_heavy_backend_on_gpu (g : string) (except_bk : option string)
  : M (option string) :=
  running_heavy_scan g except_bk BACKENDS.

Fixpoint stop_embed_rank_loop (pol : Policy) (bks : list string) : M unit :=
  match bks with
  | [] => mret tt
  | bk :: rest =>
      meta ← lift (BACKENDS_at bk);
      st ← container_status (container meta);
      (if exists_ st && running st
       then (_ ← try_ (stop_container pol (container meta) None); mret tt)
       else mret tt);;
      stop_embed_rank_loop pol rest
  end.

Definition stop_gpu1_embed_rank_best_effort (pol : Policy) : M unit :=
  stop_embed_rank_loop pol ["bge-m3@1"; "bge-reranker@1"];;
  sleep 3.

(** ** Ensure online backend (lines 330-409) *)

(** [sum(inflight[b] for b in backends)] *)
Fixpoint sum_inflight (st : State) (backends : list string) : Exc Z :=
  match backends with
  | [] => Ok 0
  | b :: rest =>
      match inflight st !! b with
      | Some v => s ← sum_inflight st rest; Ok (v + s)
      | None => Raise (KeyError b)
      end
  end.

(** The text [traceback.format_exc()] gives for the exception caught. *)
Definition format_exc (e : exn) : string :=
  match e with
  | DockerError text => text
  | ProxyError text => text
  | PermissionError msg => msg
  | KeyError key => key
  | TypeError => "TypeError"
  | AttributeError => "AttributeError"
  | AssertionError => "AssertionError"
  | IndexError => "IndexError"
  | JSONDecodeError => "JSONDecodeError"
  | OverflowError => "OverflowError"
  end.

Definition quote (s : string) : string := "'" +:+ s +:+ "'".

Definition rate_limited_error (model_id : string) (model_inflight cap : Z) : JSONResponse :=
  json_error 429
    ("Too many concurrent requests for " +:+ quote model_id +:+ " ("
       +:+ pretty model_inflight +:+ "/" +:+ pretty cap +:+ ").")
    "rate_limited".

Definition container_missing_error (meta : Meta) : JSONResponse :=
  json_error 409
    ("Container " +:+ quote (container meta)
       +:+ " does not exist. Create it once via docker compose up.")
    "container_missing".

Definition unhealthy_error (model_id : string) : JSONResponse :=
  json_error 503 ("Backend running but not healthy for " +:+ quote model_id +:+ ".")
    "unhealthy".

Definition gpu_busy_webui_error (g busy_model : string) : JSONResponse :=
  json_error 503
    ("GPU" +:+ g +:+ " busy with " +:+ quote busy_model +:+ " (no preemption for webui).")
    "gpu_busy".

Definition gpu_busy_error (g busy_model : string) : JSONResponse :=
  json_error 503 ("GPU" +:+ g +:+ " busy with " +:+ quote busy_model +:+ ".") "gpu_busy".

(** [last_err or 'unhealthy'] *)
Definition or_unhealthy (last_err : option string) : string :=
  match last_err with
  | Some s => if String.eqb s "" then "unhealthy" else s
  | None => "unhealthy"
  end.

Definition start_failed_error (pol : Policy) (last_err : option string) : JSONResponse :=
  json_error 503
    ("Backend start failed after " +:+ pretty (MAX_START_RETRIES pol) +:+ " attempts: "
       +:+ or_unhealthy last_err)
    "start_failed".

(** Lines 347-348 and 353-354: the container is running, probe it. *)
Definition probe_running (pol : Policy) (bk model_id : string) : M (option JSONResponse) :=
  ok ← wait_until_healthy bk (HEALTH_PROBE_TIMEOUT_S pol);
  mret (if ok : bool then None else Some (unhealthy_error model_id)).

(** The retry loop of lines 385-409 with [n] attempts left. *)
Fixpoint start_attempts (pol : Policy) (bk : string) (meta : Meta) (role : string)
    (n : nat) (last_err : option string) : M (option JSONResponse) :=
  match n with
  | O => mret (Some (start_failed_error pol last_err))
  | S n' =>
      r ← try_ (start_container (container meta));
      match r with
      | Raise e =>
          sleep 2;;
          start_attempts pol bk meta role n' (Some (format_exc e))
      | Ok _ =>
          ok ← wait_until_healthy bk (warmup_timeout_for_role pol role);
          if ok : bool then mret None
          else
            _ ← try_ (stop_container pol (container meta) None);
            sleep 2;;
            start_attempts pol bk meta role n' last_err
      end
  end.

(** Lines 381-409: displacement of embed/rerank, then the retry loop. *)
Definition startup_tail (pol : Policy) (bk : string) (meta : Meta) (role : string)
  : M (option JSONResponse) :=
  (if STOP_EMBED_RANK_BEFORE_GPU1_GENERATOR pol && String.eqb (gpu meta) "1"
      && str_in (model meta) GPU1_GENERATORS
   then stop_gpu1_embed_rank_best_effort pol
   else mret tt);;
  start_attempts pol bk meta role (Z.to_nat (MAX_START_RETRIES pol)) None.

(** Lines 362-379: another chat backend [busy_bk] runs on the GPU. *)
Definition on_gpu_busy (pol : Policy) (bk : string) (meta : Meta) (role busy_bk : string)
  : M (option JSONResponse) :=
  if String.eqb role "webui" && WEBUI_FAIL_FAST_IF_GPU_BUSY pol then
    busy_meta ← lift (BACKENDS_at busy_bk);
    mret (Some (gpu_busy_webui_error (gpu meta) (model busy_meta)))
  else if String.eqb role "n8n" && String.eqb (gpu meta) "1" && N8N_ALLOW_PREEMPT_GPU1 pol then
    _ ← try_ (busy_meta ← lift (BACKENDS_at busy_bk);
              stop_container pol (container busy_meta) None);
    sleep 3;;
    startup_tail pol bk meta role
  else
    busy_meta ← lift (BACKENDS_at busy_bk);
    mret (Some (gpu_busy_error (gpu meta) (model busy_meta))).

(** Lines 359-409: the block under the GPU lock. *)
Definition gpu_section (pol : Policy) (bk : string) (meta : Meta) (role : string)
  : M (option JSONResponse) :=
  heavy ← (if ONE_HEAVY_PER_GPU pol then lift (is_heavy_backend bk) else mret false);
  if heavy : bool then
    busy ← running_heavy_backend_on_gpu (gpu meta) (Some bk);
    if truthy busy then
      match busy with
      | Some busy_bk => on_gpu_busy pol bk meta role busy_bk
      | None => startup_tail pol bk meta role
      end
    else startup_tail pol bk meta role
  else startup_tail pol bk meta role.

(** Lines 342-409: the state checks, the fast path and the start path. *)
Definition bring_online (pol : Policy) (bk : string) (meta : Meta) (role : string)
  : M (option JSONResponse) :=
  st ← container_status (container meta);
  if negb (exists_ st) then mret (Some (container_missing_error meta))
  else if running st then probe_running pol bk (model meta)
  else
    with_lock (backend_lock bk)
      (st2 ← container_status (container meta);
       if running st2 then probe_running pol bk (model meta)
       else with_lock (gpu_lock (gpu meta)) (gpu_section pol bk meta role)).

Definition ensure_online_backend (pol : Policy) (bk role : string) : M (option JSONResponse) :=
  meta ← lift (BACKENDS_at bk);
  let model_id := model meta in
  st ← read_state;
  model_inflight ← lift (sum_inflight st (MODEL_BACKENDS_get model_id));
  let cap := default 1 (assoc_get model_id (CAPS pol)) in
  if (cap <=? model_inflight)%Z then
    mret (Some (rate_limited_error model_id model_inflight cap))
  else bring_online pol bk meta role.

(** ** Authentication (lines 68-79) *)

Record Request := {
  authorization : option string;   (* the Authorization header, if any *)
  req_json : Exc json              (* what [await req.json()] gives *)
}.

Definition lower_char (c : ascii) : ascii :=
  let n := nat_of_ascii c in
  if ((65 <=? n) && (n <=? 90))%nat then ascii_of_nat (n + 32) else c.

Fixpoint lower (s : string) : string :=
  match s with
  | EmptyString => EmptyString
  | String c s' => String (lower_char c) (lower s')
  end.

(** [s.split(" ", 1)[1]]: what follows the first space *)
Fixpoint after_first_space (s : string) : Exc string :=
  match s with
  | EmptyString => Raise IndexError            (* no second field *)
  | String c s' => if (nat_of_ascii c =? 32)%nat then Ok s' else after_first_space s'
  end.

Definition is_space (c : ascii) : bool :=
  let n := nat_of_ascii c in
  ((9 <=? n) && (n <=? 13) || (28 <=? n) && (n <=? 32) || (n =? 133) || (n =? 160))%nat.

Fixpoint lstrip (s : string) : string :=
  match s with
  | EmptyString => EmptyString
  | String c s' => if is_space c then lstrip s' else s
  end.

Definition rev_string (s : string) : string :=
  string_of_list_ascii (rev (list_ascii_of_string s)).

Definition strip (s : string) : string :=
  rev_string (lstrip (rev_string (lstrip s))).

Definition unauthorized_msg : string := "Unauthorized: valid API key required".

Definition caller_role (pol : Policy) (req : Request) : Exc string :=
  if negb (ROUTER_REQUIRE_API_KEY pol) then Ok "webui"
  else
    let auth := default "" (authorization req) in
    if negb (String.prefix "bearer " (lower auth)) then Raise (PermissionError unauthorized_msg)
    else
      rest ← after_first_space auth;
      let token := strip rest in
      if negb (String.eqb (WEBUI_API_KEY pol) "") && String.eqb token (WEBUI_API_KEY pol)
      then Ok "webui"
      else if negb (String.eqb (N8N_API_KEY pol) "") && String.eqb token (N8N_API_KEY pol)
      then Ok "n8n"
      else Raise (PermissionError unauthorized_msg).

(** ** Proxy and routes (lines 414-549) *)

(** What a handler returns. *)
Inductive Reply :=
| ReplyError (r : JSONResponse)
| ReplyProxied (r : Response).

(** [proxy(req, base, path)]: the outbound call, transparent. *)
Definition proxy (base path : string) : M Response :=
  r ← ask (λ o h, o_proxy o h base path) (EvProxy base path);
  lift r.

(** [str(v)] inside an f-string, for the values that reach it. *)
Definition py_str (v : json) : string :=
  match v with
  | JNull => "None"
  | JBool b => if b then "True" else "False"
  | JInt z => pretty z
  | JFloat _ repr => repr
  | JStr s => s
  | _ => ""
  end.

Definition unknown_model_error (shown : string) : JSONResponse :=
  json_error 400 ("Unknown model " +:+ quote shown +:+ ".") "unknown_model".

(** The loop of lines 450-458 over the candidates left, then line 460. *)
Fixpoint try_candidates (pol : Policy) (model_id role : string) (ordered : list string)
  : M (option string * option JSONResponse) :=
  match ordered with
  | [] =>
      mret (None, Some (json_error 503
                          ("No available backend for " +:+ quote model_id +:+ ".")
                          "gpu_busy"))
  | bk :: rest =>
      err ← ensure_online_backend pol bk role;
      match err with
      | None => mret (Some bk, None)
      | Some e =>
          if looks_gpu_busy e then try_candidates pol model_id role rest
          else mret (None, Some e)
      end
  end.

Definition ensure_and_get_backend (pol : Policy) (model_id role : string)
    (estimated_tokens : option pynum) : M (option string * option JSONResponse) :=
  st ← read_state;
  bk0 ← lift (choose_backend pol st model_id estimated_tokens (Some role));
  match bk0 with
  | Some b0 =>
      if truthy bk0 then
        let candidates := MODEL_BACKENDS_get model_id in
        let ordered := b0 :: filter (λ bk, bk ≠ b0) candidates in
        try_candidates pol model_id role ordered
      else mret (None, Some (unknown_model_error model_id))
  | None => mret (None, Some (unknown_model_error model_id))
  end.

(** [payload.get("model")] then [model_id not in MODEL_BACKENDS]: the
    model name when it is a key of the index, [None] when it is not. *)
Definition requested_model (payload : json) : Exc (json * option string) :=
  match payload with
  | JDict d =>
      let model_id := default JNull (assoc_get "model" d) in
      match model_id with
      | JList _ | JDict _ => Raise TypeError          (* unhashable *)
      | JStr s =>
          Ok (model_id, if assoc_get s MODEL_BACKENDS is Some _ then Some s else None)
      | _ => Ok (model_id, None)
      end
  | _ => Raise AttributeError
  end.

Definition payload_dict (payload : json) : list (string * json) :=
  match payload with
  | JDict d => d
  | _ => []
  end.

(** Lines 486-493 (and 514-521, 541-549): count the request in, proxy,
    stamp the backend on success, count the request out in any case. *)
Definition proxied (bk : string) (meta : Meta) (target path : string) : M Reply :=
  emit (EvInc bk);;
  finally_
    (resp ← proxy target path;
     t ← ask o_now EvNow;
     emit (EvSetLastUsed bk t);;
     emit (EvSetSticky (gpu meta) bk);;
     mret (ReplyProxied resp))
    (emit (EvDec bk)).

Definition chat_completions (pol : Policy) (req : Request) : M Reply :=
  match caller_role pol req with
  | Raise (PermissionError msg) => mret (ReplyError (json_error 401 msg "unauthorized"))
  | Raise e => raise e
  | Ok role =>
      payload ← lift (req_json req);
      '(shown, known) ← lift (requested_model payload);
      match known with
      | None => mret (ReplyError (unknown_model_error (py_str shown)))
      | Some model_id =>
          estimated_tokens ←
            (if ADAPTIVE_ROUTING_ENABLED pol
             then lift (n ← estimate_request_tokens (payload_dict payload); Ok (Some n))
             else mret None);
          '(bk, err) ← ensure_and_get_backend pol model_id role estimated_tokens;
          match err, bk with
          | Some e, _ => mret (ReplyError e)
          | None, None => raise AssertionError
          | None, Some bk =>
              meta ← lift (BACKENDS_at bk);
              proxied bk meta (base meta) "/chat/completions"
          end
      end
  end.

(** [MODEL_BACKENDS[model_id][0]] *)
Definition first_backend (model_id : string) : Exc string :=
  match MODEL_BACKENDS_get model_id with
  | bk :: _ => Ok bk
  | [] => Raise (KeyError model_id)
  end.

(** [s.rsplit("/v1", 1)[0]]: what precedes the last [/v1], or all of [s]. *)
Definition rsplit_v1 (s : string) : string :=
  let r := rev_string s in
  match String.index 0 "1v/" r with
  | Some i => rev_string (String.substring (i + 3) (String.length r - (i + 3)) r)
  | None => s
  end.

(** The embeddings and rerank handlers differ in the proxied target only. *)
Definition single_backend_handler (pol : Policy) (req : Request)
    (target : Meta → string) (path : string) : M Reply :=
  match caller_role pol req with
  | Raise (PermissionError msg) => mret (ReplyError (json_error 401 msg "unauthorized"))
  | Raise e => raise e
  | Ok role =>
      payload ← lift (req_json req);
      '(shown, known) ← lift (requested_model payload);
      match known with
      | None => mret (ReplyError (unknown_model_error (py_str shown)))
      | Some model_id =>
          bk ← lift (first_backend model_id);
          err ← ensure_online_backend pol bk role;
          match err with
          | Some e => mret (ReplyError e)
          | None =>
              meta ← lift (BACKENDS_at bk);
              proxied bk meta (target meta) path
          end
      end
  end.

Definition embeddings (pol : Policy) (req : Request) : M Reply :=
  single_backend_handler pol req base "/embeddings".

Definition rerank (pol : Policy) (req : Request) : M Reply :=
  single_backend_handler pol req (λ meta, rsplit_v1 (base meta)) "/rerank".

(** ** TTL sweeper (lines 554-592) *)

Definition ttl_for_backend (pol : Policy) (bk : string) : Exc Z :=
  meta ← BACKENDS_at bk;
  Ok (if String.eqb (gpu meta) "1" && str_in (model meta) GPU1_GENERATORS
      then GPU1_GENERATOR_TTL_MIN pol
      else GLOBAL_TTL_MIN pol).

(** [last_used.get(bk, 0.0)], [inflight.get(bk, 0)],
    [sticky_backend_by_gpu.get(gpu)] *)
Definition last_used_get (st : State) (bk : string) : Q := default 0%Q (last_used st !! bk).
Definition inflight_get (st : State) (bk : string) : Z := default 0 (inflight st !! bk).
Definition sticky_get (st : State) (g : string) : option string :=
  default None (sticky_backend_by_gpu st !! g).

Definition Qlt_bool (a b : Q) : bool := negb (Qle_bool b a).

(** [idle_s]: line 581, a float subtraction *)
Definition idle_s (st : State) (now : Q) (bk : string) : pyfloat :=
  let last := last_used_get st bk in
  if Qlt_bool 0 last then float_sub now last else FFinite now.

(** The body of the loop of lines 567-592 over the entries [l].  The loop
    has no suspension point, so one tick sees one state [st]. *)
Fixpoint sweep (pol : Policy) (st : State) (now : Q) (l : list (string * Meta)) : M unit :=
  match l with
  | [] => mret tt
  | (bk, meta) :: rest =>
      cs ← container_status (container meta);
      if negb (exists_ cs && running cs) then sweep pol st now rest
      else if KEEP_LAST_PER_GPU pol && bool_decide (sticky_get st (gpu meta) = Some bk)
              && Qlt_bool 0 (last_used_get st bk)
      then sweep pol st now rest
      else if (0 <? inflight_get st bk)%Z then sweep pol st now rest
      else
        let grace_s := GRACE_IDLE_MIN pol * 60 in
        if float_lt_int (idle_s st now bk) grace_s then sweep pol st now rest
        else
          ttl ← lift (ttl_for_backend pol bk);
          let ttl_s := ttl * 60 in
          (if float_ge_int (idle_s st now bk) ttl_s
           then (_ ← try_ (stop_container pol (container meta) None); mret tt)
           else mret tt);;
          sweep pol st now rest
  end.

(** One round of the [while True] loop. *)
Definition ttl_sweeper_tick (pol : Policy) : M unit :=
  sleep 60;;
  now ← ask o_now EvNow;
  st ← read_state;
  sweep pol st now BACKENDS.

Fixpoint ttl_sweeper (pol : Policy) (ticks : nat) : M unit :=
  match ticks with
  | O => mret tt
  | S n => ttl_sweeper_tick pol;; ttl_sweeper pol n
  end.

(** ** Reading traces *)

(** The backend's own container is touched by [stop_container]: only that
    function looks a container up with [EvGet], and it does so first. *)
Definition stop_attempted (name : string) (tr : Trace) : Prop :=
  ∃ r, In (EvGet name r) tr.

Definition is_stop_event (ev : Event) : bool :=
  match ev with
  | EvGet _ _ | EvStop _ _ _ | EvKill _ _ => true
  | _ => false
  end.

Definition is_start_event (ev : Event) : bool :=
  match ev with
  | EvStart _ _ => true
  | _ => false
  end.

Definition is_lock_event (ev : Event) : bool :=
  match ev with
  | EvAcquire _ | EvRelease _ => true
  | _ => false
  end.

Definition is_status_event (ev : Event) : bool :=
  match ev with
  | EvStatus _ _ => true
  | _ => false
  end.

(** Events that write a shared dictionary. *)
Definition is_write (ev : Event) : bool :=
  match ev with
  | EvInc _ | EvDec _ | EvSetLastUsed _ _ | EvSetSticky _ _ => true
  | _ => false
  end.


(** Every call made by [m], after any history, satisfies [P]. *)
Definition Only {A} (P : Event → Prop) (m : M A) : Prop :=
  ∀ o h, Forall P (m o h).2.

(** The container an engine event is about. *)
Definition event_container (ev : Event) : option string :=
  match ev with
  | EvStatus c _ | EvStart c _ | EvGet c _ | EvStop c _ _ | EvKill c _ => Some c
  | _ => None
  end.

(** ** The controller's errors, by kind *)

Definition is_rate_limited (r : Exc (option JSONResponse)) : Prop :=
  ∃ e, r = Ok (Some e) ∧ status_code e = 429 ∧ err_type e = "rate_limited".

Definition is_gpu_busy (r : Exc (option JSONResponse)) : Prop :=
  ∃ e, r = Ok (Some e) ∧ status_code e = 503 ∧ err_type e = "gpu_busy".

(** The model's cap and its total inflight, read off the registry itself. *)
Definition model_cap (pol : Policy) (model_id : string) : Z :=
  default 1 (assoc_get model_id (CAPS pol)).

Definition model_total_inflight (st : State) (model_id : string) : Z :=
  fold_right Z.add 0
    (map (λ kv, inflight_get st kv.1)
         (List.filter (λ kv, String.eqb (model kv.2) model_id) BACKENDS)).

(** [inflight] has an entry for every registered backend. *)
Definition inflight_wf (st : State) : Prop :=
  ∀ bk meta, assoc_get bk BACKENDS = Some meta → is_Some (inflight st !! bk).

(** The history of an invocation that has reached the block under the GPU
    lock: cap check passed on [st], container present and stopped at the
    first state check, not running ([r2]) at the second, both locks taken. *)
Definition start_path_history (st : State) (bk : string) (meta : Meta) (r2 : Inspect)
  : Trace :=
  [ EvReadState st;
    EvStatus (container meta) (IState false);
    EvAcquire (backend_lock bk);
    EvStatus (container meta) r2;
    EvAcquire (gpu_lock (gpu meta)) ].

(** The engine reports the container running. *)
Definition reports_running (r : Inspect) : bool :=
  match r with
  | IState true => true
  | _ => false
  end.

(** ** The start path in the words of the design document (4.4, 4.6)

    Each step is written out as the calls it makes to the engine, given
    the engine's answers; the histories are those of the invocation. *)

(** Stop semantics: the container is looked up; a graceful stop with the
    configured timeout is issued; on failure, a kill.  A failed lookup
    ends the attempt, failures of the kill are logged only. *)
Definition spec_stop (pol : Policy) (o : Oracle) (h : Trace) (c : string) : Trace :=
  match o_get o h c with
  | Some text => [EvGet c (Some text)]
  | None =>
      let t := CONTAINER_STOP_TIMEOUT_S pol in
      match o_stop o (h ++ [EvGet c None]) c t with
      | None => [EvGet c None; EvStop c t None]
      | Some text =>
          [EvGet c None; EvStop c t (Some text);
           EvKill c (o_kill o (h ++ [EvGet c None; EvStop c t (Some text)]) c)]
      end
  end.

(** The other chat backends on the GPU of [meta], in registry order. *)
Definition other_chat_on_gpu (bk : string) (meta : Meta) : list (string * Meta) :=
  List.filter (λ kv, String.eqb (gpu kv.2) (gpu meta) && String.eqb (kind kv.2) "chat"
                     && negb (String.eqb kv.1 bk))
              BACKENDS.

(** The scan: the engine is asked about each of them in turn until one is
    reported running; the inspections made and the backend found.  An
    inspection that fails ends the scan. *)
Fixpoint spec_scan (o : Oracle) (h : Trace) (cands : list (string * Meta))
  : Trace * option (string * Meta) :=
  match cands with
  | [] => ([], None)
  | (b, m) :: rest =>
      let r := o_status o h (container m) in
      match r with
      | IState true => ([EvStatus (container m) r], Some (b, m))
      | IError _ => ([EvStatus (container m) r], None)
      | _ =>
          let '(t, found) := spec_scan o (h ++ [EvStatus (container m) r]) rest in
          (EvStatus (container m) r :: t, found)
      end
  end.

(** The containers of the embedding and rerank backends of GPU 1. *)
Definition embed_rank_containers : list string :=
  map (λ kv, container kv.2)
      (List.filter (λ kv, String.eqb (gpu kv.2) "1"
                          && (String.eqb (kind kv.2) "embeddings"
                              || String.eqb (kind kv.2) "rerank"))
                   BACKENDS).

(** Displacement: each of the containers [cs] is inspected and, when
    running, given a best-effort stop.  A failed inspection raises. *)
Fixpoint spec_displace (pol : Policy) (o : Oracle) (h : Trace) (cs : list string)
  : Exc unit * Trace :=
  match cs with
  | [] => (Ok tt, [])
  | c :: rest =>
      let r := o_status o h c in
      match r with
      | IError text => (Raise (DockerError text), [EvStatus c r])
      | _ =>
          let stop := if reports_running r then spec_stop pol o (h ++ [EvStatus c r]) c
                      else [] in
          let '(x, t) := spec_displace pol o (h ++ EvStatus c r :: stop) rest in
          (x, EvStatus c r :: stop ++ t)
      end
  end.

(** Start with retries, [n] attempts left: start; on engine error, wait
    2 s and retry; after a start, wait for health with the timeout of the
    role: ready if healthy, else a best-effort stop, 2 s, and retry;
    start_failed when no attempt is left. *)
Fixpoint spec_start_loop (pol : Policy) (o : Oracle) (h : Trace) (bk : string) (meta : Meta)
    (role : string) (n : nat) (last_err : option string)
  : Exc (option JSONResponse) * Trace :=
  match n with
  | O => (Ok (Some (start_failed_error pol last_err)), [])
  | S n' =>
      let c := container meta in
      let warmup := if String.eqb role "webui" then INTERACTIVE_WARMUP_S pol
                    else AUTOMATION_WARMUP_S pol in
      match o_start o h c with
      | Some text =>
          let '(r, t) := spec_start_loop pol o (h ++ [EvStart c (Some text); EvSleep 2])
                           bk meta role n' (Some text) in
          (r, EvStart c (Some text) :: EvSleep 2 :: t)
      | None =>
          if o_healthy o (h ++ [EvStart c None]) bk warmup
          then (Ok None, [EvStart c None; EvWaitHealthy bk warmup true])
          else
            let probe := [EvStart c None; EvWaitHealthy bk warmup false] in
            let stop := spec_stop pol o (h ++ probe) c in
            let '(r, t) := spec_start_loop pol o (h ++ probe ++ stop ++ [EvSleep 2])
                             bk meta role n' last_err in
            (r, probe ++ stop ++ EvSleep 2 :: t)
      end
  end.

(** The startup of a chat backend once the GPU is its own: displacement
    of the embedding and rerank containers (GPU 1, flag on) followed by
    3 s, then the start loop. *)
Definition spec_startup (pol : Policy) (o : Oracle) (h : Trace) (bk : string) (meta : Meta)
    (role : string) : Exc (option JSONResponse) * Trace :=
  let '(x, t) :=
    if STOP_EMBED_RANK_BEFORE_GPU1_GENERATOR pol && String.eqb (gpu meta) "1" then
      match spec_displace pol o h embed_rank_containers with
      | (Ok _, t) => (Ok tt, t ++ [EvSleep 3])
      | (Raise e, t) => (Raise e, t)
      end
    else (Ok tt, []) in
  match x with
  | Raise e => (Raise e, t)
  | Ok _ =>
      let '(r, t') := spec_start_loop pol o (h ++ t) bk meta role
                        (Z.to_nat (MAX_START_RETRIES pol)) None in
      (r, t ++ t')
  end.

(** ** The sweeper's rule in the words of the design document (4.6) *)

(** GPU1-chat TTL for chat backends on GPU 1, the global TTL otherwise. *)
Definition spec_ttl_min (pol : Policy) (meta : Meta) : Z :=
  if String.eqb (kind meta) "chat" && String.eqb (gpu meta) "1"
  then GPU1_GENERATOR_TTL_MIN pol
  else GLOBAL_TTL_MIN pol.

(** now - last_used when ever used, else now: the idle time as the
    sweeper computes it, in double precision *)
Definition spec_idle (st : State) (now : Q) (bk : string) : pyfloat :=
  if Qlt_bool 0 (last_used_get st bk) then float_sub now (last_used_get st bk)
  else FFinite now.

(** The same difference taken exactly. *)
Definition exact_idle (st : State) (now : Q) (bk : string) : Q :=
  if Qlt_bool 0 (last_used_get st bk) then (now - last_used_get st bk)%Q else now.

(** The idle time is at least [n] seconds. *)
Definition idle_at_least (st : State) (now : Q) (bk : string) (n : Z) : Prop :=
  float_ge_int (spec_idle st now bk) n = true.

(** Step 2: the sticky backend of its GPU, ever used, under keep-last. *)
Definition sticky_skipped (pol : Policy) (st : State) (bk : string) (meta : Meta) : Prop :=
  KEEP_LAST_PER_GPU pol = true ∧ sticky_get st (gpu meta) = Some bk
  ∧ (0 < last_used_get st bk)%Q.

(** Step 3 *)
Definition inflight_skipped (st : State) (bk : string) : Prop :=
  (0 < inflight_get st bk)%Z.

(** ** The shared dictionaries under concurrent handlers *)

(** What a write does to the dictionaries. [inflight[bk] += 1] on a key
    that is not there raises and changes nothing. *)
Definition apply_event (s : State) (ev : Event) : State :=
  match ev with
  | EvInc bk =>
      {| inflight := alter Z.succ bk (inflight s);
         last_used := last_used s;
         sticky_backend_by_gpu := sticky_backend_by_gpu s |}
  | EvDec bk =>
      {| inflight := alter Z.pred bk (inflight s);
         last_used := last_used s;
         sticky_backend_by_gpu := sticky_backend_by_gpu s |}
  | EvSetLastUsed bk t =>
      {| inflight := inflight s;
         last_used := <[bk := t]> (last_used s);
         sticky_backend_by_gpu := sticky_backend_by_gpu s |}
  | EvSetSticky g bk =>
      {| inflight := inflight s;
         last_used := last_used s;
         sticky_backend_by_gpu := <[g := Some bk]> (sticky_backend_by_gpu s) |}
  | _ => s
  end.

(** The dictionaries after the global history [g], from boot. *)
Definition state_after (g : Trace) : State := fold_left apply_event g initial_state.

(** [interleave runs g]: [g] is a global history of tasks whose complete
    traces are [runs]; each task has got as far as the scheduler let it. *)
Inductive interleave : list Trace → Trace → Prop :=
| interleave_stop runs : interleave runs []
| interleave_step l1 l2 ev rest g :
    interleave (l1 ++ rest :: l2) g →
    interleave (l1 ++ (ev :: rest) :: l2) (ev :: g).

(** The trace of one request through one of the three POST handlers. *)
Definition handler_trace (pol : Policy) (o : Oracle) (tr : Trace) : Prop :=
  ∃ req, tr = (run (chat_completions pol req) o).2
       ∨ tr = (run (embeddings pol req) o).2
       ∨ tr = (run (rerank pol req) o).2.

(** [time.time()] is after the epoch. *)
Definition clock_positive (o : Oracle) : Prop := ∀ h, (0 < o_now o h)%Q.


(** *** A monitor of one handler's writes *)

Inductive phase :=
| Idle
| Holding (bk : string)
| Stamped (bk : string)
| Finished.

Definition mon_step (p : phase) (ev : Event) : option phase :=
  match ev, p with
  | EvInc bk, Idle => Some (Holding bk)
  | EvSetLastUsed bk _, Holding b => if String.eqb bk b then Some (Stamped b) else None
  | EvSetSticky _ bk, Stamped b => if String.eqb bk b then Some (Stamped b) else None
  | EvDec bk, Holding b => if String.eqb bk b then Some Finished else None
  | EvDec bk, Stamped b => if String.eqb bk b then Some Finished else None
  | (EvInc _ | EvDec _ | EvSetLastUsed _ _ | EvSetSticky _ _), _ => None
  | _, _ => Some p
  end.

Definition stamp_ok (P : Q → Prop) (ev : Event) : Prop :=
  match ev with
  | EvSetLastUsed _ t => P t
  | _ => True
  end.

Fixpoint accepts (P : Q → Prop) (p : phase) (tr : Trace) : Prop :=
  match tr with
  | [] => True
  | ev :: rest =>
      stamp_ok P ev ∧
      match mon_step p ev with
      | Some p' => accepts P p' rest
      | None => False
      end
  end.

(** The backend a task in phase [p] holds in [inflight], if any. *)
Definition holds (p : phase) (bk : string) : bool :=
  match p with
  | Holding b | Stamped b => String.eqb b bk
  | _ => false
  end.

Definition holders (ps : list phase) (bk : string) : Z :=
  Z.of_nat (length (List.filter (λ p, holds p bk) ps)).

(** The result of [m], whenever it returns, satisfies [R]. *)
Definition Returns {A} (R : A → Prop) (m : M A) : Prop :=
  ∀ o h a, (m o h).1 = Ok a → R a.

(** ** Example inputs *)

(** GPU 1 last served the llama throughput backend, GPU 0 nothing. *)
Definition sticky_state_example : State := {|
  inflight := inflight initial_state;
  last_used := <["llama31-8b-instruct@1" := 1700000000%Q]> (last_used initial_state);
  sticky_backend_by_gpu := <["0" := None]> (<["1" := Some "llama31-8b-instruct@1"]> ∅)
|}.

Definition is_proxy_event (ev : Event) : bool :=
  match ev with
  | EvProxy _ _ _ => true
  | _ => false
  end.

(** A call that writes no shared dictionary and is not the proxy call. *)
Definition quiet (ev : Event) : Prop := is_write ev || is_proxy_event ev = false.

(** No error of the start path or of the probes carries the status 429. *)
Definition not_429 (r : option JSONResponse) : Prop :=
  ∀ e, r = Some e → status_code e ≠ 429.

(** An engine in which every container exists and is stopped, every start
    succeeds and every probe fails. *)
Definition oracle_cold : Oracle := {|
  o_state := λ _, initial_state;
  o_status := λ _ _, IState false;
  o_start := λ _ _, None;
  o_get := λ _ _, None;
  o_stop := λ _ _ _, None;
  o_kill := λ _ _, None;
  o_healthy := λ _ _ _, false;
  o_proxy := λ _ _ _, Raise (ProxyError "connection refused");
  o_now := λ _, 1700000000%Q
|}.

(** An engine in which every container runs and every probe succeeds. *)
Definition oracle_warm : Oracle := {|
  o_state := λ _, initial_state;
  o_status := λ _ _, IState true;
  o_start := λ _ _, None;
  o_get := λ _ _, None;
  o_stop := λ _ _ _, None;
  o_kill := λ _ _, None;
  o_healthy := λ _ _ _, true;
  o_proxy := λ _ _ _, Ok {| resp_status := 200; resp_content := "{}" |};
  o_now := λ _, 1700000000%Q
|}.

(** An engine in which only the llama container of GPU 1 runs. *)
Definition oracle_busy : Oracle := {|
  o_state := λ _, initial_state;
  o_status := λ _ name, IState (String.eqb name "llama_1");
  o_start := λ _ _, None;
  o_get := λ _ _, None;
  o_stop := λ _ _ _, None;
  o_kill := λ _ _, None;
  o_healthy := λ _ _ _, true;
  o_proxy := λ _ _ _, Ok {| resp_status := 200; resp_content := "{}" |};
  o_now := λ _, 1700000000%Q
|}.

(** An engine in which every container is stopped and every start raises
    with a diagnostic that happens to contain the text gpu_busy. *)
Definition start_diagnostic : string :=
  "docker.errors.APIError: 500 Server Error: OCI runtime create failed: prestart hook: gpu_busy".

Definition oracle_start_raises : Oracle := {|
  o_state := λ _, initial_state;
  o_status := λ _ _, IState false;
  o_start := λ _ _, Some start_diagnostic;
  o_get := λ _ _, None;
  o_stop := λ _ _ _, None;
  o_kill := λ _ _, None;
  o_healthy := λ _ _ _, false;
  o_proxy := λ _ _ _, Raise (ProxyError "connection refused");
  o_now := λ _, 1700000000%Q
|}.

(** A start of the container [name] that raised occurs in the trace. *)
Definition start_raised (name : string) (tr : Trace) : bool :=
  existsb (λ ev, match ev with
                 | EvStart c (Some _) => String.eqb c name
                 | _ => false
                 end) tr.

(** Whether the sweeper, having found the backend running, stops it:
    lines 573-587 as one condition. *)
Definition sweep_decides (pol : Policy) (st : State) (now : Q) (bk : string) (meta : Meta)
  : bool :=
  negb (KEEP_LAST_PER_GPU pol && bool_decide (sticky_get st (gpu meta) = Some bk)
        && Qlt_bool 0 (last_used_get st bk))
  && negb (0 <? inflight_get st bk)%Z
  && negb (float_lt_int (idle_s st now bk) (GRACE_IDLE_MIN pol * 60))
  && match ttl_for_backend pol bk with
     | Ok ttl => float_ge_int (idle_s st now bk) (ttl * 60)
     | Raise _ => false
     end.

(** The history of a tick when its loop starts. *)
Definition tick_history (o : Oracle) : Trace :=
  let now := o_now o [EvSleep 60] in
  [EvSleep 60; EvNow now; EvReadState (o_state o [EvSleep 60; EvNow now])].

Definition tick_now (o : Oracle) : Q := o_now o [EvSleep 60].
Definition tick_state (o : Oracle) : State := o_state o [EvSleep 60; EvNow (tick_now o)].

(** The embeddings backend was last used 2000 s before the tick and is
    the only container running; nothing is inflight or sticky. *)
Definition idle_state_example : State := {|
  inflight := inflight initial_state;
  last_used := <["bge-m3@1" := 1700000000%Q]> (last_used initial_state);
  sticky_backend_by_gpu := sticky_backend_by_gpu initial_state
|}.

Definition oracle_idle : Oracle := {|
  o_state := λ _, idle_state_example;
  o_status := λ _ name, IState (String.eqb name "bge_embed_1");
  o_start := λ _ _, None;
  o_get := λ _ _, None;
  o_stop := λ _ _ _, None;
  o_kill := λ _ _, None;
  o_healthy := λ _ _ _, true;
  o_proxy := λ _ _ _, Ok {| resp_status := 200; resp_content := "{}" |};
  o_now := λ _, 1700002000%Q
|}.

(** The shape of a handler's trace: calls of the admission phase, then
    nothing more, or the bracket of lines 486-493 around a proxy call that
    raised, or the bracket around one that returned (stamped at [t]). *)
Definition handler_shape (P : Q → Prop) (tr : Trace) : Prop :=
  ∃ adm, Forall quiet adm ∧
    (tr = adm
     ∨ ∃ bk target path,
         (∃ e, tr = adm ++ [EvInc bk; EvProxy target path (Raise e); EvDec bk])
         ∨ (∃ resp t g, P t ∧
              tr = adm ++ [EvInc bk; EvProxy target path (Ok resp); EvNow t;
                           EvSetLastUsed bk t; EvSetSticky g bk; EvDec bk])).

Definition Shaped {A} (P : Q → Prop) (m : M A) : Prop :=
  ∀ o h, (∀ h', P (o_now o h')) → handler_shape P (m o h).2.

(** The dictionaries agree with the phases of the tasks in flight: each
    inflight count is the number of tasks holding the backend, and every
    backend that is stamped by a task or sticky on a GPU has a [last_used]
    that satisfies [P]. *)
Definition consistent (P : Q → Prop) (s : State) (ps : list phase) : Prop :=
  (∀ bk v, inflight s !! bk = Some v → v = holders ps bk)
  ∧ (∀ bk, In (Stamped bk) ps → ∃ t, last_used s !! bk = Some t ∧ P t)
  ∧ (∀ g bk, sticky_backend_by_gpu s !! g = Some (Some bk) →
       ∃ t, last_used s !! bk = Some t ∧ P t).

(** The default policy with the two bearer tokens set. *)
Definition policy_example : Policy := {|
  ROUTER_REQUIRE_API_KEY := true;
  WEBUI_API_KEY := "webui-secret";
  N8N_API_KEY := "n8n-secret";
  INTERACTIVE_WARMUP_S := 45;
  AUTOMATION_WARMUP_S := 180;
  HEALTH_PROBE_TIMEOUT_S := 15;
  MAX_START_RETRIES := 3;
  CONTAINER_STOP_TIMEOUT_S := 45;
  KEEP_LAST_PER_GPU := true;
  ONE_HEAVY_PER_GPU := true;
  STOP_EMBED_RANK_BEFORE_GPU1_GENERATOR := true;
  WEBUI_FAIL_FAST_IF_GPU_BUSY := true;
  N8N_ALLOW_PREEMPT_GPU1 := true;
  ADAPTIVE_ROUTING_ENABLED := true;
  ADAPTIVE_ROUTING_THRESHOLD := 4096;
  GLOBAL_TTL_MIN := 20;
  GPU1_GENERATOR_TTL_MIN := 15;
  GRACE_IDLE_MIN := 5;
  CAP_LLAMA := 8;
  CAP_R1 := 6;
  CAP_QWEN := 8;
  CAP_MINITRON := 9;
  CAP_BGE_EMBED := 8;
  CAP_BGE_RERANK := 4
|}.

(** An interactive chat request with a short prompt. *)
Definition request_example : Request := {|
  authorization := Some "Bearer webui-secret";
  req_json := Ok (JDict [("model", JStr "llama31-8b-instruct");
                         ("messages", JList [JDict [("role", JStr "user");
                                                    ("content", JStr "hello")]])])
|}.

(** The trace of that request with every container up and healthy. *)
Definition example_trace : Trace :=
  (run (chat_completions policy_example request_example) oracle_warm).2.

(** A later tick: the llama and the embeddings containers of GPU 1 run. *)
Definition oracle_sweep_example : Oracle := {|
  o_state := λ _, state_after example_trace;
  o_status := λ _ name, IState (String.eqb name "llama_1" || String.eqb name "bge_embed_1");
  o_start := λ _ _, None;
  o_get := λ _ _, None;
  o_stop := λ _ _ _, None;
  o_kill := λ _ _, None;
  o_healthy := λ _ _ _, true;
  o_proxy := λ _ _ _, Ok {| resp_status := 200; resp_content := "{}" |};
  o_now := λ _, 1700002000%Q
|}.

(** The engine of [oracle_idle], failing every lookup of a container. *)
Definition oracle_lookup_fails : Oracle := {|
  o_state := λ _, idle_state_example;
  o_status := λ _ name, IState (String.eqb name "bge_embed_1");
  o_start := λ _ _, None;
  o_get := λ _ _, Some "docker.errors.APIError: 500 Server Error";
  o_stop := λ _ _ _, None;
  o_kill := λ _ _, None;
  o_healthy := λ _ _ _, true;
  o_proxy := λ _ _ _, Ok {| resp_status := 200; resp_content := "{}" |};
  o_now := λ _, 1700002000%Q
|}.

(** The doubles nearest to 900.3 and to 0.3. *)
Definition double_900_3 : Q := 3959561273946931 # 4398046511104.
Definition double_0_3 : Q := 5404319552844595 # 18014398509481984.

(** The llama backend of GPU 1 was last used at 0.3; the embeddings
    backend is the sticky one of the GPU. *)
Definition rounding_state_example : State := {|
  inflight := inflight initial_state;
  last_used := <["llama31-8b-instruct@1" := double_0_3]>
                 (<["bge-m3@1" := double_0_3]> (last_used initial_state));
  sticky_backend_by_gpu := <["0" := None]> (<["1" := Some "bge-m3@1"]> ∅)
|}.

(** The clock reads 900.3; only the llama container of GPU 1 runs. *)
Definition oracle_rounding : Oracle := {|
  o_state := λ _, rounding_state_example;
  o_status := λ _ name, IState (String.eqb name "llama_1");
  o_start := λ _ _, None;
  o_get := λ _ _, None;
  o_stop := λ _ _ _, None;
  o_kill := λ _ _, None;
  o_healthy := λ _ _ _, true;
  o_proxy := λ _ _ _, Ok {| resp_status := 200; resp_content := "{}" |};
  o_now := λ _, double_900_3
|}.

(** The engine of [oracle_busy], failing every lookup of a container. *)
Definition oracle_busy_lookup_fails : Oracle := {|
  o_state := λ _, initial_state;
  o_status := λ _ name, IState (String.eqb name "llama_1");
  o_start := λ _ _, None;
  o_get := λ _ _, Some "docker.errors.APIError: 500 Server Error";
  o_stop := λ _ _ _, None;
  o_kill := λ _ _, None;
  o_healthy := λ _ _ _, true;
  o_proxy := λ _ _ _, Ok {| resp_status := 200; resp_content := "{}" |};
  o_now := λ _, 1700000000%Q
|}.

(** ** Reading traces, continued *)

(** Calls to the engine, probes and sleeps: what the start path is made
    of between the lock operations. *)
Definition is_engine_event (ev : Event) : bool :=
  match ev with
  | EvStatus _ _ | EvStart _ _ | EvGet _ _ | EvStop _ _ _ | EvKill _ _
  | EvWaitHealthy _ _ _ | EvSleep _ => true
  | _ => false
  end.

(** The lock operations of a trace, in order. *)
Definition lock_events (tr : Trace) : list Event := List.filter is_lock_event tr.

(** The number of [start_container] calls in a trace. *)
Definition start_calls (tr : Trace) : nat := length (List.filter is_start_event tr).

(** Admission was granted on a successful probe of [bk]: the trace ends
    with that probe, followed by lock releases only. *)
Definition ends_with_probe (pol : Policy) (bk role : string) (tr : Trace) : Prop :=
  ∃ pre timeout_s rel,
    tr = pre ++ EvWaitHealthy bk timeout_s true :: rel
    ∧ Forall (λ ev, ∃ l, ev = EvRelease l) rel
    ∧ (timeout_s = HEALTH_PROBE_TIMEOUT_S pol ∨ timeout_s = warmup_timeout_for_role pol role).

(** [m] grants admission ([None]) only on a successful probe. *)
Definition Gated (pol : Policy) (bk role : string) (m : M (option JSONResponse)) : Prop :=
  ∀ o h, (m o h).1 = Ok None → ends_with_probe pol bk role (m o h).2.

(** The outcome and the calls of [m], after any history, satisfy [Q]. *)
Definition Post {A} (Q : Exc A → Trace → Prop) (m : M A) : Prop :=
  ∀ o h, Q (m o h).1 (m o h).2.

(** The start calls of an invocation: all on the backend's own container,
    at most [MAX_START_RETRIES] of them, and exactly that many when the
    invocation reports start_failed. *)
Definition start_budget (pol : Policy) (meta : Meta)
    (r : Exc (option JSONResponse)) (tr : Trace) : Prop :=
  Forall (λ ev, is_start_event ev = true → event_container ev = Some (container meta)) tr
  ∧ (start_calls tr <= Z.to_nat (MAX_START_RETRIES pol))%nat
  ∧ (∀ e, r = Ok (Some e) → err_type e = "start_failed" →
       start_calls tr = Z.to_nat (MAX_START_RETRIES pol)).

(** The errors of the controller, by status and type. *)
Definition controller_error (e : JSONResponse) : Prop :=
  (status_code e = 429 ∧ err_type e = "rate_limited")
  ∨ (status_code e = 409 ∧ err_type e = "container_missing")
  ∨ (status_code e = 503
     ∧ (err_type e = "unhealthy" ∨ err_type e = "gpu_busy" ∨ err_type e = "start_failed")).

(** The errors of the start path: whatever is reported once the first
    state check found the container present and stopped. *)
Definition start_path_error (r : option JSONResponse) : Prop :=
  ∀ e, r = Some e →
    status_code e = 503
    ∧ (err_type e = "unhealthy" ∨ err_type e = "gpu_busy" ∨ err_type e = "start_failed").

(** An engine that knows none of the containers. *)
Definition oracle_absent : Oracle := {|
  o_state := λ _, initial_state;
  o_status := λ _ _, INotFound;
  o_start := λ _ _, Some "docker.errors.NotFound: 404 Client Error: No such container";
  o_get := λ _ _, Some "docker.errors.NotFound: 404 Client Error: No such container";
  o_stop := λ _ _ _, None;
  o_kill := λ _ _, None;
  o_healthy := λ _ _ _, false;
  o_proxy := λ _ _ _, Raise (ProxyError "connection refused");
  o_now := λ _, 1700000000%Q
|}.

(** Line 382: starting this backend displaces the embed and rerank containers. *)
Definition displaces (pol : Policy) (meta : Meta) : bool :=
  STOP_EMBED_RANK_BEFORE_GPU1_GENERATOR pol && String.eqb (gpu meta) "1"
  && str_in (model meta) GPU1_GENERATORS.

(** Line 370: the caller may preempt a running chat backend. *)
Definition may_preempt (pol : Policy) (role : string) (meta : Meta) : bool :=
  String.eqb role "n8n" && String.eqb (gpu meta) "1" && N8N_ALLOW_PREEMPT_GPU1 pol.

(** The containers an invocation for [bk] may call [stop_container] on:
    its own, the embed and rerank containers when it displaces them, and
    another chat backend of its GPU when it may preempt. *)
Definition stop_target (pol : Policy) (bk role : string) (meta : Meta) (c : string) : Prop :=
  c = container meta
  ∨ (displaces pol meta = true ∧ (c = "bge_embed_1" ∨ c = "bge_reranker_1"))
  ∨ (may_preempt pol role meta = true
     ∧ ∃ b m, assoc_get b BACKENDS = Some m ∧ b ≠ bk ∧ gpu m = gpu meta
              ∧ kind m = "chat" ∧ c = container m).

(** Every call of [stop_container] recorded by the event is on a
    container in [P]. *)
Definition stops_to (P : string → Prop) (ev : Event) : Prop :=
  is_stop_event ev = true → ∃ c, event_container ev = Some c ∧ P c.

(** What the sweeper does: it sleeps, reads the clock and the
    dictionaries, inspects containers and stops them. *)
Definition is_sweeper_event (ev : Event) : bool :=
  match ev with
  | EvSleep _ | EvNow _ | EvReadState _ | EvStatus _ _
  | EvGet _ _ | EvStop _ _ _ | EvKill _ _ => true
  | _ => false
  end.

(** An inspection the engine answered with an error other than NotFound. *)
Definition inspect_failed (ev : Event) : bool :=
  match ev with
  | EvStatus _ (IError _) => true
  | _ => false
  end.

(** How a run of the sweeper's code ends: it went through and no
    inspection failed, or it ended on the first inspection that failed
    and raises the engine's error. *)
Definition sweeper_outcome (r : Exc unit) (tr : Trace) : Prop :=
  (r = Ok tt ∧ Forall (λ ev, inspect_failed ev = false) tr)
  ∨ (∃ pre c text,
       tr = pre ++ [EvStatus c (IError text)] ∧ r = Raise (DockerError text)
       ∧ Forall (λ ev, inspect_failed ev = false) pre).

(** ** The selector's later rules (lines 296-325) *)

(** Lines 296-308: the first backend of the model with the strategy the
    estimate calls for, when adaptive routing applies. *)
Definition adaptive_pick (pol : Policy) (model_id : string) (estimated_tokens : option pynum)
  : option string :=
  match ADAPTIVE_ROUTING_ENABLED pol, estimated_tokens with
  | true, Some est => first_registered model_id (inferred_need pol est)
  | _, _ => None
  end.

(** First backend, in registry order, of the model on the GPU. *)
Definition first_on_gpu (model_id g : string) : option string :=
  fst <$> List.find (λ kv, String.eqb (model kv.2) model_id && String.eqb (gpu kv.2) g)
                    BACKENDS.

(** * Properties *)

(** ** Double-precision arithmetic *)

(** The rounding on known values: the doubles nearest to 0.3 and 900.3,
    their difference (900.0, though the exact difference is smaller),
    1 + 1e16, a tie between two doubles, the subnormal range, the
    overflow threshold. *)
Example round_double_vectors :
  round_double (3 # 10) = FFinite double_0_3
  ∧ round_double (9003 # 10) = FFinite double_900_3
  ∧ float_sub double_900_3 double_0_3 = FFinite 900
  ∧ (double_900_3 - double_0_3 < 900)%Q
  ∧ float_add 1 10000000000000000 = FFinite 10000000000000000
  ∧ round_double (inject_Z (2 ^ 53 + 1)) = FFinite (inject_Z (2 ^ 53))
  ∧ round_double (inject_Z (2 ^ 53 + 3)) = FFinite (inject_Z (2 ^ 53 + 4))
  ∧ round_double (1 # Z.to_pos (2 ^ 1075)) = FFinite 0
  ∧ round_double (3 # Z.to_pos (2 ^ 1075)) = FFinite (1 # Z.to_pos (2 ^ 1073))
  ∧ round_double (inject_Z (2 ^ 1024 - 2 ^ 970 - 1))
    = FFinite (inject_Z ((2 ^ 53 - 1) * 2 ^ 971))
  ∧ round_double (inject_Z (2 ^ 1024 - 2 ^ 970)) = FInf false
  ∧ float_of_int (2 ^ 1024) = Raise OverflowError.
Proof. repeat split; vm_compute; reflexivity. Qed.

(** ** Token estimator *)

Lemma quarter_nonneg (n : nat) : 0 <= Z.of_nat n / 4.
Proof. apply Z.div_pos; lia. Qed.

Lemma spec_part_estimate_nonneg item : 0 <= spec_part_estimate item.
Proof.
  destruct item as [| | | | |l|d]; simpl; try lia.
  destruct (type_is_text d); [|lia].
  destruct (assoc_get "text" d) as [[]|]; try lia. apply quarter_nonneg.
Qed.

Lemma spec_parts_nonneg parts :
  0 <= fold_right (λ p acc, spec_part_estimate p + acc) 0 parts.
Proof.
  induction parts as [|p parts IH]; simpl; [lia|].
  pose proof (spec_part_estimate_nonneg p). lia.
Qed.

Lemma spec_message_estimate_nonneg msg : 0 <= spec_message_estimate msg.
Proof.
  destruct msg as [| | | | |l|d]; simpl; try lia.
  destruct (assoc_get "content" d) as [[]|]; simpl; try lia.
  - apply quarter_nonneg.
  - apply spec_parts_nonneg.
Qed.

Lemma count_parts_ok items total :
  forallb part_ok items = true →
  count_parts items total
  = Ok (total + fold_right (λ p acc, spec_part_estimate p + acc) 0 items).
Proof.
  revert total. induction items as [|item items IH]; intros total Hok; simpl.
  - f_equal. lia.
  - simpl in Hok. apply andb_prop in Hok as [Hitem Hrest].
    destruct item as [| | | | |l|d]; simpl in *;
      try (rewrite IH by assumption; f_equal; lia).
    destruct (type_is_text d).
    + destruct (assoc_get "text" d) as [[]|]; try discriminate;
        unfold estimate_tokens, mbind, Exc_bind; simpl;
        rewrite IH by assumption; f_equal; simpl.
      * ring.
      * change (Z.of_nat 0 / 4) with 0. ring.
    + rewrite IH by assumption. f_equal; lia.
Qed.

Lemma count_message_ok msg total :
  message_ok msg = true →
  count_message msg total = Ok (total + spec_message_estimate msg).
Proof.
  intros Hok. destruct msg as [| | | | |l|d]; simpl in *; try discriminate.
  destruct (assoc_get "content" d) as [[]|]; simpl; try (f_equal; lia).
  apply count_parts_ok. assumption.
Qed.

Lemma count_messages_ok msgs total :
  forallb message_ok msgs = true →
  count_messages msgs total
  = Ok (total + fold_right (λ m acc, spec_message_estimate m + acc) 0 msgs).
Proof.
  revert total. induction msgs as [|msg msgs IH]; intros total Hok; simpl.
  - f_equal. lia.
  - simpl in Hok. apply andb_prop in Hok as [Hmsg Hrest].
    rewrite (count_message_ok _ _ Hmsg). simpl.
    rewrite IH by assumption. f_equal. lia.
Qed.

Lemma spec_messages_nonneg msgs :
  0 <= fold_right (λ m acc, spec_message_estimate m + acc) 0 msgs.
Proof.
  induction msgs as [|m msgs IH]; simpl; [lia|].
  pose proof (spec_message_estimate_nonneg m). lia.
Qed.

(** C9, as amended: on every payload whose [messages] (if present) is a
    list of objects with string-valued text parts and whose [max_tokens]
    (if present) is a non-negative integer, whatever the shape of each
    [content] and of each part, [estimate_request_tokens] returns without
    raising the non-negative integer of the design document: a quarter of
    the length of string contents and of the text of text parts, rounded
    down, nothing for any other content or part, plus [max_tokens] or 512. *)
Theorem estimate_request_tokens_spec (payload : list (string * json)) :
  payload_ok payload = true →
  estimate_request_tokens payload = Ok (PInt (spec_estimate payload))
  ∧ 0 <= spec_estimate payload.
Proof.
  unfold payload_ok, estimate_request_tokens, spec_estimate.
  intros Hok. apply andb_prop in Hok as [Hmsgs Hmax].
  destruct (assoc_get "messages" payload) as [[| | | | |msgs|]|]; try discriminate; simpl.
  - rewrite (count_messages_ok _ _ Hmsgs). simpl.
    pose proof (spec_messages_nonneg msgs).
    destruct (assoc_get "max_tokens" payload) as [[]|]; try discriminate; simpl.
    + apply Z.leb_le in Hmax. split; [reflexivity | lia].
    + split; [reflexivity | lia].
  - destruct (assoc_get "max_tokens" payload) as [[]|]; try discriminate; simpl.
    + apply Z.leb_le in Hmax. split; [reflexivity | lia].
    + split; [reflexivity | lia].
Qed.

Lemma estimate_request_tokens_spec_witness :
  estimate_request_tokens
    [("messages", JList [JDict [("role", JStr "user"); ("content", JStr "hello world")];
                         JDict [("content", JInt 7)]]);
     ("max_tokens", JInt 100)]
  = Ok (PInt 102).
Proof.
  apply (estimate_request_tokens_spec
           [("messages", JList [JDict [("role", JStr "user"); ("content", JStr "hello world")];
                                JDict [("content", JInt 7)]]);
            ("max_tokens", JInt 100)]).
  reflexivity.
Defined.

(** C9 as stated fails: a negative [max_tokens] gives a negative estimate,
    and a message that is no object, a [max_tokens] that is no number or a
    text part whose [text] has no length makes the estimator raise. *)
Lemma estimate_request_tokens_counterexample :
  estimate_request_tokens [("messages", JList []); ("max_tokens", JInt (-1))] = Ok (PInt (-1))
  ∧ estimate_request_tokens [("messages", JList [JStr "hi"])] = Raise AttributeError
  ∧ estimate_request_tokens [("messages", JList []); ("max_tokens", JStr "many")]
    = Raise TypeError
  ∧ estimate_request_tokens
      [("messages",
        JList [JDict [("content", JList [JDict [("type", JStr "text"); ("text", JInt 5)]])]])]
    = Raise TypeError
  ∧ ¬ (∀ payload, ∃ n, estimate_request_tokens payload = Ok (PInt n) ∧ 0 <= n).
Proof.
  repeat split; try reflexivity.
  intros H. destruct (H [("messages", JList []); ("max_tokens", JInt (-1))]) as (n & Hn & Hpos).
  simpl in Hn. injection Hn as <-. lia.
Qed.

(** ** Registry facts *)

(** Case analysis on a registered backend: ten cases, [bk] and [meta] known. *)
Ltac registry_cases H :=
  unfold BACKENDS in H; cbn [assoc_get] in H; revert H;
  repeat match goal with
         | |- (if String.eqb ?k ?x then _ else _) = _ → _ =>
             destruct (String.eqb_spec k x) as [<-|?]; [ intros [= <-] | ]
         end;
  try (intros [=]).

(** Case analysis on a model name: the six registered ones, or none. *)
Ltac model_cases m :=
  destruct (String.eqb_spec "llama31-8b-instruct" m) as [<-|?];
  [| destruct (String.eqb_spec "deepseek-r1-8b" m) as [<-|?];
  [| destruct (String.eqb_spec "qwen-coder-7b" m) as [<-|?];
  [| destruct (String.eqb_spec "nemo-minitron-8b-instruct" m) as [<-|?];
  [| destruct (String.eqb_spec "bge-m3" m) as [<-|?];
  [| destruct (String.eqb_spec "bge-reranker" m) as [<-|?] ]]]]].

Ltac eqb_false :=
  repeat match goal with
         | H : ?a ≠ ?b |- context [String.eqb ?a ?b] =>
             rewrite (proj2 (String.eqb_neq a b) H)
         end.

Lemma BACKENDS_at_registered bk meta :
  assoc_get bk BACKENDS = Some meta → BACKENDS_at bk = Ok meta.
Proof. unfold BACKENDS_at. intros ->. reflexivity. Qed.

Lemma registered_truthy bk meta :
  assoc_get bk BACKENDS = Some meta → truthy (Some bk) = true.
Proof. intros H. registry_cases H; reflexivity. Qed.

Lemma registered_model_indexed bk meta :
  assoc_get bk BACKENDS = Some meta →
  ∃ b l, MODEL_BACKENDS_get (model meta) = b :: l.
Proof. intros H. registry_cases H; eexists _, _; reflexivity. Qed.

Lemma unknown_model m :
  "llama31-8b-instruct" ≠ m → "deepseek-r1-8b" ≠ m → "qwen-coder-7b" ≠ m →
  "nemo-minitron-8b-instruct" ≠ m → "bge-m3" ≠ m → "bge-reranker" ≠ m →
  MODEL_BACKENDS_get m = []
  ∧ List.filter (λ kv : string * Meta, String.eqb (model kv.2) m) BACKENDS = [].
Proof.
  intros. split.
  - unfold MODEL_BACKENDS_get, MODEL_BACKENDS. cbn [assoc_get]. eqb_false. reflexivity.
  - unfold BACKENDS, mk. cbn [List.filter snd model]. eqb_false. reflexivity.
Qed.

(** The index [MODEL_BACKENDS] lists, in registry order, the backends whose
    [model] is the key. *)
Lemma MODEL_BACKENDS_get_filter m :
  MODEL_BACKENDS_get m
  = map fst (List.filter (λ kv : string * Meta, String.eqb (model kv.2) m) BACKENDS).
Proof.
  model_cases m; try reflexivity.
  destruct (unknown_model m) as [-> ->]; auto.
Qed.

(** ** Backend selector *)

Lemma Qle_bool_inject (a b : Z) : Qle_bool (inject_Z a) (inject_Z b) = (a <=? b)%Z.
Proof. unfold Qle_bool, inject_Z. simpl. rewrite !Z.mul_1_r. reflexivity. Qed.

Lemma needs_long_context_int pol n :
  needs_long_context pol (PInt n) = (ADAPTIVE_ROUTING_THRESHOLD pol <? n)%Z.
Proof.
  unfold needs_long_context, py_gt. simpl. rewrite Qle_bool_inject.
  rewrite Z.ltb_antisym. reflexivity.
Qed.

Lemma first_with_filter (p : Meta → bool) (l : list (string * Meta)) :
  (∀ kv, In kv l → assoc_get kv.1 BACKENDS = Some kv.2) →
  first_with p (map fst l) = Ok (fst <$> List.find (λ kv, p kv.2) l).
Proof.
  induction l as [|[bk meta] l IH]; intros Hreg; [reflexivity|].
  cbn [map fst first_with List.find snd].
  rewrite (BACKENDS_at_registered bk meta) by (apply (Hreg (bk, meta)); left; reflexivity).
  unfold mbind, Exc_bind, exc_bind. destruct (p meta); [reflexivity|].
  apply IH. intros kv Hin. apply Hreg. right. exact Hin.
Qed.

Lemma find_filter {A} (p q : A → bool) (l : list A) :
  List.find q (List.filter p l) = List.find (λ x, p x && q x) l.
Proof.
  induction l as [|x l IH]; [reflexivity|]. simpl.
  destruct (p x); simpl; [destruct (q x); auto | auto].
Qed.

Lemma registry_keys_unique kv :
  In kv BACKENDS → assoc_get kv.1 BACKENDS = Some kv.2.
Proof.
  unfold BACKENDS. cbn [In]. intros H.
  repeat (destruct H as [<-|H]; [reflexivity|]). destruct H.
Qed.

(** The loop over the model's backends finds the first registered backend
    of the model that satisfies [p]. *)
Lemma first_with_model (p : Meta → bool) m :
  first_with p (MODEL_BACKENDS_get m)
  = Ok (fst <$> List.find (λ kv, String.eqb (model kv.2) m && p kv.2) BACKENDS).
Proof.
  rewrite MODEL_BACKENDS_get_filter, first_with_filter.
  - rewrite find_filter. reflexivity.
  - intros kv Hin. apply registry_keys_unique.
    apply List.filter_In in Hin. tauto.
Qed.

Lemma strategy_test pol est s :
  (needs_long_context pol est && String.eqb s "long")
  || (negb (needs_long_context pol est) && String.eqb s "throughput")
  = String.eqb s (inferred_need pol est).
Proof.
  unfold inferred_need. destruct (needs_long_context pol est); simpl.
  - apply orb_false_r.
  - reflexivity.
Qed.

(** One round of the sticky loop on a GPU whose sticky backend qualifies. *)
Lemma sticky_scan_hit pol st m est g sb rest :
  sticky_qualifies pol st m est g sb →
  sticky_scan pol st m est (g :: rest) = Ok (Some sb).
Proof.
  intros (Hsb & meta & Hreg & Hmodel & Hneed).
  cbn [sticky_scan]. cbv zeta. rewrite Hsb. cbn [default from_option id].
  rewrite (registered_truthy _ _ Hreg), (BACKENDS_at_registered _ _ Hreg).
  unfold mbind, Exc_bind, exc_bind. rewrite Hmodel, String.eqb_refl.
  destruct Hneed as [-> | (e & -> & Hs)]; [reflexivity|].
  destruct (ADAPTIVE_ROUTING_ENABLED pol); [|reflexivity].
  cbv zeta. rewrite strategy_test, Hs, String.eqb_refl. reflexivity.
Qed.

(** One round on a GPU whose sticky backend does not qualify. *)
Lemma sticky_scan_miss pol st m est g rest :
  sticky_wf st →
  (¬ ∃ sb, sticky_qualifies pol st m est g sb) →
  ADAPTIVE_ROUTING_ENABLED pol = false ∨ is_Some est →
  sticky_scan pol st m est (g :: rest) = sticky_scan pol st m est rest.
Proof.
  intros Hwf Hnot Hdef. cbn [sticky_scan]. cbv zeta.
  destruct (sticky_backend_by_gpu st !! g) as [[sb|]|] eqn:Hsb; cbn [default from_option id]; try reflexivity.
  destruct (Hwf g sb Hsb) as (meta & Hreg & _).
  rewrite (registered_truthy _ _ Hreg), (BACKENDS_at_registered _ _ Hreg).
  unfold mbind, Exc_bind, exc_bind.
  destruct (String.eqb_spec (model meta) m) as [Hm|]; [|reflexivity].
  destruct (ADAPTIVE_ROUTING_ENABLED pol) eqn:Had.
  - destruct Hdef as [|[e ->]]; [discriminate|].
    cbv zeta. rewrite strategy_test.
    destruct (String.eqb_spec (strategy meta) (inferred_need pol e)) as [Hs|]; [|reflexivity].
    exfalso. apply Hnot. exists sb. split; [exact Hsb|].
    exists meta. repeat split; try assumption. right. exists e. auto.
  - exfalso. apply Hnot. exists sb. split; [exact Hsb|].
    exists meta. repeat split; try assumption. left. exact Had.
Qed.

Lemma choose_backend_sticky pol st m est role sb meta :
  assoc_get sb BACKENDS = Some meta → model meta = m →
  sticky_scan pol st m est ["0"; "1"] = Ok (Some sb) →
  choose_backend pol st m est role = Ok (Some sb).
Proof.
  intros Hreg <- Hscan. unfold choose_backend.
  destruct (registered_model_indexed _ _ Hreg) as (b & l & ->).
  rewrite Hscan. reflexivity.
Qed.

(** C7: the selector scans the GPUs in the order 0, 1 and returns the
    first sticky backend that serves the requested model and, unless
    adaptive routing is disabled, has the strategy the estimate calls for
    (long iff the estimate exceeds the threshold) - whatever the role and
    whatever the adaptive, role and fallback rules would pick. *)
Theorem choose_backend_sticky_first pol st m est role :
  sticky_wf st →
  (∀ sb, sticky_qualifies pol st m est "0" sb →
         choose_backend pol st m est role = Ok (Some sb))
  ∧ (∀ sb, (¬ ∃ sb0, sticky_qualifies pol st m est "0" sb0) →
           sticky_qualifies pol st m est "1" sb →
           choose_backend pol st m est role = Ok (Some sb)).
Proof.
  intros Hwf. split.
  - intros sb Hq. pose proof Hq as (_ & meta & Hreg & Hm & _).
    apply (choose_backend_sticky _ _ _ _ _ _ meta Hreg Hm).
    apply sticky_scan_hit. exact Hq.
  - intros sb Hnot Hq. pose proof Hq as (_ & meta & Hreg & Hm & Hneed).
    apply (choose_backend_sticky _ _ _ _ _ _ meta Hreg Hm).
    rewrite sticky_scan_miss; try assumption.
    + apply sticky_scan_hit. exact Hq.
    + destruct Hneed as [? | (e & -> & _)]; [left | right; eexists]; eauto.
Qed.

(** C8: with adaptive routing enabled, an estimate given and no sticky
    backend returned, an estimate equal to the threshold selects the
    model's first registered throughput backend and an estimate above the
    threshold its first registered long backend. *)
Theorem choose_backend_adaptive_boundary pol st m n role :
  ADAPTIVE_ROUTING_ENABLED pol = true →
  sticky_scan pol st m (Some (PInt n)) ["0"; "1"] = Ok None →
  (n = ADAPTIVE_ROUTING_THRESHOLD pol →
     ∀ bk, first_registered m "throughput" = Some bk →
           choose_backend pol st m (Some (PInt n)) role = Ok (Some bk))
  ∧ (ADAPTIVE_ROUTING_THRESHOLD pol < n →
     ∀ bk, first_registered m "long" = Some bk →
           choose_backend pol st m (Some (PInt n)) role = Ok (Some bk)).
Proof.
  intros Had Hscan. unfold first_registered.
  split; intros Hn bk Hfirst; unfold choose_backend;
    (destruct (MODEL_BACKENDS_get m) as [|b l] eqn:Hidx;
     [ exfalso;
       pose proof (first_with_model (λ meta, String.eqb (strategy meta) "long") m) as Hl;
       pose proof (first_with_model (λ meta, String.eqb (strategy meta) "throughput") m) as Ht;
       rewrite Hidx in Hl, Ht; cbn [first_with] in Hl, Ht;
       first [ rewrite Hfirst in Hl; discriminate Hl | rewrite Hfirst in Ht; discriminate Ht ]
     | rewrite Hscan, Had; unfold mbind, Exc_bind, exc_bind;
       rewrite needs_long_context_int, <- Hidx ]).
  - subst n. rewrite Z.ltb_irrefl. rewrite first_with_model, Hfirst. reflexivity.
  - apply Z.ltb_lt in Hn. rewrite Hn. rewrite first_with_model, Hfirst. reflexivity.
Qed.

Lemma sticky_state_example_wf : sticky_wf sticky_state_example.
Proof.
  intros g sb H. unfold sticky_state_example in H. cbn [sticky_backend_by_gpu] in H.
  apply lookup_insert_Some in H as [[_ [=]]|[_ H]].
  apply lookup_insert_Some in H as [[<- [= <-]]|[_ H]].
  - eexists. split; reflexivity.
  - rewrite lookup_empty in H. discriminate H.
Qed.

Lemma choose_backend_sticky_first_witness :
  choose_backend default_policy sticky_state_example "llama31-8b-instruct"
    (Some (PInt 100)) (Some "webui")
  = Ok (Some "llama31-8b-instruct@1").
Proof.
  apply (choose_backend_sticky_first default_policy sticky_state_example
           "llama31-8b-instruct" (Some (PInt 100)) (Some "webui")).
  - exact sticky_state_example_wf.
  - intros (sb0 & H & _). vm_compute in H. discriminate H.
  - split; [reflexivity|]. eexists. split; [reflexivity|]. split; [reflexivity|].
    right. eexists. split; reflexivity.
Defined.

Lemma choose_backend_adaptive_boundary_witness :
  choose_backend default_policy initial_state "llama31-8b-instruct" (Some (PInt 4096)) None
  = Ok (Some "llama31-8b-instruct@1")
  ∧ choose_backend default_policy initial_state "llama31-8b-instruct" (Some (PInt 4097)) None
    = Ok (Some "llama31-8b-instruct@0").
Proof.
  split.
  - apply (proj1 (choose_backend_adaptive_boundary default_policy initial_state
                    "llama31-8b-instruct" 4096 None eq_refl eq_refl));
      reflexivity.
  - apply (proj2 (choose_backend_adaptive_boundary default_policy initial_state
                    "llama31-8b-instruct" 4097 None eq_refl eq_refl));
      reflexivity.
Defined.

(** ** Reasoning about effectful code *)

Section MonadLaws.
Context {A B : Type}.

Lemma m_bind_run (m : M A) (f : A → M B) o h :
  m_bind m f o h
  = match m o h with
    | (Ok a, t1) => ((f a o (h ++ t1)).1, t1 ++ (f a o (h ++ t1)).2)
    | (Raise e, t1) => (Raise e, t1)
    end.
Proof.
  unfold m_bind. destruct (m o h) as [[a|e] t1]; [|reflexivity].
  destruct (f a o (h ++ t1)); reflexivity.
Qed.

Lemma Only_bind (T : Event → Prop) (m : M A) (f : A → M B) :
  Only T m → (∀ a, Only T (f a)) → Only T (m_bind m f).
Proof.
  intros Hm Hf o h. rewrite m_bind_run. specialize (Hm o h).
  destruct (m o h) as [[a|e] t1]; simpl in *; [|exact Hm].
  apply Forall_app. split; [exact Hm | apply Hf].
Qed.

Lemma Returns_bind (R : B → Prop) (m : M A) (f : A → M B) :
  (∀ a, Returns R (f a)) → Returns R (m_bind m f).
Proof.
  intros Hf o h b. rewrite m_bind_run.
  destruct (m o h) as [[a|e] t1]; simpl; [apply Hf | discriminate].
Qed.

Lemma Only_ret (T : Event → Prop) (a : A) : Only T (m_ret a).
Proof. intros o h. constructor. Qed.

Lemma Only_lift (T : Event → Prop) (x : Exc A) : Only T (lift x).
Proof. intros o h. constructor. Qed.

Lemma Only_raise (T : Event → Prop) e : Only T (@raise A e).
Proof. intros o h. constructor. Qed.

Lemma Only_ask (T : Event → Prop) (q : Oracle → Trace → A) ev :
  (∀ r, T (ev r)) → Only T (ask q ev).
Proof. intros H o h. repeat constructor. apply H. Qed.

Lemma Only_try (T : Event → Prop) (m : M A) : Only T m → Only T (try_ m).
Proof. intros H o h. unfold try_. specialize (H o h). destruct (m o h). exact H. Qed.

Lemma Only_finally (T : Event → Prop) (m : M A) (f : M unit) :
  Only T m → Only T f → Only T (finally_ m f).
Proof.
  intros Hm Hf o h. unfold finally_. specialize (Hm o h).
  destruct (m o h) as [r t1]. specialize (Hf o (h ++ t1)).
  destruct (f o (h ++ t1)) as [u t2]. simpl in *. apply Forall_app. auto.
Qed.

Lemma Returns_ret (R : A → Prop) (a : A) : R a → Returns R (m_ret a).
Proof. intros H o h a' [= <-]. exact H. Qed.

Lemma Returns_raise (R : A → Prop) e : Returns R (@raise A e).
Proof. intros o h a [=]. Qed.

Lemma Returns_finally (R : A → Prop) (m : M A) (f : M unit) :
  Returns R m → Returns R (finally_ m f).
Proof.
  intros Hm o h a. unfold finally_. specialize (Hm o h a).
  destruct (m o h) as [r t1]. destruct (f o (h ++ t1)). exact Hm.
Qed.
End MonadLaws.

Lemma Only_emit (T : Event → Prop) ev : T ev → Only T (emit ev).
Proof. intros H o h. repeat constructor. exact H. Qed.

Lemma Only_weaken {A} (T T' : Event → Prop) (m : M A) :
  (∀ ev, T ev → T' ev) → Only T m → Only T' m.
Proof. intros H Hm o h. eapply Forall_impl; [apply Hm | exact H]. Qed.

(** Unfold the monadic notations and the primitive calls. *)
Ltac m_unfold :=
  unfold probe_running, with_lock, start_container, container_status,
    engine_call, wait_until_healthy, read_state, sleep, acquire, release, proxy,
    mbind, M_bind, mret, M_ret in *.

Ltac m_unfold_all := unfold stop_container in *; m_unfold.

Create HintDb only discriminated.

(** Walk through a program, leaving the calls to be checked against [T]. *)
Ltac only_walk :=
  m_unfold_all;
  repeat first
    [ assumption
    | solve [auto 1 with only nocore]
    | apply Only_ret | apply Only_lift | apply Only_raise
    | apply Only_emit; reflexivity
    | apply Only_ask; intro; reflexivity
    | apply Only_try | apply Only_finally
    | apply Only_bind; [| intro]
    | match goal with
      | |- Only _ (if ?b then _ else _) => destruct b
      | |- Only _ (match ?x with _ => _ end) => destruct x
      | |- Only _ (let _ := _ in _) => cbv zeta
      end ].

Ltac returns_walk :=
  m_unfold_all;
  repeat first
    [ assumption
    | apply Returns_raise
    | apply Returns_finally
    | apply Returns_bind; intro
    | match goal with
      | |- Returns _ (if ?b then _ else _) => destruct b
      | |- Returns _ (match ?x with _ => _ end) => destruct x
      | |- Returns _ (let _ := _ in _) => cbv zeta
      end ].

(** *** The engine adapter and the controller make no write to the shared
    dictionaries *)

Lemma running_heavy_scan_status g except_bk l :
  Only (λ ev, is_status_event ev = true) (running_heavy_scan g except_bk l).
Proof.
  induction l as [|[bk meta] l IH]; cbn [running_heavy_scan]; only_walk.
Qed.

Lemma running_heavy_scan_quiet g except_bk l :
  Only quiet (running_heavy_scan g except_bk l).
Proof.
  eapply Only_weaken; [|apply running_heavy_scan_status].
  intros [] H; try discriminate H; reflexivity.
Qed.

Lemma stop_embed_rank_loop_quiet pol bks : Only quiet (stop_embed_rank_loop pol bks).
Proof. induction bks as [|bk bks IH]; cbn [stop_embed_rank_loop]; only_walk. Qed.

Lemma start_attempts_quiet pol bk meta role n last_err :
  Only quiet (start_attempts pol bk meta role n last_err).
Proof.
  revert last_err. induction n as [|n IH]; intros last_err; cbn [start_attempts]; only_walk.
  all: apply IH.
Qed.

#[local] Hint Resolve running_heavy_scan_quiet stop_embed_rank_loop_quiet
  start_attempts_quiet : only.

Lemma startup_tail_quiet pol bk meta role : Only quiet (startup_tail pol bk meta role).
Proof. unfold startup_tail, stop_gpu1_embed_rank_best_effort. only_walk. Qed.

#[local] Hint Resolve startup_tail_quiet : only.

Lemma gpu_section_quiet pol bk meta role : Only quiet (gpu_section pol bk meta role).
Proof. unfold gpu_section, on_gpu_busy, running_heavy_backend_on_gpu. only_walk. Qed.

#[local] Hint Resolve gpu_section_quiet : only.

Lemma bring_online_quiet pol bk meta role : Only quiet (bring_online pol bk meta role).
Proof. unfold bring_online. only_walk. Qed.

#[local] Hint Resolve bring_online_quiet : only.

Lemma ensure_online_backend_quiet pol bk role : Only quiet (ensure_online_backend pol bk role).
Proof. unfold ensure_online_backend. only_walk. Qed.

#[local] Hint Resolve ensure_online_backend_quiet : only.

(** ** Lifecycle controller *)

Lemma sum_inflight_list st (l : list (string * Meta)) :
  (∀ kv, In kv l → is_Some (inflight st !! kv.1)) →
  sum_inflight st (map fst l)
  = Ok (fold_right Z.add 0 (map (λ kv, inflight_get st kv.1) l)).
Proof.
  induction l as [|[bk meta] l IH]; intros Hin; [reflexivity|].
  cbn [map fst sum_inflight fold_right].
  destruct (Hin (bk, meta)) as [v Hv]; [left; reflexivity|]. cbn [fst] in Hv.
  unfold inflight_get at 1. cbn [fst]. rewrite Hv, IH.
  - reflexivity.
  - intros kv Hkv. apply Hin. right. exact Hkv.
Qed.

(** The sum the controller computes is the model's total inflight. *)
Lemma sum_inflight_total st m :
  inflight_wf st →
  sum_inflight st (MODEL_BACKENDS_get m) = Ok (model_total_inflight st m).
Proof.
  intros Hwf. rewrite MODEL_BACKENDS_get_filter. apply sum_inflight_list.
  intros kv Hin. apply List.filter_In in Hin as [Hin _].
  apply (Hwf kv.1 kv.2). apply registry_keys_unique. exact Hin.
Qed.

(** Run a program on the answers known so far. *)
Ltac m_eval :=
  repeat (progress (m_unfold;
    cbv beta iota zeta delta
      [m_bind m_ret lift raise try_ finally_ emit ask fst snd
       Exc_bind Exc_ret exc_bind exists_ running negb andb orb];
    cbn [app])).

Ltac not_429_leaves :=
  try (apply Returns_ret; intros e He;
       repeat match type of He with
              | context [if ?b then _ else _] => destruct b
              end;
       try discriminate He; injection He as <-; discriminate).

Lemma start_attempts_not_429 pol bk meta role n last_err :
  Returns not_429 (start_attempts pol bk meta role n last_err).
Proof.
  revert last_err. induction n as [|n IH]; intros last_err; cbn [start_attempts];
    returns_walk; not_429_leaves.
  all: apply IH.
Qed.

Lemma startup_tail_not_429 pol bk meta role :
  Returns not_429 (startup_tail pol bk meta role).
Proof.
  unfold startup_tail. returns_walk; apply start_attempts_not_429.
Qed.

Lemma gpu_section_not_429 pol bk meta role :
  Returns not_429 (gpu_section pol bk meta role).
Proof.
  pose proof (startup_tail_not_429 pol bk meta role).
  unfold gpu_section, on_gpu_busy. returns_walk; not_429_leaves.
Qed.

Lemma bring_online_not_429 pol bk meta role :
  Returns not_429 (bring_online pol bk meta role).
Proof.
  pose proof (gpu_section_not_429 pol bk meta role).
  unfold bring_online. returns_walk; not_429_leaves.
Qed.

(** C3: the controller answers rate_limited (429) exactly when the total
    inflight of the backend's model, as read at the start of the
    invocation, has reached the model's cap; the read is the first thing
    the invocation does, and a rate-limited invocation does nothing else:
    no engine call, no probe, no lock. *)
Theorem ensure_online_backend_cap pol o bk meta role r tr :
  assoc_get bk BACKENDS = Some meta →
  inflight_wf (o_state o []) →
  run (ensure_online_backend pol bk role) o = (r, tr) →
  (is_rate_limited r
   ↔ model_cap pol (model meta) <= model_total_inflight (o_state o []) (model meta))
  ∧ (∃ rest, tr = EvReadState (o_state o []) :: rest)
  ∧ (is_rate_limited r → tr = [EvReadState (o_state o [])]).
Proof.
  intros Hreg Hwf. unfold run, ensure_online_backend, model_cap.
  rewrite (BACKENDS_at_registered _ _ Hreg). m_eval.
  rewrite (sum_inflight_total _ _ Hwf). m_eval.
  destruct (Z.leb_spec (default 1 (assoc_get (model meta) (CAPS pol)))
              (model_total_inflight (o_state o []) (model meta))) as [Hcap|Hcap].
  - intros [= <- <-]. repeat split; eauto.
    eexists. repeat split.
  - destruct (bring_online pol bk meta role o [EvReadState (o_state o [])])
      as [r' t2] eqn:Hrun.
    intros [= <- <-].
    assert (Hno : ¬ is_rate_limited r').
    { intros (e & -> & Hcode & _).
      refine (bring_online_not_429 pol bk meta role o [EvReadState (o_state o [])]
                (Some e) _ e eq_refl Hcode).
      rewrite Hrun. reflexivity. }
    repeat split; eauto; try tauto. lia.
Qed.

Lemma initial_state_inflight_wf : inflight_wf initial_state.
Proof. intros bk meta H. registry_cases H; eexists; reflexivity. Qed.

Lemma ensure_online_backend_cap_witness :
  ∃ rest,
    (run (ensure_online_backend default_policy "bge-m3@1" "webui") oracle_cold).2
    = EvReadState initial_state :: rest.
Proof.
  destruct (run (ensure_online_backend default_policy "bge-m3@1" "webui") oracle_cold)
    as [r tr] eqn:Hrun.
  exact (proj1 (proj2 (ensure_online_backend_cap default_policy oracle_cold "bge-m3@1"
                         _ "webui" r tr eq_refl initial_state_inflight_wf Hrun))).
Defined.

(** C10: when the first state check reports the container running, the
    invocation is decided by health probing alone: it grants admission iff
    the probe succeeds (unhealthy otherwise), and all it does is read the
    inflight counts, query its own container once and probe - no lock is
    taken, no other container is looked at, nothing is started or stopped,
    whatever else runs on the GPU. *)
Theorem ensure_online_backend_fast_path pol o bk meta role :
  assoc_get bk BACKENDS = Some meta →
  let st := o_state o [] in
  let name := container meta in
  inflight_wf st →
  model_total_inflight st (model meta) < model_cap pol (model meta) →
  o_status o [EvReadState st] name = IState true →
  let ok := o_healthy o [EvReadState st; EvStatus name (IState true)] bk
              (HEALTH_PROBE_TIMEOUT_S pol) in
  let tr := [EvReadState st; EvStatus name (IState true);
             EvWaitHealthy bk (HEALTH_PROBE_TIMEOUT_S pol) ok] in
  run (ensure_online_backend pol bk role) o
  = (Ok (if ok then None else Some (unhealthy_error (model meta))), tr)
  ∧ Forall (λ ev, is_lock_event ev = false ∧ is_start_event ev = false
                  ∧ is_stop_event ev = false) tr.
Proof.
  intros Hreg st name Hwf Hcap Hrun ok tr. subst st name ok tr. split.
  - unfold run, ensure_online_backend.
    rewrite (BACKENDS_at_registered _ _ Hreg). m_eval.
    rewrite (sum_inflight_total _ _ Hwf). m_eval.
    unfold model_cap in Hcap. apply Z.leb_gt in Hcap. rewrite Hcap.
    unfold bring_online. m_eval. rewrite Hrun. m_eval. reflexivity.
  - repeat constructor.
Qed.

Lemma ensure_online_backend_fast_path_witness :
  run (ensure_online_backend default_policy "bge-m3@1" "n8n") oracle_warm
  = (Ok None,
     [EvReadState initial_state; EvStatus "bge_embed_1" (IState true);
      EvWaitHealthy "bge-m3@1" 15 true]).
Proof.
  apply (ensure_online_backend_fast_path default_policy oracle_warm "bge-m3@1" _ "n8n"
           eq_refl initial_state_inflight_wf).
  - vm_compute. reflexivity.
  - reflexivity.
Defined.

Lemma running_heavy_scan_found g except_bk l :
  Returns (λ r, ∀ b, r = Some b → ∃ meta, In (b, meta) l)
          (running_heavy_scan g except_bk l).
Proof.
  induction l as [|[bk meta] l IH]; cbn [running_heavy_scan].
  - apply Returns_ret. intros b [=].
  - assert (Hrest : Returns (λ r, ∀ b, r = Some b → ∃ meta0, In (b, meta0) ((bk, meta) :: l))
                      (running_heavy_scan g except_bk l)).
    { intros o h a Ha b Hb. destruct (IH o h a Ha b Hb) as [m Hm].
      exists m. right. exact Hm. }
    returns_walk.
    apply Returns_ret. intros b [= <-]. exists meta. left. reflexivity.
Qed.

Lemma stop_container_attempted pol name timeout o h :
  stop_attempted name (stop_container pol name timeout o h).2.
Proof.
  unfold stop_container. m_eval.
  destruct (o_get o h name); m_eval; [eexists; left; reflexivity|].
  destruct (o_stop o _ name _); m_eval; [|eexists; left; reflexivity].
  destruct (o_kill o _ name); m_eval; eexists; left; reflexivity.
Qed.


(** *** The code against the steps of the design document *)

Lemma stop_container_spec pol c o h :
  stop_container pol c None o h
  = (match o_get o h c with
     | Some text => Raise (DockerError text)
     | None => Ok tt
     end, spec_stop pol o h c).
Proof.
  unfold stop_container, spec_stop. cbn [default from_option id]. m_eval. rewrite ?app_nil_r.
  destruct (o_get o h c) as [text|]; m_eval; [reflexivity|].
  destruct (o_stop o _ c _) as [text|]; m_eval; [|reflexivity].
  rewrite <- ?app_assoc. cbn [app].
  destruct (o_kill o _ c); reflexivity.
Qed.

Lemma spec_scan_status o h cands :
  Forall (λ ev, is_stop_event ev = false) (spec_scan o h cands).1.
Proof.
  revert h. induction cands as [|[b m] cands IH]; intros h; cbn [spec_scan]; [constructor|].
  cbv zeta. specialize (IH (h ++ [EvStatus (container m) (o_status o h (container m))])).
  destruct (o_status o h (container m)) as [|[|]|text] eqn:Hst.
  - destruct (spec_scan o _ cands) as [t found]. constructor; [reflexivity | exact IH].
  - repeat constructor.
  - destruct (spec_scan o _ cands) as [t found]. constructor; [reflexivity | exact IH].
  - repeat constructor.
Qed.

(** What the scan finds is another chat backend of the GPU, reported
    running by the engine. *)
Lemma spec_scan_found o h bk meta scan busy_bk busy_meta :
  spec_scan o h (other_chat_on_gpu bk meta) = (scan, Some (busy_bk, busy_meta)) →
  assoc_get busy_bk BACKENDS = Some busy_meta
  ∧ busy_bk ≠ bk ∧ gpu busy_meta = gpu meta ∧ kind busy_meta = "chat"
  ∧ In (EvStatus (container busy_meta) (IState true)) scan.
Proof.
  assert (Hgen : ∀ cands h scan,
            spec_scan o h cands = (scan, Some (busy_bk, busy_meta)) →
            In (busy_bk, busy_meta) cands
            ∧ In (EvStatus (container busy_meta) (IState true)) scan).
  { induction cands as [|[b m] cands IH]; intros h0 scan0; cbn [spec_scan]; [discriminate|].
    cbv zeta. specialize (IH (h0 ++ [EvStatus (container m) (o_status o h0 (container m))])).
    destruct (o_status o h0 (container m)) as [|[|]|text] eqn:Hst; rewrite ?Hst in *.
    - destruct (spec_scan o _ cands) as [t found]. intros [= <- ->].
      destruct (IH t eq_refl) as [Hin Hev]. split; right; assumption.
    - intros [= <- <- <-]. split; left; reflexivity.
    - destruct (spec_scan o _ cands) as [t found]. intros [= <- ->].
      destruct (IH t eq_refl) as [Hin Hev]. split; right; assumption.
    - discriminate. }
  intros Hscan. destruct (Hgen _ _ _ Hscan) as [Hin Hev].
  apply List.filter_In in Hin as [Hin Hp]. cbn [fst snd] in Hp.
  apply andb_prop in Hp as [Hp Hne]. apply andb_prop in Hp as [Hg Hk].
  repeat split.
  - exact (registry_keys_unique _ Hin).
  - apply negb_true_iff in Hne. apply String.eqb_neq. exact Hne.
  - apply String.eqb_eq. exact Hg.
  - apply String.eqb_eq. exact Hk.
  - exact Hev.
Qed.

(** The loop of lines 181-191 asks the engine about the other chat backends
    of the GPU, in registry order. *)
Lemma running_heavy_scan_spec g bk l o h scan found :
  truthy (Some bk) = true →
  spec_scan o h (List.filter (λ kv, String.eqb (gpu kv.2) g && String.eqb (kind kv.2) "chat"
                                    && negb (String.eqb kv.1 bk)) l)
  = (scan, Some found) →
  running_heavy_scan g (Some bk) l o h = (Ok (Some found.1), scan).
Proof.
  intros Htruthy. revert h scan.
  induction l as [|[b m] l IH]; intros h scan; cbn [List.filter running_heavy_scan spec_scan];
    [discriminate|].
  cbn [fst snd]. rewrite Htruthy. cbn [andb].
  destruct (String.eqb (gpu m) g); cbn [negb andb]; [|apply IH].
  destruct (String.eqb_spec b bk) as [->|Hne].
  { rewrite bool_decide_eq_true_2 by reflexivity. rewrite andb_false_r. apply IH. }
  rewrite bool_decide_eq_false_2 by congruence.
  destruct (String.eqb (kind m) "chat"); cbn [negb andb]; [|apply IH].
  cbn [spec_scan]. cbv zeta. m_eval. rewrite ?app_nil_r.
  destruct (o_status o h (container m)) as [|[|]|text] eqn:Hst; m_eval.
  - destruct (spec_scan o _ _) as [t x] eqn:Hrest. intros [= <- ->].
    rewrite (IH _ _ Hrest). reflexivity.
  - intros [= <- <-]. reflexivity.
  - destruct (spec_scan o _ _) as [t x] eqn:Hrest. intros [= <- ->].
    rewrite (IH _ _ Hrest). reflexivity.
  - discriminate.
Qed.

Lemma stop_embed_rank_loop_step pol b m rest o h :
  BACKENDS_at b = Ok m →
  stop_embed_rank_loop pol (b :: rest) o h
  = let c := container m in
    let r := o_status o h c in
    match r with
    | IError text => (Raise (DockerError text), [EvStatus c r])
    | _ =>
        let stop := if reports_running r then spec_stop pol o (h ++ [EvStatus c r]) c
                    else [] in
        let next := stop_embed_rank_loop pol rest o (h ++ EvStatus c r :: stop) in
        (next.1, EvStatus c r :: stop ++ next.2)
    end.
Proof.
  intros Hb. cbn [stop_embed_rank_loop]. rewrite Hb. cbv zeta. m_eval. rewrite ?app_nil_r.
  destruct (o_status o h (container m)) as [|[|]|text]; m_eval; cbn [reports_running];
    rewrite ?app_nil_r, <- ?app_assoc; cbn [app]; try reflexivity.
  - destruct (stop_embed_rank_loop pol rest o _). reflexivity.
  - pose proof (stop_container_spec pol (container m) o
                  (h ++ [EvStatus (container m) (IState true)])) as Hstop.
    destruct (stop_container pol (container m) None o _) as [x stop].
    injection Hstop as _ <-. m_eval. rewrite ?app_nil_r, <- ?app_assoc. cbn [app].
    destruct (stop_embed_rank_loop pol rest o _). reflexivity.
  - destruct (stop_embed_rank_loop pol rest o _). reflexivity.
Qed.

Lemma stop_embed_rank_loop_spec pol o h :
  stop_embed_rank_loop pol ["bge-m3@1"; "bge-reranker@1"] o h
  = spec_displace pol o h embed_rank_containers.
Proof.
  change embed_rank_containers with ["bge_embed_1"; "bge_reranker_1"].
  rewrite (stop_embed_rank_loop_step pol "bge-m3@1"
             (mk "bge-m3" "embeddings" "1" "throughput" "http://bge_embed_1:8000/v1"
                 "bge_embed_1")) by reflexivity.
  cbn [spec_displace container mk]. cbv zeta.
  destruct (o_status o h "bge_embed_1") as [|b1|text]; [| |reflexivity].
  all: rewrite (stop_embed_rank_loop_step pol "bge-reranker@1"
                  (mk "bge-reranker" "rerank" "1" "throughput"
                      "http://bge_reranker_1:8000/v1" "bge_reranker_1")) by reflexivity;
    cbn [container mk]; cbv zeta;
    destruct (o_status o _ "bge_reranker_1") as [|b2|text]; reflexivity.
Qed.

Lemma start_attempts_spec pol bk meta role n last_err o h :
  start_attempts pol bk meta role n last_err o h
  = spec_start_loop pol o h bk meta role n last_err.
Proof.
  revert last_err h. induction n as [|n IH]; intros last_err h; [reflexivity|].
  cbn [start_attempts spec_start_loop]. cbv zeta. fold (warmup_timeout_for_role pol role).
  m_eval. rewrite ?app_nil_r.
  destruct (o_start o h (container meta)) as [text|]; m_eval.
  - rewrite <- ?app_assoc. cbn [app format_exc]. rewrite IH.
    destruct (spec_start_loop pol o _ bk meta role n (Some text)). reflexivity.
  - destruct (o_healthy o _ bk _); m_eval; [reflexivity|].
    rewrite <- ?app_assoc. cbn [app].
    pose proof (stop_container_spec pol (container meta) o
                  (h ++ [EvStart (container meta) None;
                         EvWaitHealthy bk (warmup_timeout_for_role pol role) false])) as Hstop.
    destruct (stop_container pol (container meta) None o _) as [x stop].
    injection Hstop as _ <-. m_eval. rewrite <- ?app_assoc. cbn [app]. rewrite IH.
    destruct (spec_start_loop pol o _ bk meta role n last_err). reflexivity.
Qed.

(** Lines 381-409 for a chat backend. *)
Lemma startup_tail_spec pol bk meta role o h :
  assoc_get bk BACKENDS = Some meta →
  kind meta = "chat" →
  startup_tail pol bk meta role o h = spec_startup pol o h bk meta role.
Proof.
  intros Hreg Hkind.
  assert (Hgen : str_in (model meta) GPU1_GENERATORS = true)
    by (registry_cases Hreg; try reflexivity; discriminate Hkind).
  unfold startup_tail, spec_startup. rewrite Hgen, andb_true_r.
  destruct (STOP_EMBED_RANK_BEFORE_GPU1_GENERATOR pol && String.eqb (gpu meta) "1").
  - unfold stop_gpu1_embed_rank_best_effort.
    pose proof (stop_embed_rank_loop_spec pol o h) as Hloop. m_eval.
    destruct (stop_embed_rank_loop pol _ o h) as [x t]. rewrite <- Hloop.
    destruct x as [[]|e]; m_eval; [|reflexivity].
    rewrite <- ?app_assoc. cbn [app]. rewrite start_attempts_spec.
    destruct (spec_start_loop pol o _ bk meta role _ None). rewrite <- ?app_assoc. reflexivity.
  - m_eval. rewrite ?app_nil_r. rewrite start_attempts_spec.
    destruct (spec_start_loop pol o _ bk meta role _ None). reflexivity.
Qed.

Lemma ensure_online_backend_start_path pol o bk meta role r2 :
  assoc_get bk BACKENDS = Some meta →
  let st := o_state o [] in
  let name := container meta in
  inflight_wf st →
  model_total_inflight st (model meta) < model_cap pol (model meta) →
  o_status o [EvReadState st] name = IState false →
  o_status o [EvReadState st; EvStatus name (IState false); EvAcquire (backend_lock bk)] name
  = r2 →
  r2 = IState false ∨ r2 = INotFound →
  let h := start_path_history st bk meta r2 in
  run (ensure_online_backend pol bk role) o
  = ((gpu_section pol bk meta role o h).1,
     h ++ (gpu_section pol bk meta role o h).2
       ++ [EvRelease (gpu_lock (gpu meta)); EvRelease (backend_lock bk)]).
Proof.
  intros Hreg st name Hwf Hcap Hst1 Hst2 Hr2 h. subst st name h.
  unfold start_path_history, run, ensure_online_backend.
  rewrite (BACKENDS_at_registered _ _ Hreg). m_eval.
  rewrite (sum_inflight_total _ _ Hwf). m_eval.
  unfold model_cap in Hcap. apply Z.leb_gt in Hcap. rewrite Hcap.
  unfold bring_online. m_eval. rewrite Hst1. m_eval. rewrite Hst2.
  destruct Hr2 as [-> | ->]; m_eval;
    destruct (gpu_section pol bk meta role o _) as [r t];
    cbn [fst snd app]; rewrite <- ?app_assoc; reflexivity.
Qed.

Lemma gpu_section_busy pol o h bk meta role busy_bk busy_meta scan :
  assoc_get bk BACKENDS = Some meta →
  kind meta = "chat" →
  ONE_HEAVY_PER_GPU pol = true →
  assoc_get busy_bk BACKENDS = Some busy_meta →
  running_heavy_backend_on_gpu (gpu meta) (Some bk) o h = (Ok (Some busy_bk), scan) →
  gpu_section pol bk meta role o h
  = ((on_gpu_busy pol bk meta role busy_bk o (h ++ scan)).1,
     scan ++ (on_gpu_busy pol bk meta role busy_bk o (h ++ scan)).2).
Proof.
  intros Hreg Hkind Hone Hbusy Hscan.
  unfold gpu_section. rewrite Hone. unfold is_heavy_backend.
  rewrite (BACKENDS_at_registered _ _ Hreg). m_eval.
  rewrite Hkind, String.eqb_refl. m_eval. rewrite ?app_nil_r.
  rewrite Hscan. m_eval.
  rewrite (registered_truthy _ _ Hbusy).
  destruct (on_gpu_busy pol bk meta role busy_bk o (h ++ scan)) as [r t].
  reflexivity.
Qed.

Lemma on_gpu_busy_run pol o h bk meta role busy_bk busy_meta :
  assoc_get busy_bk BACKENDS = Some busy_meta →
  on_gpu_busy pol bk meta role busy_bk o h
  = if String.eqb role "webui" && WEBUI_FAIL_FAST_IF_GPU_BUSY pol then
      (Ok (Some (gpu_busy_webui_error (gpu meta) (model busy_meta))), [])
    else if String.eqb role "n8n" && String.eqb (gpu meta) "1"
            && N8N_ALLOW_PREEMPT_GPU1 pol then
      let stop := (stop_container pol (container busy_meta) None o h).2 in
      let h' := h ++ stop ++ [EvSleep 3] in
      ((startup_tail pol bk meta role o h').1,
       stop ++ [EvSleep 3] ++ (startup_tail pol bk meta role o h').2)
    else (Ok (Some (gpu_busy_error (gpu meta) (model busy_meta))), []).
Proof.
  intros Hbusy. unfold on_gpu_busy.
  rewrite (BACKENDS_at_registered _ _ Hbusy).
  destruct (String.eqb role "webui" && WEBUI_FAIL_FAST_IF_GPU_BUSY pol);
    [| destruct (String.eqb role "n8n" && String.eqb (gpu meta) "1"
                 && N8N_ALLOW_PREEMPT_GPU1 pol) ]; m_eval; rewrite ?app_nil_r;
    try reflexivity.
  destruct (stop_container pol (container busy_meta) None o h) as [x stop].
  m_eval. rewrite <- ?app_assoc.
  destruct (startup_tail pol bk meta role o _) as [r' rest].
  cbn [app]. reflexivity.
Qed.

Ltac forall_split :=
  repeat match goal with
         | |- Forall _ (_ ++ _) => apply Forall_app; split
         | |- Forall _ (_ :: _) => constructor; [reflexivity|]
         | |- Forall _ [] => constructor
         | |- Forall _ _ => assumption
         end.

(** C1: an invocation for a chat backend that has passed the cap check,
    found its container present and stopped at the first state check and
    not running at the second, and taken both locks, with the one-heavy
    rule on, while the engine, asked about the other chat backends of the
    GPU in registry order, reports [busy_bk] running.  Interactive caller
    with fail-fast on: gpu_busy, the locks are released, no stop is issued.
    Otherwise automation caller on GPU 1 with preemption on: a best-effort
    stop of the incumbent's container is made - the container is looked
    up; if the lookup returns, a graceful stop with the configured timeout
    is issued, and a kill if that stop raises; every failure is swallowed -
    then three seconds pass and the startup continues - displacement of the
    embedding and rerank containers, then the start loop - and decides the
    result.  Every other case: gpu_busy, no stop is issued. *)
Theorem ensure_online_backend_one_heavy pol o bk meta role r2 busy_bk busy_meta scan :
  assoc_get bk BACKENDS = Some meta →
  kind meta = "chat" →
  ONE_HEAVY_PER_GPU pol = true →
  let st := o_state o [] in
  let name := container meta in
  inflight_wf st →
  model_total_inflight st (model meta) < model_cap pol (model meta) →
  o_status o [EvReadState st] name = IState false →
  o_status o [EvReadState st; EvStatus name (IState false); EvAcquire (backend_lock bk)] name
  = r2 →
  r2 = IState false ∨ r2 = INotFound →
  let h := start_path_history st bk meta r2 in
  spec_scan o h (other_chat_on_gpu bk meta) = (scan, Some (busy_bk, busy_meta)) →
  let unlock := [EvRelease (gpu_lock (gpu meta)); EvRelease (backend_lock bk)] in
  ∀ r tr, run (ensure_online_backend pol bk role) o = (r, tr) →
    if String.eqb role "webui" && WEBUI_FAIL_FAST_IF_GPU_BUSY pol then
      is_gpu_busy r ∧ tr = h ++ scan ++ unlock
      ∧ Forall (λ ev, is_stop_event ev = false) tr
    else if String.eqb role "n8n" && String.eqb (gpu meta) "1"
            && N8N_ALLOW_PREEMPT_GPU1 pol then
      let stop := spec_stop pol o (h ++ scan) (container busy_meta) in
      let h' := h ++ scan ++ stop ++ [EvSleep 3] in
      r = (spec_startup pol o h' bk meta role).1
      ∧ tr = h' ++ (spec_startup pol o h' bk meta role).2 ++ unlock
    else
      is_gpu_busy r ∧ tr = h ++ scan ++ unlock
      ∧ Forall (λ ev, is_stop_event ev = false) tr.
Proof.
  intros Hreg Hkind Hone st name Hwf Hcap Hst1 Hst2 Hr2 h Hscan unlock.
  subst st name h unlock.
  destruct (spec_scan_found _ _ _ _ _ _ _ Hscan) as (Hbusy & _).
  pose proof (spec_scan_status o (start_path_history (o_state o []) bk meta r2)
                (other_chat_on_gpu bk meta)) as Hquietscan.
  rewrite Hscan in Hquietscan. cbn [fst] in Hquietscan.
  assert (Hquieth : Forall (λ ev, is_stop_event ev = false)
                      (start_path_history (o_state o []) bk meta r2))
    by (unfold start_path_history; repeat constructor).
  assert (Hcode : running_heavy_backend_on_gpu (gpu meta) (Some bk) o
                    (start_path_history (o_state o []) bk meta r2)
                  = (Ok (Some busy_bk), scan)).
  { unfold running_heavy_backend_on_gpu.
    exact (running_heavy_scan_spec _ _ _ _ _ _ (busy_bk, busy_meta)
             (registered_truthy _ _ Hreg) Hscan). }
  intros r tr.
  rewrite (ensure_online_backend_start_path pol o bk meta role r2 Hreg Hwf Hcap Hst1 Hst2 Hr2).
  rewrite (gpu_section_busy pol o _ bk meta role busy_bk busy_meta scan
             Hreg Hkind Hone Hbusy Hcode).
  rewrite (on_gpu_busy_run pol o _ bk meta role busy_bk busy_meta Hbusy).
  destruct (String.eqb role "webui" && WEBUI_FAIL_FAST_IF_GPU_BUSY pol);
    [| destruct (String.eqb role "n8n" && String.eqb (gpu meta) "1"
                 && N8N_ALLOW_PREEMPT_GPU1 pol) ];
    cbn [fst snd]; intros [= <- <-].
  - rewrite app_nil_r. split; [eexists; repeat split | split; [reflexivity|]].
    forall_split.
  - rewrite stop_container_spec. cbn [snd].
    rewrite (startup_tail_spec _ _ _ _ _ _ Hreg Hkind).
    split; rewrite <- ?app_assoc; reflexivity.
  - rewrite app_nil_r. split; [eexists; repeat split | split; [reflexivity|]].
    forall_split.
Qed.

Lemma ensure_online_backend_one_heavy_witness :
  let outcome := run (ensure_online_backend default_policy "deepseek-r1-8b@1" "n8n")
                     oracle_busy in
  outcome.1 = Ok None
  ∧ In (EvStop "llama_1" 45 None) outcome.2
  ∧ In (EvStart "r1_1" None) outcome.2.
Proof.
  cbv zeta.
  destruct (run (ensure_online_backend default_policy "deepseek-r1-8b@1" "n8n") oracle_busy)
    as [r tr] eqn:Hrun.
  pose proof (ensure_online_backend_one_heavy default_policy oracle_busy
                "deepseek-r1-8b@1" _ "n8n" (IState false) "llama31-8b-instruct@1" _
                [EvStatus "llama_1" (IState true)]
                eq_refl eq_refl eq_refl initial_state_inflight_wf eq_refl eq_refl eq_refl
                (or_introl eq_refl) eq_refl r tr Hrun) as H.
  cbn [String.eqb Ascii.eqb Bool.eqb andb gpu mk N8N_ALLOW_PREEMPT_GPU1 default_policy] in H.
  destruct H as [-> ->]. cbn [fst snd]. split; [reflexivity|]. split.
  - vm_compute. do 7 right. left. reflexivity.
  - vm_compute. do 12 right. left. reflexivity.
Defined.

(** C1, the claim as stated.  The llama backend of GPU 1 runs and an
    automation request brings the deepseek backend of GPU 1 online, with
    the default settings; the engine fails the lookup of the incumbent's
    container.  The failure is swallowed: no stop and no kill is issued,
    the deepseek container is started beside the incumbent, and admission
    is granted. *)
Lemma ensure_online_backend_one_heavy_counterexample :
  let outcome := run (ensure_online_backend default_policy "deepseek-r1-8b@1" "n8n")
                     oracle_busy_lookup_fails in
  In (EvStatus "llama_1" (IState true)) outcome.2
  ∧ In (EvGet "llama_1" (Some "docker.errors.APIError: 500 Server Error")) outcome.2
  ∧ forallb (λ ev, match ev with
                   | EvStop _ _ _ | EvKill _ _ => false
                   | _ => true
                   end) outcome.2 = true
  ∧ In (EvStart "r1_1" None) outcome.2
  ∧ outcome.1 = Ok None.
Proof.
  cbv zeta. split; [|split; [|split; [|split]]].
  - vm_compute. do 5 right. left. reflexivity.
  - vm_compute. do 6 right. left. reflexivity.
  - vm_compute. reflexivity.
  - vm_compute. do 11 right. left. reflexivity.
  - vm_compute. reflexivity.
Qed.

(** ** Admission front-end *)

(** The typed errors the controller builds from the registry are told
    apart correctly by the test of line 455: only gpu_busy errors pass. *)
Lemma looks_gpu_busy_typed bk meta busy_bk busy_meta :
  assoc_get bk BACKENDS = Some meta →
  assoc_get busy_bk BACKENDS = Some busy_meta →
  looks_gpu_busy (unhealthy_error (model meta)) = false
  ∧ looks_gpu_busy (container_missing_error meta) = false
  ∧ (∀ n cap, looks_gpu_busy (rate_limited_error (model meta) n cap) = false)
  ∧ looks_gpu_busy (gpu_busy_error (gpu meta) (model busy_meta)) = true
  ∧ looks_gpu_busy (gpu_busy_webui_error (gpu meta) (model busy_meta)) = true.
Proof.
  intros Hreg Hbusy.
  assert (Hm : looks_gpu_busy (unhealthy_error (model meta)) = false
               ∧ looks_gpu_busy (container_missing_error meta) = false)
    by (clear Hbusy; registry_cases Hreg; split; vm_compute; reflexivity).
  assert (Hg : gpu meta = "0" ∨ gpu meta = "1")
    by (clear Hbusy Hm; registry_cases Hreg; auto).
  destruct Hm as [Hm1 Hm2]. repeat split; try assumption.
  - clear Hreg Hm1 Hm2. destruct Hg as [-> | ->];
      registry_cases Hbusy; vm_compute; reflexivity.
  - clear Hreg Hm1 Hm2. destruct Hg as [-> | ->];
      registry_cases Hbusy; vm_compute; reflexivity.
Qed.

(** The loop of the front-end, one candidate at a time: admission grants
    the candidate; an error that passes the test of line 455 moves on to
    the candidates left; any other error is returned as it is and ends the
    loop. *)
Lemma try_candidates_cons pol m role bk rest o h :
  try_candidates pol m role (bk :: rest) o h
  = match ensure_online_backend pol bk role o h with
    | (Ok None, t) => (Ok (Some bk, None), t)
    | (Ok (Some e), t) =>
        if looks_gpu_busy e
        then ((try_candidates pol m role rest o (h ++ t)).1,
              t ++ (try_candidates pol m role rest o (h ++ t)).2)
        else (Ok (None, Some e), t)
    | (Raise x, t) => (Raise x, t)
    end.
Proof.
  cbn [try_candidates]. m_eval.
  destruct (ensure_online_backend pol bk role o h) as [[[e|]|x] t]; m_eval;
    rewrite ?app_nil_r; try reflexivity.
  destruct (looks_gpu_busy e); m_eval; rewrite ?app_nil_r; [|reflexivity].
  destruct (try_candidates pol m role rest o (h ++ t)). reflexivity.
Qed.

(** C2 at the failing input: every container is stopped and every start of
    a container raises with a diagnostic that contains the text gpu_busy.
    The first candidate fails with start_failed, yet line 455 takes the
    error for gpu_busy: the front-end goes on to the second candidate
    (it starts llama_0) and answers gpu_busy instead of start_failed. *)
Theorem ensure_and_get_backend_start_failed_retried :
  let o := oracle_start_raises in
  let first :=
    (ensure_online_backend default_policy "llama31-8b-instruct@1" "n8n" o
       [EvReadState initial_state]).1 in
  let outcome := run (ensure_and_get_backend default_policy "llama31-8b-instruct" "n8n" None) o in
  choose_backend default_policy initial_state "llama31-8b-instruct" None (Some "n8n")
  = Ok (Some "llama31-8b-instruct@1")
  ∧ first = Ok (Some (start_failed_error default_policy (Some start_diagnostic)))
  ∧ err_type (start_failed_error default_policy (Some start_diagnostic)) = "start_failed"
  ∧ looks_gpu_busy (start_failed_error default_policy (Some start_diagnostic)) = true
  ∧ outcome.1
    = Ok (None, Some (json_error 503 "No available backend for 'llama31-8b-instruct'."
                        "gpu_busy"))
  ∧ start_raised "llama_0" outcome.2 = true.
Proof.
  cbv zeta. repeat split; vm_compute; reflexivity.
Qed.

(** ** TTL sweeper *)

Lemma Qlt_bool_iff a b : Qlt_bool a b = true ↔ (a < b)%Q.
Proof.
  unfold Qlt_bool. rewrite negb_true_iff, <- not_true_iff_false, Qle_bool_iff.
  split; [apply Qnot_le_lt | apply Qlt_not_le].
Qed.

Lemma Qlt_bool_false a b : Qlt_bool a b = false ↔ (b <= a)%Q.
Proof.
  unfold Qlt_bool. rewrite negb_false_iff, Qle_bool_iff. reflexivity.
Qed.

Lemma stop_container_events pol name timeout o h :
  Forall (λ ev, event_container ev = Some name ∧ is_stop_event ev = true)
         (stop_container pol name timeout o h).2.
Proof.
  unfold stop_container. m_eval.
  destruct (o_get o h name); m_eval; [repeat constructor|].
  destruct (o_stop o _ name _); m_eval; [|repeat constructor].
  destruct (o_kill o _ name); m_eval; repeat constructor.
Qed.

(** What one round of the sweeper's loop adds after the status query. *)
Lemma sweep_step pol st now bk meta rest o h r :
  assoc_get bk BACKENDS = Some meta →
  o_status o h (container meta) = r →
  (∀ text, r ≠ IError text) →
  let c := container meta in
  let stop :=
    if reports_running r && sweep_decides pol st now bk meta
    then (stop_container pol c None o (h ++ [EvStatus c r])).2
    else [] in
  sweep pol st now ((bk, meta) :: rest) o h
  = ((sweep pol st now rest o (h ++ EvStatus c r :: stop)).1,
     EvStatus c r :: stop ++ (sweep pol st now rest o (h ++ EvStatus c r :: stop)).2).
Proof.
  intros Hreg Hst Hok. cbn [sweep]. unfold sweep_decides, ttl_for_backend.
  rewrite (BACKENDS_at_registered _ _ Hreg). m_eval. rewrite Hst.
  destruct r as [|[|]|text]; [| | |destruct (Hok text eq_refl)]; m_eval;
    rewrite ?app_nil_r; try reflexivity;
    try (destruct (sweep pol st now rest o _); reflexivity).
  cbn [reports_running].
  repeat (match goal with
          | |- context [if ?b then _ else _] => destruct b
          end; m_eval; rewrite ?app_nil_r);
    try (destruct (sweep pol st now rest o _); reflexivity).
  all: destruct (stop_container pol (container meta) None o _) as [x stop];
    m_eval; rewrite ?app_nil_r, <- ?app_assoc; cbn [app];
    destruct (sweep pol st now rest o _); reflexivity.
Qed.

Lemma sweep_step_error pol st now bk meta rest o h text :
  o_status o h (container meta) = IError text →
  sweep pol st now ((bk, meta) :: rest) o h
  = (Raise (DockerError text), [EvStatus (container meta) (IError text)]).
Proof. intros Hst. cbn [sweep]. m_eval. rewrite Hst. reflexivity. Qed.

Lemma not_error_cases (r : Inspect) :
  (∃ text, r = IError text) ∨ (∀ text, r ≠ IError text).
Proof. destruct r; [right | right | left; eauto]; intros text [=]. Qed.

Lemma sweep_containers pol st now l o h :
  (∀ kv, In kv l → assoc_get kv.1 BACKENDS = Some kv.2) →
  Forall (λ ev, ∃ kv, In kv l ∧ event_container ev = Some (container kv.2))
         (sweep pol st now l o h).2.
Proof.
  revert h. induction l as [|[bk meta] l IH]; intros h Hreg; [constructor|].
  assert (Hhead : ∀ r, ∃ kv, In kv ((bk, meta) :: l)
                   ∧ event_container (EvStatus (container meta) r) = Some (container kv.2))
    by (intros r; exists (bk, meta); split; [left|]; reflexivity).
  assert (Htail : ∀ h', Forall (λ ev, ∃ kv, In kv ((bk, meta) :: l)
                                  ∧ event_container ev = Some (container kv.2))
                          (sweep pol st now l o h').2).
  { intros h'. eapply Forall_impl; [apply IH; intros kv Hkv; apply Hreg; right; exact Hkv|].
    intros ev (kv & Hkv & Hev). exists kv. split; [right|]; assumption. }
  assert (Hstop : ∀ h', Forall (λ ev, ∃ kv, In kv ((bk, meta) :: l)
                                  ∧ event_container ev = Some (container kv.2))
                          (stop_container pol (container meta) None o h').2).
  { intros h'. eapply Forall_impl; [apply stop_container_events|].
    intros ev [Hev _]. exists (bk, meta). split; [left; reflexivity | exact Hev]. }
  destruct (not_error_cases (o_status o h (container meta))) as [[text Hst]|Hok].
  - rewrite (sweep_step_error _ _ _ _ _ _ _ _ _ Hst). repeat constructor. apply Hhead.
  - rewrite (sweep_step _ _ _ _ _ _ _ _ _ (Hreg (bk, meta) (or_introl eq_refl)) eq_refl Hok).
    cbn [snd]. constructor; [apply Hhead|]. apply Forall_app. split; [|apply Htail].
    destruct (_ && _); [apply Hstop | constructor].
Qed.

Lemma events_elsewhere (c : string) (l : list (string * Meta)) (t : Trace) (e : Event) :
  Forall (λ ev, ∃ kv, In kv l ∧ event_container ev = Some (container kv.2)) t →
  ¬ In c (map (λ kv, container kv.2) l) →
  event_container e = Some c →
  ¬ In e t.
Proof.
  intros Hall Hnot He Hin. rewrite List.Forall_forall in Hall.
  destruct (Hall e Hin) as (kv & Hkv & Hev). rewrite He in Hev. injection Hev as ->.
  apply Hnot. apply in_map_iff. exists kv. split; [reflexivity | exact Hkv].
Qed.

(** What a tick does about one backend: [stop_container] is called on its
    container iff the engine reported it running and lines 573-587 let the
    stop through. *)
Lemma sweep_stop_iff pol st now l o h bk meta :
  (∀ kv, In kv l → assoc_get kv.1 BACKENDS = Some kv.2) →
  List.NoDup (map (λ kv, container kv.2) l) →
  In (bk, meta) l →
  stop_attempted (container meta) (sweep pol st now l o h).2
  ↔ In (EvStatus (container meta) (IState true)) (sweep pol st now l o h).2
    ∧ sweep_decides pol st now bk meta = true.
Proof.
  revert h. induction l as [|[bk0 meta0] l IH]; intros h Hreg Hnodup Hin; [destruct Hin|].
  cbn [map] in Hnodup. apply List.NoDup_cons_iff in Hnodup as [Hfresh Hnodup].
  assert (Hregl : ∀ kv, In kv l → assoc_get kv.1 BACKENDS = Some kv.2)
    by (intros kv Hkv; apply Hreg; right; exact Hkv).
  destruct (not_error_cases (o_status o h (container meta0))) as [[text Hst]|Hok].
  - rewrite (sweep_step_error _ _ _ _ _ _ _ _ _ Hst). cbn [snd]. unfold stop_attempted.
    split.
    + intros [r [Hr|[]]]. discriminate Hr.
    + intros [[Hr|[]] _]. discriminate Hr.
  - rewrite (sweep_step _ _ _ _ _ _ _ _ _ (Hreg (bk0, meta0) (or_introl eq_refl)) eq_refl Hok).
    cbn [fst snd] in *. cbv zeta.
    set (r := o_status o h (container meta0)) in *.
    pose proof (stop_container_events pol (container meta0) None o
                  (h ++ [EvStatus (container meta0) r])) as Hstop_ev.
    pose proof (stop_container_attempted pol (container meta0) None o
                  (h ++ [EvStatus (container meta0) r])) as Hstop_att.
    set (stop_tr := (stop_container pol (container meta0) None o
                       (h ++ [EvStatus (container meta0) r])).2) in *.
    set (stop := if reports_running r && sweep_decides pol st now bk0 meta0
                 then stop_tr else []).
    pose proof (sweep_containers pol st now l o
                  (h ++ EvStatus (container meta0) r :: stop) Hregl) as Htail_ev.
    set (tail := (sweep pol st now l o (h ++ EvStatus (container meta0) r :: stop)).2) in *.
    assert (Hstop_sub : ∀ e, In e stop →
              In e stop_tr ∧ reports_running r = true
              ∧ sweep_decides pol st now bk0 meta0 = true).
    { intros e He. subst stop.
      destruct (reports_running r); [|destruct He].
      destruct (sweep_decides pol st now bk0 meta0); [auto | destruct He]. }
    rewrite List.Forall_forall in Hstop_ev.
    destruct Hin as [[= -> ->]|Hin].
    + split.
      * intros [x [Hx|Hx]]; [discriminate Hx|].
        apply in_app_or in Hx as [Hx|Hx].
        -- destruct (Hstop_sub _ Hx) as (_ & Hrun & Hdec).
           split; [|exact Hdec]. left. destruct r as [|[|]|]; try discriminate Hrun.
           reflexivity.
        -- exfalso.
           exact (events_elsewhere (container meta) l tail (EvGet (container meta) x)
                    Htail_ev Hfresh eq_refl Hx).
      * intros [[Hx|Hx] Hdec].
        -- injection Hx as Hr. destruct Hstop_att as [x Hx].
           exists x. right. apply in_or_app. left. subst stop.
           rewrite Hr, Hdec. exact Hx.
        -- exfalso. apply in_app_or in Hx as [Hx|Hx].
           ++ destruct (Hstop_sub _ Hx) as (Hx' & _). destruct (Hstop_ev _ Hx') as [_ Hs].
              discriminate Hs.
           ++ exact (events_elsewhere (container meta) l tail
                       (EvStatus (container meta) (IState true))
                       Htail_ev Hfresh eq_refl Hx).
    + assert (Hne : container meta ≠ container meta0).
      { intros Heq. apply Hfresh. rewrite <- Heq.
        apply in_map_iff. exists (bk, meta). split; [reflexivity | exact Hin]. }
      assert (Hskip : ∀ e, event_container e = Some (container meta) →
                In e (EvStatus (container meta0) r :: stop ++ tail) ↔ In e tail).
      { intros e He. split.
        - intros [Hx|Hx]; [subst e; injection He as He; congruence|].
          apply in_app_or in Hx as [Hx|Hx]; [|exact Hx].
          destruct (Hstop_sub _ Hx) as (Hx' & _). destruct (Hstop_ev _ Hx') as [Hc _].
          congruence.
        - intros Hx. right. apply in_or_app. right. exact Hx. }
      specialize (IH (h ++ EvStatus (container meta0) r :: stop) Hregl Hnodup Hin).
      fold tail in IH.
      rewrite (Hskip (EvStatus (container meta) (IState true)) eq_refl), <- IH.
      unfold stop_attempted.
      split; intros [x Hx]; exists x; apply (Hskip (EvGet (container meta) x) eq_refl);
        exact Hx.
Qed.

Lemma registry_containers_nodup :
  List.NoDup (map (λ kv : string * Meta, container kv.2) BACKENDS).
Proof. apply NoDup_ListNoDup. refine (bool_decide_unpack _ _). vm_compute. exact I. Qed.

Lemma registry_registered kv : In kv BACKENDS → assoc_get kv.1 BACKENDS = Some kv.2.
Proof. apply registry_keys_unique. Qed.

Lemma ttl_for_backend_spec pol bk meta :
  assoc_get bk BACKENDS = Some meta →
  ttl_for_backend pol bk = Ok (spec_ttl_min pol meta).
Proof.
  intros Hreg. unfold ttl_for_backend. rewrite (BACKENDS_at_registered _ _ Hreg).
  registry_cases Hreg; reflexivity.
Qed.

(** The tick runs the loop on the clock and the state it read first. *)
Lemma ttl_sweeper_tick_run pol o :
  run (ttl_sweeper_tick pol) o
  = ((sweep pol (tick_state o) (tick_now o) BACKENDS o (tick_history o)).1,
     tick_history o ++ (sweep pol (tick_state o) (tick_now o) BACKENDS o (tick_history o)).2).
Proof.
  unfold run, ttl_sweeper_tick, tick_history, tick_state, tick_now. m_eval.
  destruct (sweep pol _ _ BACKENDS o _). reflexivity.
Qed.

Lemma float_lt_ge a n : float_lt_int a n = negb (float_ge_int a n).
Proof. destruct a as [q|[|]]; reflexivity. Qed.

(** Lines 573-587 in the words of the design document. *)
Lemma sweep_decides_spec pol st now bk meta :
  assoc_get bk BACKENDS = Some meta →
  sweep_decides pol st now bk meta = true
  ↔ ¬ sticky_skipped pol st bk meta ∧ ¬ inflight_skipped st bk
    ∧ idle_at_least st now bk (GRACE_IDLE_MIN pol * 60)
    ∧ idle_at_least st now bk (spec_ttl_min pol meta * 60).
Proof.
  intros Hreg. unfold sweep_decides, sticky_skipped, inflight_skipped, idle_at_least.
  rewrite (ttl_for_backend_spec _ _ _ Hreg).
  change (idle_s st now bk) with (spec_idle st now bk).
  rewrite float_lt_ge, negb_involutive.
  rewrite !andb_true_iff, !negb_true_iff.
  rewrite <- !not_true_iff_false, !andb_true_iff, bool_decide_eq_true, Qlt_bool_iff,
    Z.ltb_lt.
  tauto.
Qed.

(** Where the stop sits in the trace of the loop: right after the
    inspection that reported the container running, when lines 573-587
    let it through; no stop call is made on the container otherwise. *)
Lemma sweep_stop_events pol st now l o h bk meta :
  (∀ kv, In kv l → assoc_get kv.1 BACKENDS = Some kv.2) →
  List.NoDup (map (λ kv, container kv.2) l) →
  In (bk, meta) l →
  let c := container meta in
  let tr := (sweep pol st now l o h).2 in
  In (EvStatus c (IState true)) tr →
  if sweep_decides pol st now bk meta then
    ∃ pre post,
      tr = pre ++ EvStatus c (IState true)
               :: spec_stop pol o (h ++ pre ++ [EvStatus c (IState true)]) c ++ post
  else Forall (λ ev, is_stop_event ev = true → event_container ev ≠ Some c) tr.
Proof.
  cbv zeta.
  revert h. induction l as [|[bk0 meta0] l IH]; intros h Hreg Hnodup Hin; [destruct Hin|].
  cbn [map] in Hnodup. apply List.NoDup_cons_iff in Hnodup as [Hfresh Hnodup].
  assert (Hregl : ∀ kv, In kv l → assoc_get kv.1 BACKENDS = Some kv.2)
    by (intros kv Hkv; apply Hreg; right; exact Hkv).
  destruct (not_error_cases (o_status o h (container meta0))) as [[text Hst]|Hok].
  { rewrite (sweep_step_error _ _ _ _ _ _ _ _ _ Hst). cbn [snd].
    intros [Hx|[]]. discriminate Hx. }
  rewrite (sweep_step _ _ _ _ _ _ _ _ _ (Hreg (bk0, meta0) (or_introl eq_refl)) eq_refl Hok).
  cbn [fst snd] in *. cbv zeta.
  set (r := o_status o h (container meta0)) in *.
  pose proof (stop_container_events pol (container meta0) None o
                (h ++ [EvStatus (container meta0) r])) as Hstop_ev.
  rewrite stop_container_spec in Hstop_ev. cbn [snd] in Hstop_ev.
  rewrite stop_container_spec. cbn [snd].
  set (stop_tr := spec_stop pol o (h ++ [EvStatus (container meta0) r]) (container meta0)) in *.
  set (stop := if reports_running r && sweep_decides pol st now bk0 meta0
               then stop_tr else []).
  pose proof (sweep_containers pol st now l o
                (h ++ EvStatus (container meta0) r :: stop) Hregl) as Htail_ev.
  set (tail := (sweep pol st now l o (h ++ EvStatus (container meta0) r :: stop)).2) in *.
  assert (Hstop_sub : ∀ e, In e stop →
            In e stop_tr ∧ reports_running r = true
            ∧ sweep_decides pol st now bk0 meta0 = true).
  { intros e He. subst stop.
    destruct (reports_running r); [|destruct He].
    destruct (sweep_decides pol st now bk0 meta0); [auto | destruct He]. }
  rewrite List.Forall_forall in Hstop_ev.
  destruct Hin as [[= -> ->]|Hin].
  - (* the backend is the one the loop is at *)
    intros Hrun.
    assert (Hr : r = IState true).
    { destruct Hrun as [Hx|Hx]; [injection Hx as Hx; exact Hx|].
      exfalso. apply in_app_or in Hx as [Hx|Hx].
      - destruct (Hstop_sub _ Hx) as (Hx' & _). destruct (Hstop_ev _ Hx') as [_ Hs].
        discriminate Hs.
      - exact (events_elsewhere (container meta) l tail
                 (EvStatus (container meta) (IState true)) Htail_ev Hfresh eq_refl Hx). }
    subst stop stop_tr. subst r. rewrite Hr in *. cbn [reports_running andb].
    destruct (sweep_decides pol st now bk meta).
    + exists [], tail. cbn [app]. reflexivity.
    + constructor; [discriminate|]. cbn [app].
      rewrite List.Forall_forall. intros e He _ Hc.
      exact (events_elsewhere (container meta) l tail e Htail_ev Hfresh Hc He).
  - (* the backend comes later *)
    assert (Hne : container meta ≠ container meta0).
    { intros Heq. apply Hfresh. rewrite <- Heq.
      apply in_map_iff. exists (bk, meta). split; [reflexivity | exact Hin]. }
    intros Hrun.
    assert (Hrun' : In (EvStatus (container meta) (IState true)) tail).
    { destruct Hrun as [Hx|Hx]; [injection Hx as Hx _; congruence|].
      apply in_app_or in Hx as [Hx|Hx]; [|exact Hx].
      destruct (Hstop_sub _ Hx) as (Hx' & _). destruct (Hstop_ev _ Hx') as [_ Hs].
      discriminate Hs. }
    specialize (IH (h ++ EvStatus (container meta0) r :: stop) Hregl Hnodup Hin Hrun').
    fold tail in IH.
    destruct (sweep_decides pol st now bk meta).
    + destruct IH as (pre & post & Htail).
      exists (EvStatus (container meta0) r :: stop ++ pre), post.
      rewrite Htail. cbn [app]. rewrite <- !app_assoc. cbn [app]. reflexivity.
    + constructor; [discriminate|]. apply Forall_app. split; [|exact IH].
      rewrite List.Forall_forall. intros e He _ Hc.
      destruct (Hstop_sub _ He) as (He' & _). destruct (Hstop_ev _ He') as [Hc' _].
      congruence.
Qed.

(** C6: on a tick, a backend that the engine reports running and that
    neither the sticky-backend check nor the inflight check skips is given
    a stop iff its idle time (now - last_used when ever used, else now, as
    the sweeper computes it in double precision) is at least the grace
    period and at least its TTL, the GPU1-chat TTL for chat backends on
    GPU 1 and the global TTL for every other one.  The stop is the
    best-effort one, made right after the inspection: the container is
    looked up; if the lookup returns, a graceful stop with the configured
    timeout is issued, and a kill if that stop raises.  Otherwise no stop
    call is made on the container in the tick. *)
Theorem ttl_sweeper_tick_stop_iff pol o bk meta :
  In (bk, meta) BACKENDS →
  let tr := (run (ttl_sweeper_tick pol) o).2 in
  let st := tick_state o in
  let now := tick_now o in
  let c := container meta in
  In (EvStatus c (IState true)) tr →
  ¬ sticky_skipped pol st bk meta →
  ¬ inflight_skipped st bk →
  let due := idle_at_least st now bk (GRACE_IDLE_MIN pol * 60)
             ∧ idle_at_least st now bk (spec_ttl_min pol meta * 60) in
  (due →
     ∃ pre post,
       tr = pre ++ EvStatus c (IState true)
                :: spec_stop pol o (pre ++ [EvStatus c (IState true)]) c ++ post)
  ∧ (¬ due → Forall (λ ev, is_stop_event ev = true → event_container ev ≠ Some c) tr).
Proof.
  intros Hin tr st now c Hrun Hsticky Hinflight due. subst tr st now c due.
  rewrite ttl_sweeper_tick_run in *. cbn [snd] in *.
  pose proof (sweep_decides_spec pol (tick_state o) (tick_now o) bk meta
                (registry_registered (bk, meta) Hin)) as Hdec.
  assert (Hrun' : In (EvStatus (container meta) (IState true))
                     (sweep pol (tick_state o) (tick_now o) BACKENDS o (tick_history o)).2).
  { apply in_app_or in Hrun as [Hrun|Hrun]; [|exact Hrun].
    unfold tick_history in Hrun. cbn [In] in Hrun.
    repeat (destruct Hrun as [Hrun|Hrun]; [discriminate Hrun|]). destruct Hrun. }
  pose proof (sweep_stop_events pol (tick_state o) (tick_now o) BACKENDS o (tick_history o)
                bk meta registry_registered registry_containers_nodup Hin Hrun') as Hev.
  cbv zeta in Hev.
  destruct (sweep_decides pol (tick_state o) (tick_now o) bk meta).
  - split; [|intros Hnot; exfalso; apply Hnot; apply Hdec; reflexivity].
    intros _. destruct Hev as (pre & post & Htr).
    exists (tick_history o ++ pre), post. rewrite Htr, <- !app_assoc. reflexivity.
  - split; [intros Hdue; exfalso; assert (false = true) as [=] by (apply Hdec; tauto)|].
    intros _. apply Forall_app. split; [|exact Hev].
    unfold tick_history. repeat constructor; discriminate.
Qed.

Lemma ttl_sweeper_tick_stop_iff_witness :
  In (EvStop "bge_embed_1" 45 None) (run (ttl_sweeper_tick default_policy) oracle_idle).2.
Proof.
  destruct (proj1 (ttl_sweeper_tick_stop_iff default_policy oracle_idle "bge-m3@1"
                     (mk "bge-m3" "embeddings" "1" "throughput" "http://bge_embed_1:8000/v1"
                         "bge_embed_1")
                     ltac:(unfold BACKENDS; do 8 right; left; reflexivity)
                     ltac:(vm_compute; do 11 right; left; reflexivity)
                     ltac:(intros (_ & H & _); vm_compute in H; discriminate H)
                     ltac:(unfold inflight_skipped; vm_compute; discriminate))
                  ltac:(split; vm_compute; reflexivity))
    as (pre & post & Htr).
  rewrite Htr. apply in_or_app. right. right. right. left. reflexivity.
Defined.

(** C6, the claim as stated.  First run: the embeddings backend is reported
    running, is neither sticky nor inflight and has been idle for 2000 s,
    more than the grace period and its TTL, yet nothing is stopped: the
    engine fails the lookup and the sweeper logs and goes on.  Second run:
    the clock reads 900.3 and the llama backend of GPU 1 was last used at
    0.3; the difference of the two readings is below the TTL of 900 s, yet
    the sweeper, which finds 900.0 in double precision, stops it. *)
Lemma ttl_sweeper_tick_stop_iff_counterexample :
  (let tr := (run (ttl_sweeper_tick default_policy) oracle_lookup_fails).2 in
   In (EvStatus "bge_embed_1" (IState true)) tr
   ∧ (inject_Z (GRACE_IDLE_MIN default_policy * 60)
      <= exact_idle idle_state_example 1700002000 "bge-m3@1")%Q
   ∧ (inject_Z (GLOBAL_TTL_MIN default_policy * 60)
      <= exact_idle idle_state_example 1700002000 "bge-m3@1")%Q
   ∧ forallb (λ ev, match ev with
                    | EvStop _ _ _ | EvKill _ _ => false
                    | _ => true
                    end) tr = true)
  ∧ (let tr := (run (ttl_sweeper_tick default_policy) oracle_rounding).2 in
     (exact_idle rounding_state_example double_900_3 "llama31-8b-instruct@1"
      < inject_Z (GPU1_GENERATOR_TTL_MIN default_policy * 60))%Q
     ∧ In (EvStatus "llama_1" (IState true)) tr
     ∧ In (EvStop "llama_1" 45 None) tr).
Proof.
  split; [split; [|split; [|split]] | split; [|split]].
  - vm_compute. do 11 right. left. reflexivity.
  - vm_compute. discriminate.
  - vm_compute. discriminate.
  - vm_compute. reflexivity.
  - vm_compute. reflexivity.
  - vm_compute. do 7 right. left. reflexivity.
  - vm_compute. do 9 right. left. reflexivity.
Qed.

(** ** Request handlers and the shared dictionaries *)

Lemma try_candidates_quiet pol model_id role ordered :
  Only quiet (try_candidates pol model_id role ordered).
Proof. induction ordered as [|bk rest IH]; cbn [try_candidates]; only_walk. Qed.

#[local] Hint Resolve try_candidates_quiet : only.

Lemma ensure_and_get_backend_quiet pol model_id role est :
  Only quiet (ensure_and_get_backend pol model_id role est).
Proof. unfold ensure_and_get_backend. only_walk. Qed.

#[local] Hint Resolve ensure_and_get_backend_quiet : only.

Lemma handler_shape_prefix P t1 t2 :
  Forall quiet t1 → handler_shape P t2 → handler_shape P (t1 ++ t2).
Proof.
  intros H1 (adm & Hadm & Hshape). exists (t1 ++ adm). split.
  - apply Forall_app. auto.
  - destruct Hshape as [-> | (bk & target & path & [[e ->] | (resp & t & g & Ht & ->)])].
    + left. reflexivity.
    + right. exists bk, target, path. left. exists e. rewrite <- app_assoc. reflexivity.
    + right. exists bk, target, path. right. exists resp, t, g.
      rewrite <- app_assoc. auto.
Qed.

Section Shapes.
Context {A B : Type} (P : Q → Prop).

Lemma Shaped_quiet (m : M A) : Only quiet m → Shaped P m.
Proof. intros Hm o h _. exists (m o h).2. split; [apply Hm | left; reflexivity]. Qed.

Lemma Shaped_bind (m : M A) (f : A → M B) :
  Only quiet m → (∀ a, Shaped P (f a)) → Shaped P (m_bind m f).
Proof.
  intros Hm Hf o h Hclock. rewrite m_bind_run. specialize (Hm o h).
  destruct (m o h) as [[a|e] t1]; cbn [snd] in *.
  - apply handler_shape_prefix; [exact Hm | apply Hf; exact Hclock].
  - exists t1. split; [exact Hm | left; reflexivity].
Qed.
End Shapes.

Lemma proxied_shaped P bk meta target path : Shaped P (proxied bk meta target path).
Proof.
  intros o h Hclock. exists []. split; [constructor|]. right.
  exists bk, target, path. unfold proxied. m_eval.
  destruct (o_proxy o _ target path) as [resp|e]; m_eval.
  - right. eexists resp, _, (gpu meta). split; [apply Hclock | reflexivity].
  - left. exists e. reflexivity.
Qed.

Ltac shaped_walk :=
  m_unfold;
  repeat first
    [ apply proxied_shaped
    | apply Shaped_quiet; solve [only_walk]
    | apply Shaped_bind; [solve [only_walk] | intro]
    | match goal with
      | |- Shaped _ (if ?b then _ else _) => destruct b
      | |- Shaped _ (match ?x with _ => _ end) => destruct x
      | |- Shaped _ (let _ := _ in _) => cbv zeta
      end ].

Lemma chat_completions_shaped P pol req : Shaped P (chat_completions pol req).
Proof. unfold chat_completions. shaped_walk. Qed.

Lemma single_backend_handler_shaped P pol req target path :
  Shaped P (single_backend_handler pol req target path).
Proof. unfold single_backend_handler. shaped_walk. Qed.

(** Every handler's trace has the shape. *)
Lemma handler_trace_shape P pol o tr :
  (∀ h, P (o_now o h)) → handler_trace pol o tr → handler_shape P tr.
Proof.
  intros Hclock [req [-> | [-> | ->]]]; unfold run, embeddings, rerank.
  - apply chat_completions_shaped. exact Hclock.
  - apply single_backend_handler_shaped. exact Hclock.
  - apply single_backend_handler_shaped. exact Hclock.
Qed.




(** *** The monitor accepts every handler *)

Lemma mon_step_quiet p ev : quiet ev → mon_step p ev = Some p.
Proof. intros H. destruct ev; try discriminate H; destruct p; reflexivity. Qed.

Lemma accepts_quiet_prefix P p adm tr :
  Forall quiet adm → accepts P p tr → accepts P p (adm ++ tr).
Proof.
  induction 1 as [|ev adm Hev _ IH]; intros Htr; [exact Htr|].
  cbn [app accepts]. rewrite (mon_step_quiet p ev Hev). split; [|apply IH; exact Htr].
  destruct ev; try exact I. discriminate Hev.
Qed.

Lemma handler_shape_accepted P tr : handler_shape P tr → accepts P Idle tr.
Proof.
  intros (adm & Hadm & Hshape).
  destruct Hshape as [-> | (bk & tg & pa & [[e ->] | (resp & t & g & Ht & ->)])].
  - rewrite <- (app_nil_r adm). apply accepts_quiet_prefix; [exact Hadm | exact I].
  - apply accepts_quiet_prefix; [exact Hadm|].
    cbn [accepts mon_step stamp_ok]. rewrite String.eqb_refl. cbn [accepts]. tauto.
  - apply accepts_quiet_prefix; [exact Hadm|].
    cbn [accepts mon_step stamp_ok]. rewrite String.eqb_refl.
    cbn [accepts mon_step stamp_ok]. rewrite String.eqb_refl.
    cbn [accepts mon_step stamp_ok]. rewrite String.eqb_refl.
    cbn [accepts]. tauto.
Qed.

(** *** The dictionaries stay consistent with the tasks in flight *)

Lemma holders_middle ps1 p ps2 bk :
  holders (ps1 ++ p :: ps2) bk
  = holders ps1 bk + (if holds p bk then 1 else 0) + holders ps2 bk.
Proof.
  unfold holders. rewrite List.filter_app. cbn [List.filter].
  destruct (holds p bk); rewrite length_app; cbn [length]; lia.
Qed.


Lemma consistent_step P s ps1 p ps2 ev p' :
  consistent P s (ps1 ++ p :: ps2) →
  stamp_ok P ev →
  mon_step p ev = Some p' →
  consistent P (apply_event s ev) (ps1 ++ p' :: ps2).
Proof.
  intros (Hinf & Hstamped & Hsticky) Hok Hstep.
  assert (Hkeep : ∀ bk, In (Stamped bk) (ps1 ++ p' :: ps2) →
            In (Stamped bk) (ps1 ++ p :: ps2) ∨ p' = Stamped bk).
  { intros bk Hin. apply in_app_or in Hin as [Hin|[Hin|Hin]]; auto.
    - left. apply in_or_app. auto.
    - left. apply in_or_app. right. right. exact Hin. }
  destruct ev; cbn [apply_event];
    try (assert (p' = p) as -> by (destruct p; cbn in Hstep; congruence);
         repeat split; assumption).
  - (* EvInc *)
    destruct p; try discriminate Hstep. injection Hstep as <-.
    repeat split; cbn [inflight last_used sticky_backend_by_gpu].
    + intros b v. rewrite lookup_alter. rewrite holders_middle.
      specialize (Hinf b). rewrite holders_middle in Hinf. cbn [holds] in *.
      case_decide as Hb.
      * subst b. rewrite String.eqb_refl. destruct (inflight s !! bk) as [v0|]; [|discriminate].
        intros [= <-]. specialize (Hinf v0 eq_refl). lia.
      * rewrite (proj2 (String.eqb_neq bk b) Hb). exact (Hinf v).
    + intros b Hin. destruct (Hkeep b Hin) as [Hin'|[=]]. exact (Hstamped b Hin').
    + exact Hsticky.
  - (* EvDec *)
    assert (Hp : holds p bk = true ∧ p' = Finished).
    { destruct p; try discriminate Hstep; cbn in Hstep |- *;
        rewrite String.eqb_sym;
        destruct (String.eqb bk bk0); try discriminate Hstep; injection Hstep as <-; auto. }
    destruct Hp as [Hp ->].
    repeat split; cbn [inflight last_used sticky_backend_by_gpu].
    + intros b v. rewrite lookup_alter. rewrite holders_middle.
      specialize (Hinf b). rewrite holders_middle in Hinf. cbn [holds] in *.
      case_decide as Hb.
      * subst b. rewrite Hp in Hinf. destruct (inflight s !! bk) as [v0|]; [|discriminate].
        intros [= <-]. specialize (Hinf v0 eq_refl). lia.
      * assert (holds p b = false) as Hpb.
        { destruct p; try reflexivity; cbn in Hp |- *;
            apply String.eqb_eq in Hp; subst; apply String.eqb_neq; exact Hb. }
        rewrite Hpb in Hinf. intros Hv. specialize (Hinf v Hv). lia.
    + intros b Hin. destruct (Hkeep b Hin) as [Hin'|[=]]. exact (Hstamped b Hin').
    + exact Hsticky.
  - (* EvSetLastUsed *)
    destruct p; try discriminate Hstep. cbn in Hstep.
    destruct (String.eqb_spec bk bk0) as [->|]; [|discriminate Hstep].
    injection Hstep as <-. cbn [stamp_ok] in Hok.
    assert (Hlast : ∀ b, (∃ t0, last_used s !! b = Some t0 ∧ P t0) ∨ b = bk0 →
              ∃ t0, <[bk0 := t]> (last_used s) !! b = Some t0 ∧ P t0).
    { intros b Hb. destruct (decide (bk0 = b)) as [->|Hne].
      - exists t. rewrite lookup_insert_eq. auto.
      - rewrite lookup_insert_ne by exact Hne. destruct Hb as [Hb|Hb]; [exact Hb | congruence]. }
    repeat split; cbn [inflight last_used sticky_backend_by_gpu].
    + intros b v Hv. rewrite holders_middle. specialize (Hinf b v Hv).
      rewrite holders_middle in Hinf. exact Hinf.
    + intros b Hin. apply Hlast. destruct (Hkeep b Hin) as [Hin'|[= ->]]; auto.
    + intros g b Hg. apply Hlast. left. exact (Hsticky g b Hg).
  - (* EvSetSticky *)
    destruct p; try discriminate Hstep. cbn in Hstep.
    destruct (String.eqb_spec bk bk0) as [->|]; [|discriminate Hstep].
    injection Hstep as <-.
    repeat split; cbn [inflight last_used sticky_backend_by_gpu]; try assumption.
    intros g0 b. rewrite lookup_insert. case_decide as Hg.
    + intros [= <-]. apply Hstamped. apply in_or_app. right. left. reflexivity.
    + apply Hsticky.
Qed.

Lemma accepts_cons_inv P p ev rest :
  accepts P p (ev :: rest) →
  stamp_ok P ev ∧ ∃ p', mon_step p ev = Some p' ∧ accepts P p' rest.
Proof.
  cbn [accepts]. intros [Hok Hrest]. split; [exact Hok|].
  destruct (mon_step p ev) as [p'|]; [eauto | destruct Hrest].
Qed.

(** Any global history of accepted tasks leaves the dictionaries
    consistent with some assignment of phases. *)
Lemma interleave_consistent P runs g :
  interleave runs g →
  ∀ s ps, Forall2 (accepts P) ps runs → consistent P s ps →
  ∃ ps', consistent P (fold_left apply_event g s) ps'.
Proof.
  induction 1 as [runs | l1 l2 ev rest g _ IH]; intros s ps Hacc Hcons.
  - exists ps. exact Hcons.
  - apply Forall2_app_inv_r in Hacc as (ps1 & ps2' & Hacc1 & Hacc2 & ->).
    apply Forall2_cons_inv_r in Hacc2 as (p & ps2 & Hp & Hacc2 & ->).
    apply accepts_cons_inv in Hp as (Hok & p' & Hstep & Hp').
    cbn [fold_left]. apply (IH _ (ps1 ++ p' :: ps2)).
    + apply Forall2_app; [exact Hacc1|]. constructor; assumption.
    + eapply consistent_step; eassumption.
Qed.

Lemma initial_inflight_zero bk v : inflight initial_state !! bk = Some v → v = 0.
Proof.
  unfold initial_state. cbn [inflight]. intros H.
  apply elem_of_list_to_map_2 in H. apply list_elem_of_In in H.
  apply in_map_iff in H as (kv & [= _ <-] & _). reflexivity.
Qed.

Lemma holders_idle n bk : holders (replicate n Idle) bk = 0.
Proof. unfold holders. induction n as [|n IH]; [reflexivity | exact IH]. Qed.

Lemma initial_consistent P n : consistent P initial_state (replicate n Idle).
Proof.
  repeat split.
  - intros bk v Hv. rewrite holders_idle. exact (initial_inflight_zero bk v Hv).
  - intros bk Hin. apply list_elem_of_In, elem_of_replicate in Hin as [[=] _].
  - intros g bk. unfold initial_state. cbn [sticky_backend_by_gpu].
    rewrite lookup_insert. case_decide; [intros [=]|].
    rewrite lookup_insert. case_decide; [intros [=]|].
    rewrite lookup_empty. intros [=].
Qed.

(** The state after any global history of handler tasks is consistent. *)
Lemma handlers_consistent P pol runs g :
  Forall (λ tr, ∃ o, (∀ h, P (o_now o h)) ∧ handler_trace pol o tr) runs →
  interleave runs g →
  ∃ ps, consistent P (state_after g) ps.
Proof.
  intros Hruns Hint. unfold state_after.
  apply (interleave_consistent P runs g Hint initial_state (replicate (length runs) Idle)).
  - clear Hint. induction Hruns as [|tr runs (o & Hclock & Htr) _ IH]; [constructor|].
    cbn [length replicate]. constructor; [|exact IH].
    apply handler_shape_accepted. exact (handler_trace_shape P pol o tr Hclock Htr).
  - apply initial_consistent.
Qed.


(** C5: in any state the handlers can produce (clock readings after the
    epoch), a tick of the sweeper calls [stop_container] on no backend
    with an inflight count above 0 and, with keep-last on, on no backend
    that is the sticky backend of its GPU. *)
Theorem ttl_sweeper_spares_busy_and_sticky pol runs g o bk meta :
  Forall (λ tr, ∃ o', clock_positive o' ∧ handler_trace pol o' tr) runs →
  interleave runs g →
  tick_state o = state_after g →
  In (bk, meta) BACKENDS →
  stop_attempted (container meta) (run (ttl_sweeper_tick pol) o).2 →
  ¬ (0 < inflight_get (tick_state o) bk)
  ∧ (KEEP_LAST_PER_GPU pol = true → sticky_get (tick_state o) (gpu meta) ≠ Some bk).
Proof.
  intros Hruns Hint Hstate Hin Hstop.
  destruct (handlers_consistent (λ t, (0 < t)%Q) pol runs g Hruns Hint)
    as (ps & _ & _ & Hsticky).
  rewrite <- Hstate in Hsticky.
  rewrite ttl_sweeper_tick_run in Hstop. cbn [snd] in Hstop.
  assert (Hatt : stop_attempted (container meta)
                   (sweep pol (tick_state o) (tick_now o) BACKENDS o (tick_history o)).2).
  { destruct Hstop as [x Hx]. exists x.
    apply in_app_or in Hx as [Hx|Hx]; [|exact Hx].
    unfold tick_history in Hx. cbn [In] in Hx.
    repeat (destruct Hx as [Hx|Hx]; [discriminate Hx|]). destruct Hx. }
  apply (sweep_stop_iff pol (tick_state o) (tick_now o) BACKENDS o (tick_history o)
           bk meta registry_registered registry_containers_nodup Hin) in Hatt as [_ Hdec].
  apply (sweep_decides_spec pol _ _ bk meta (registry_registered (bk, meta) Hin)) in Hdec
    as (Hns & Hni & _).
  split; [exact Hni|].
  intros Hkeep Hst. apply Hns. split; [exact Hkeep|]. split; [exact Hst|].
  unfold sticky_get in Hst. unfold last_used_get.
  destruct (sticky_backend_by_gpu (tick_state o) !! gpu meta) as [sb|] eqn:Hlook;
    cbn in Hst; [|discriminate Hst]. subst sb.
  destruct (Hsticky (gpu meta) bk Hlook) as (t & -> & Ht). exact Ht.
Qed.

Lemma interleave_single tr : interleave [tr] tr.
Proof.
  induction tr as [|ev tr IH]; [constructor|].
  exact (interleave_step [] [] ev tr tr IH).
Qed.

Example example_trace_value :
  map (λ ev, is_write ev) example_trace
  = [false; false; false; false; true; false; false; true; true; true].
Proof. vm_compute. reflexivity. Qed.

Lemma example_runs_are_handlers :
  Forall (λ tr, ∃ o, clock_positive o ∧ handler_trace policy_example o tr) [example_trace].
Proof.
  constructor; [|constructor]. exists oracle_warm. split.
  - intros h. reflexivity.
  - exists request_example. left. reflexivity.
Qed.


Lemma ttl_sweeper_spares_busy_and_sticky_witness :
  ¬ (0 < inflight_get (state_after example_trace) "bge-m3@1")
  ∧ (KEEP_LAST_PER_GPU policy_example = true →
     sticky_get (state_after example_trace) "1" ≠ Some "bge-m3@1").
Proof.
  apply (ttl_sweeper_spares_busy_and_sticky policy_example [example_trace] example_trace
           oracle_sweep_example "bge-m3@1"
           (mk "bge-m3" "embeddings" "1" "throughput" "http://bge_embed_1:8000/v1"
               "bge_embed_1")).
  - exact example_runs_are_handlers.
  - apply interleave_single.
  - reflexivity.
  - unfold BACKENDS. do 8 right. left. reflexivity.
  - exists None. vm_compute. repeat first [left; reflexivity | right].
Defined.

(** ** The lifecycle controller: locks, probes and start attempts *)

Lemma running_heavy_scan_engine g except_bk l :
  Only (λ ev, is_engine_event ev = true) (running_heavy_scan g except_bk l).
Proof.
  eapply Only_weaken; [|apply running_heavy_scan_status].
  intros [] H; try discriminate H; reflexivity.
Qed.

Lemma stop_embed_rank_loop_engine pol bks :
  Only (λ ev, is_engine_event ev = true) (stop_embed_rank_loop pol bks).
Proof. induction bks as [|bk bks IH]; cbn [stop_embed_rank_loop]; only_walk. Qed.

Lemma start_attempts_engine pol bk meta role n last_err :
  Only (λ ev, is_engine_event ev = true) (start_attempts pol bk meta role n last_err).
Proof.
  revert last_err. induction n as [|n IH]; intros last_err; cbn [start_attempts]; only_walk.
  all: apply IH.
Qed.

#[local] Hint Resolve running_heavy_scan_engine stop_embed_rank_loop_engine
  start_attempts_engine : only.

Lemma startup_tail_engine pol bk meta role :
  Only (λ ev, is_engine_event ev = true) (startup_tail pol bk meta role).
Proof. unfold startup_tail, stop_gpu1_embed_rank_best_effort. only_walk. Qed.

#[local] Hint Resolve startup_tail_engine : only.

Lemma gpu_section_engine pol bk meta role :
  Only (λ ev, is_engine_event ev = true) (gpu_section pol bk meta role).
Proof. unfold gpu_section, on_gpu_busy, running_heavy_backend_on_gpu. only_walk. Qed.

Lemma with_lock_run {A} (l : lock) (body : M A) o h :
  with_lock l body o h
  = ((body o (h ++ [EvAcquire l])).1,
     EvAcquire l :: (body o (h ++ [EvAcquire l])).2 ++ [EvRelease l]).
Proof.
  unfold with_lock. m_eval. destruct (body o (h ++ [EvAcquire l])). reflexivity.
Qed.

Lemma engine_no_locks t :
  Forall (λ ev, is_engine_event ev = true) t → lock_events t = [].
Proof.
  unfold lock_events. induction 1 as [|ev t Hev _ IH]; [reflexivity|].
  cbn [List.filter]. rewrite IH. destruct ev; try discriminate Hev; reflexivity.
Qed.

Lemma lock_events_app t1 t2 : lock_events (t1 ++ t2) = lock_events t1 ++ lock_events t2.
Proof. apply List.filter_app. Qed.

Lemma container_status_run name o h :
  container_status name o h
  = (match o_status o h name with
     | IState b => Ok {| exists_ := true; running := b |}
     | INotFound => Ok {| exists_ := false; running := false |}
     | IError text => Raise (DockerError text)
     end, [EvStatus name (o_status o h name)]).
Proof. unfold container_status. m_eval. destruct (o_status o h name); reflexivity. Qed.

Lemma probe_running_run pol bk model_id o h :
  probe_running pol bk model_id o h
  = (Ok (if o_healthy o h bk (HEALTH_PROBE_TIMEOUT_S pol) then None
         else Some (unhealthy_error model_id)),
     [EvWaitHealthy bk (HEALTH_PROBE_TIMEOUT_S pol)
        (o_healthy o h bk (HEALTH_PROBE_TIMEOUT_S pol))]).
Proof. unfold probe_running. m_eval. reflexivity. Qed.

Lemma lock_events_cons ev t :
  lock_events (ev :: t) = (if is_lock_event ev then [ev] else []) ++ lock_events t.
Proof. unfold lock_events. cbn [List.filter]. destruct (is_lock_event ev); reflexivity. Qed.

Ltac locks_simpl :=
  repeat first [ rewrite lock_events_app | rewrite lock_events_cons ];
  cbn [is_lock_event app];
  change (lock_events []) with (@nil Event); rewrite ?app_nil_r.

Lemma bring_online_locks pol bk meta role o h :
  let locks := lock_events (bring_online pol bk meta role o h).2 in
  locks = []
  ∨ locks = [EvAcquire (backend_lock bk); EvRelease (backend_lock bk)]
  ∨ locks = [EvAcquire (backend_lock bk); EvAcquire (gpu_lock (gpu meta));
             EvRelease (gpu_lock (gpu meta)); EvRelease (backend_lock bk)].
Proof.
  cbv zeta. unfold bring_online, mbind, M_bind.
  rewrite m_bind_run, container_status_run.
  destruct (o_status o h (container meta)) as [|[|]|text]; cbn [negb exists_ running fst snd].
  - left. reflexivity.
  - left. rewrite probe_running_run. reflexivity.
  - right. rewrite with_lock_run, m_bind_run, container_status_run.
    set (h1 := (h ++ [EvStatus (container meta) (IState false)]) ++ [EvAcquire (backend_lock bk)]).
    destruct (o_status o h1 (container meta)) as [|[|]|text]; cbn [negb exists_ running fst snd].
    2: left; rewrite probe_running_run; reflexivity.
    3: left; reflexivity.
    all: right; rewrite with_lock_run; cbn [snd]; locks_simpl;
      rewrite (engine_no_locks _ (gpu_section_engine pol bk meta role o _)); reflexivity.
  - left. reflexivity.
Qed.

Lemma ensure_online_backend_run pol bk meta role o h :
  assoc_get bk BACKENDS = Some meta →
  let st := o_state o h in
  ensure_online_backend pol bk role o h
  = match sum_inflight st (MODEL_BACKENDS_get (model meta)) with
    | Raise e => (Raise e, [EvReadState st])
    | Ok n =>
        if (model_cap pol (model meta) <=? n)%Z
        then (Ok (Some (rate_limited_error (model meta) n (model_cap pol (model meta)))),
              [EvReadState st])
        else ((bring_online pol bk meta role o (h ++ [EvReadState st])).1,
              EvReadState st :: (bring_online pol bk meta role o (h ++ [EvReadState st])).2)
    end.
Proof.
  intros Hreg. cbv zeta. unfold ensure_online_backend, model_cap.
  rewrite (BACKENDS_at_registered _ _ Hreg). m_eval. rewrite ?app_nil_r.
  destruct (sum_inflight _ _) as [n|e]; m_eval; [|reflexivity].
  destruct (_ <=? n)%Z; m_eval; [reflexivity|].
  destruct (bring_online pol bk meta role o _) as [r t]. reflexivity.
Qed.

(** X1: whatever the engine and the prober answer, and on every outcome,
    exceptions included, an invocation of the controller takes no lock at
    all, or the lock of its backend alone, or the lock of its backend and
    then the lock of its GPU; what it takes it releases before it ends, in
    the reverse order. *)
Theorem ensure_online_backend_lock_discipline pol o h bk meta role :
  assoc_get bk BACKENDS = Some meta →
  let locks := lock_events (ensure_online_backend pol bk role o h).2 in
  locks = []
  ∨ locks = [EvAcquire (backend_lock bk); EvRelease (backend_lock bk)]
  ∨ locks = [EvAcquire (backend_lock bk); EvAcquire (gpu_lock (gpu meta));
             EvRelease (gpu_lock (gpu meta)); EvRelease (backend_lock bk)].
Proof.
  intros Hreg. cbv zeta. rewrite (ensure_online_backend_run _ _ _ _ _ _ Hreg). cbv zeta.
  destruct (sum_inflight _ _) as [n|e]; [|left; reflexivity].
  destruct (_ <=? n)%Z; [left; reflexivity|].
  cbn [snd]. locks_simpl. apply bring_online_locks.
Qed.

Lemma ensure_online_backend_lock_discipline_witness :
  lock_events (run (ensure_online_backend default_policy "llama31-8b-instruct@0" "webui")
                   oracle_cold).2
  = [EvAcquire (backend_lock "llama31-8b-instruct@0"); EvAcquire (gpu_lock "0");
     EvRelease (gpu_lock "0"); EvRelease (backend_lock "llama31-8b-instruct@0")].
Proof.
  destruct (ensure_online_backend_lock_discipline default_policy oracle_cold []
              "llama31-8b-instruct@0" _ "webui" eq_refl) as [H|[H|H]].
  - vm_compute in H. discriminate H.
  - vm_compute in H. discriminate H.
  - exact H.
Defined.

Lemma ends_with_probe_prefix pol bk role t1 t2 :
  ends_with_probe pol bk role t2 → ends_with_probe pol bk role (t1 ++ t2).
Proof.
  intros (pre & t & rel & -> & Hrel & Ht). exists (t1 ++ pre), t, rel.
  rewrite <- app_assoc. auto.
Qed.

Lemma Gated_bind {A} pol bk role (m : M A) f :
  (∀ a, Gated pol bk role (f a)) → Gated pol bk role (m_bind m f).
Proof.
  intros Hf o h. rewrite m_bind_run. destruct (m o h) as [[a|e] t1]; cbn [fst snd].
  - intros Hr. apply ends_with_probe_prefix. apply Hf. exact Hr.
  - discriminate.
Qed.

Lemma Gated_with_lock pol bk role l m :
  Gated pol bk role m → Gated pol bk role (with_lock l m).
Proof.
  intros Hm o h. rewrite with_lock_run. cbn [fst snd]. intros Hr.
  destruct (Hm _ _ Hr) as (pre & t & rel & -> & Hrel & Ht).
  exists (EvAcquire l :: pre), t, (rel ++ [EvRelease l]). split; [|split; [|exact Ht]].
  - cbn [app]. rewrite <- app_assoc. reflexivity.
  - apply Forall_app. split; [exact Hrel|]. repeat constructor. eexists; reflexivity.
Qed.

Lemma Gated_error pol bk role e : Gated pol bk role (m_ret (Some e)).
Proof. intros o h [=]. Qed.

Lemma Gated_probe pol bk role timeout_s k :
  timeout_s = HEALTH_PROBE_TIMEOUT_S pol ∨ timeout_s = warmup_timeout_for_role pol role →
  Gated pol bk role k →
  Gated pol bk role
    (m_bind (wait_until_healthy bk timeout_s) (λ ok : bool, if ok then m_ret None else k)).
Proof.
  intros Ht Hk o h. rewrite m_bind_run. unfold wait_until_healthy, ask.
  cbn [fst snd]. destruct (o_healthy o h bk timeout_s).
  - intros _. exists [], timeout_s, []. cbn. auto.
  - intros Hr. apply ends_with_probe_prefix. apply Hk. exact Hr.
Qed.

Lemma probe_running_gated pol bk role model_id :
  Gated pol bk role (probe_running pol bk model_id).
Proof.
  intros o h. rewrite probe_running_run. cbn [fst snd].
  destruct (o_healthy o h bk _); [|discriminate].
  intros _. exists [], (HEALTH_PROBE_TIMEOUT_S pol), []. cbn. auto.
Qed.

Create HintDb gated discriminated.

#[local] Hint Resolve Gated_error probe_running_gated : gated.

Ltac gated_walk :=
  unfold mbind, M_bind, mret, M_ret;
  repeat first
    [ assumption
    | solve [auto 1 with gated nocore]
    | apply Gated_with_lock
    | apply Gated_probe; [auto|]
    | apply Gated_bind; intro
    | match goal with
      | |- Gated _ _ _ (if ?b then _ else _) => destruct b
      | |- Gated _ _ _ (match ?x with _ => _ end) => destruct x
      end ].

Lemma start_attempts_gated pol bk meta role n last_err :
  Gated pol bk role (start_attempts pol bk meta role n last_err).
Proof.
  revert last_err. induction n as [|n IH]; intros last_err; cbn [start_attempts];
    gated_walk; apply IH.
Qed.

#[local] Hint Resolve start_attempts_gated : gated.

Lemma startup_tail_gated pol bk meta role : Gated pol bk role (startup_tail pol bk meta role).
Proof. unfold startup_tail. gated_walk. Qed.

#[local] Hint Resolve startup_tail_gated : gated.

Lemma gpu_section_gated pol bk meta role : Gated pol bk role (gpu_section pol bk meta role).
Proof. unfold gpu_section, on_gpu_busy. gated_walk. Qed.

#[local] Hint Resolve gpu_section_gated : gated.

Lemma bring_online_gated pol bk meta role : Gated pol bk role (bring_online pol bk meta role).
Proof. unfold bring_online. gated_walk. Qed.

#[local] Hint Resolve bring_online_gated : gated.

(** X2: the controller grants admission (returns no error) only on a
    successful health wait on the backend itself, with the probe timeout
    or the warmup timeout of the role; after that wait it only releases
    locks. *)
Theorem ensure_online_backend_ready_after_probe pol o h bk role :
  (ensure_online_backend pol bk role o h).1 = Ok None →
  ends_with_probe pol bk role (ensure_online_backend pol bk role o h).2.
Proof.
  revert o h. change (Gated pol bk role (ensure_online_backend pol bk role)).
  unfold ensure_online_backend. gated_walk.
Qed.

Lemma ensure_online_backend_ready_after_probe_witness :
  ends_with_probe default_policy "bge-m3@1" "n8n"
    (run (ensure_online_backend default_policy "bge-m3@1" "n8n") oracle_warm).2.
Proof.
  apply (ensure_online_backend_ready_after_probe default_policy oracle_warm []).
  reflexivity.
Defined.

(** *** Start attempts *)

Lemma start_calls_app t1 t2 : start_calls (t1 ++ t2) = (start_calls t1 + start_calls t2)%nat.
Proof. unfold start_calls. rewrite List.filter_app, length_app. reflexivity. Qed.

Lemma no_start_calls t :
  Forall (λ ev, is_start_event ev = false) t → start_calls t = 0%nat.
Proof.
  unfold start_calls. induction 1 as [|ev t Hev _ IH]; [reflexivity|].
  cbn [List.filter]. rewrite Hev. exact IH.
Qed.

Lemma stop_container_no_start pol name timeout o h :
  Forall (λ ev, is_start_event ev = false) (stop_container pol name timeout o h).2.
Proof.
  eapply Forall_impl; [apply stop_container_events|].
  intros ev [_ H]. destruct ev; try discriminate H; reflexivity.
Qed.

Lemma start_attempts_step pol bk meta role n last_err o h :
  let c := container meta in
  let t := warmup_timeout_for_role pol role in
  start_attempts pol bk meta role (S n) last_err o h
  = match o_start o h c with
    | Some text =>
        let rec := start_attempts pol bk meta role n (Some text) o
                     (h ++ [EvStart c (Some text); EvSleep 2]) in
        (rec.1, EvStart c (Some text) :: EvSleep 2 :: rec.2)
    | None =>
        if o_healthy o (h ++ [EvStart c None]) bk t
        then (Ok None, [EvStart c None; EvWaitHealthy bk t true])
        else
          let stop := (stop_container pol c None o
                         (h ++ [EvStart c None; EvWaitHealthy bk t false])).2 in
          let rec := start_attempts pol bk meta role n last_err o
                       (h ++ [EvStart c None; EvWaitHealthy bk t false] ++ stop ++ [EvSleep 2]) in
          (rec.1, [EvStart c None; EvWaitHealthy bk t false] ++ stop ++ EvSleep 2 :: rec.2)
    end.
Proof.
  cbv zeta. cbn [start_attempts]. m_eval. rewrite ?app_nil_r.
  destruct (o_start o h (container meta)) as [text|]; m_eval.
  - rewrite <- ?app_assoc. cbn [app format_exc].
    destruct (start_attempts pol bk meta role n (Some text) o _). reflexivity.
  - destruct (o_healthy o _ bk _); m_eval; [reflexivity|].
    rewrite <- ?app_assoc. cbn [app].
    destruct (stop_container pol (container meta) None o _) as [x stop]. m_eval.
    rewrite <- ?app_assoc. cbn [app].
    destruct (start_attempts pol bk meta role n last_err o _). reflexivity.
Qed.

Lemma start_attempts_count pol bk meta role n last_err o h :
  let r := (start_attempts pol bk meta role n last_err o h).1 in
  let tr := (start_attempts pol bk meta role n last_err o h).2 in
  Forall (λ ev, is_start_event ev = true → event_container ev = Some (container meta)) tr
  ∧ (start_calls tr <= n)%nat
  ∧ (∀ e, r = Ok (Some e) → start_calls tr = n).
Proof.
  cbv zeta. revert last_err h. induction n as [|n IH]; intros last_err h.
  - cbn. repeat split; [constructor | lia].
  - rewrite start_attempts_step. cbv zeta.
    destruct (o_start o h (container meta)) as [text|].
    + destruct (IH (Some text) (h ++ [EvStart (container meta) (Some text); EvSleep 2]))
        as (Hall & Hle & Heq).
      cbn [fst snd]. repeat split.
      * constructor; [reflexivity|]. constructor; [discriminate|]. exact Hall.
      * change (EvStart ?c ?x :: EvSleep 2 :: ?l) with ([EvStart c x; EvSleep 2] ++ l).
        rewrite start_calls_app. cbn. lia.
      * intros e He.
        change (EvStart ?c ?x :: EvSleep 2 :: ?l) with ([EvStart c x; EvSleep 2] ++ l).
        rewrite start_calls_app, (Heq e He). reflexivity.
    + destruct (o_healthy o _ bk _).
      * cbn [fst snd]. repeat split; [repeat constructor; discriminate | cbn; lia | discriminate].
      * set (stop := (stop_container pol (container meta) None o _).2).
        pose proof (stop_container_no_start pol (container meta) None o
                      (h ++ [EvStart (container meta) None;
                             EvWaitHealthy bk (warmup_timeout_for_role pol role) false]))
          as Hstop.
        fold stop in Hstop.
        destruct (IH last_err (h ++ [EvStart (container meta) None;
                                     EvWaitHealthy bk (warmup_timeout_for_role pol role) false]
                                 ++ stop ++ [EvSleep 2])) as (Hall & Hle & Heq).
        cbn [fst snd].
        assert (Hcount : ∀ l, start_calls ([EvStart (container meta) None;
                    EvWaitHealthy bk (warmup_timeout_for_role pol role) false]
                    ++ stop ++ EvSleep 2 :: l) = S (start_calls l)).
        { intros l. rewrite start_calls_app, start_calls_app, (no_start_calls _ Hstop).
          reflexivity. }
        repeat split.
        -- apply Forall_app. split; [repeat constructor; discriminate|].
           apply Forall_app. split.
           ++ eapply Forall_impl; [exact Hstop|]. intros ev Hev Hs. congruence.
           ++ constructor; [discriminate | exact Hall].
        -- rewrite Hcount. lia.
        -- intros e He. rewrite Hcount, (Heq e He). reflexivity.
Qed.

Lemma start_budget_prefix pol meta r t1 t2 :
  Forall (λ ev, is_start_event ev = false) t1 →
  start_budget pol meta r t2 → start_budget pol meta r (t1 ++ t2).
Proof.
  intros H1 (Hall & Hle & Heq). unfold start_budget.
  rewrite start_calls_app, (no_start_calls _ H1). repeat split; try assumption.
  apply Forall_app. split; [|exact Hall].
  eapply Forall_impl; [exact H1|]. intros ev Hev Hs. congruence.
Qed.

Lemma start_budget_suffix pol meta r t1 t2 :
  start_budget pol meta r t1 →
  Forall (λ ev, is_start_event ev = false) t2 →
  start_budget pol meta r (t1 ++ t2).
Proof.
  intros (Hall & Hle & Heq) H2. unfold start_budget.
  rewrite start_calls_app, (no_start_calls _ H2), Nat.add_0_r. repeat split; try assumption.
  apply Forall_app. split; [exact Hall|].
  eapply Forall_impl; [exact H2|]. intros ev Hev Hs. congruence.
Qed.

Lemma start_budget_none pol meta r t :
  Forall (λ ev, is_start_event ev = false) t →
  (∀ e, r = Ok (Some e) → err_type e ≠ "start_failed") →
  start_budget pol meta r t.
Proof.
  intros Ht Hr. unfold start_budget. rewrite (no_start_calls _ Ht). repeat split.
  - eapply Forall_impl; [exact Ht|]. intros ev Hev Hs. congruence.
  - lia.
  - intros e He Hty. destruct (Hr e He Hty).
Qed.

Lemma Budget_bind {A} pol meta (m : M A) f :
  Only (λ ev, is_start_event ev = false) m →
  (∀ a, Post (start_budget pol meta) (f a)) →
  Post (start_budget pol meta) (m_bind m f).
Proof.
  intros Hm Hf o h. rewrite m_bind_run. specialize (Hm o h).
  destruct (m o h) as [[a|e] t1]; cbn [fst snd] in *.
  - apply start_budget_prefix; [exact Hm | apply Hf].
  - apply start_budget_none; [exact Hm | discriminate].
Qed.

Lemma Budget_ret pol meta x :
  (∀ e, x = Some e → err_type e ≠ "start_failed") →
  Post (start_budget pol meta) (m_ret x).
Proof.
  intros Hx o h. apply start_budget_none; [constructor|].
  intros e [= ->]. apply Hx. reflexivity.
Qed.

Lemma Budget_with_lock pol meta l m :
  Post (start_budget pol meta) m → Post (start_budget pol meta) (with_lock l m).
Proof.
  intros Hm o h. rewrite with_lock_run. cbn [fst snd].
  change (EvAcquire l :: ?t ++ ?u) with ([EvAcquire l] ++ t ++ u).
  apply start_budget_prefix; [repeat constructor|].
  apply start_budget_suffix; [apply Hm | repeat constructor].
Qed.

Lemma probe_running_budget pol meta bk model_id :
  Post (start_budget pol meta) (probe_running pol bk model_id).
Proof.
  intros o h. rewrite probe_running_run. cbn [fst snd].
  apply start_budget_none; [repeat constructor|].
  intros e. destruct (o_healthy o h bk _); intros [= <-]. discriminate.
Qed.

Lemma running_heavy_scan_no_start g except_bk l :
  Only (λ ev, is_start_event ev = false) (running_heavy_scan g except_bk l).
Proof.
  eapply Only_weaken; [|apply running_heavy_scan_status].
  intros [] H; try discriminate H; reflexivity.
Qed.

Lemma stop_embed_rank_loop_no_start pol bks :
  Only (λ ev, is_start_event ev = false) (stop_embed_rank_loop pol bks).
Proof. induction bks as [|bk bks IH]; cbn [stop_embed_rank_loop]; only_walk. Qed.

#[local] Hint Resolve running_heavy_scan_no_start stop_embed_rank_loop_no_start : only.

Create HintDb budget discriminated.

Lemma start_attempts_budget pol bk meta role last_err :
  Post (start_budget pol meta)
       (start_attempts pol bk meta role (Z.to_nat (MAX_START_RETRIES pol)) last_err).
Proof.
  intros o h.
  destruct (start_attempts_count pol bk meta role (Z.to_nat (MAX_START_RETRIES pol))
              last_err o h) as (Hall & Hle & Heq).
  repeat split; [exact Hall | exact Hle |]. intros e He _. exact (Heq e He).
Qed.

#[local] Hint Resolve start_attempts_budget probe_running_budget : budget.

Ltac budget_walk :=
  unfold mbind, M_bind, mret, M_ret;
  repeat first
    [ assumption
    | solve [auto 1 with budget nocore]
    | apply Budget_ret; intros ? [= <-]; discriminate
    | apply Budget_with_lock
    | apply Budget_bind; [solve [only_walk] | intro]
    | match goal with
      | |- Post _ (if ?b then _ else _) => destruct b
      | |- Post _ (match ?x with _ => _ end) => destruct x
      end ].

Lemma startup_tail_budget pol bk meta role :
  Post (start_budget pol meta) (startup_tail pol bk meta role).
Proof. unfold startup_tail. budget_walk. Qed.

#[local] Hint Resolve startup_tail_budget : budget.

Lemma gpu_section_budget pol bk meta role :
  Post (start_budget pol meta) (gpu_section pol bk meta role).
Proof. unfold gpu_section, on_gpu_busy, running_heavy_backend_on_gpu. budget_walk. Qed.

#[local] Hint Resolve gpu_section_budget : budget.

Lemma bring_online_budget pol bk meta role :
  Post (start_budget pol meta) (bring_online pol bk meta role).
Proof. unfold bring_online. budget_walk. Qed.

(** X3: an invocation starts no container but its backend's own, calls
    [start_container] at most [MAX_START_RETRIES] times, and reports
    start_failed only after exactly that many calls. *)
Theorem ensure_online_backend_start_budget pol o h bk meta role :
  assoc_get bk BACKENDS = Some meta →
  start_budget pol meta (ensure_online_backend pol bk role o h).1
                        (ensure_online_backend pol bk role o h).2.
Proof.
  intros Hreg. rewrite (ensure_online_backend_run _ _ _ _ _ _ Hreg). cbv zeta.
  destruct (sum_inflight _ _) as [n|e].
  - destruct (_ <=? n)%Z; cbn [fst snd].
    + apply start_budget_none; [repeat constructor|]. intros e [= <-]. discriminate.
    + change (EvReadState ?s :: ?t) with ([EvReadState s] ++ t).
      apply start_budget_prefix; [repeat constructor | apply bring_online_budget].
  - apply start_budget_none; [repeat constructor | discriminate].
Qed.

Lemma ensure_online_backend_start_budget_witness :
  start_calls (run (ensure_online_backend default_policy "llama31-8b-instruct@0" "webui")
                   oracle_cold).2 = 3%nat.
Proof.
  destruct (ensure_online_backend_start_budget default_policy oracle_cold []
              "llama31-8b-instruct@0" _ "webui" eq_refl) as (_ & _ & Heq).
  eapply Heq; vm_compute; reflexivity.
Defined.


(** *** The errors of the controller *)

Ltac error_leaves :=
  try (apply Returns_ret; intros e He;
       repeat match type of He with
              | context [if ?b then _ else _] => destruct b
              end;
       try discriminate He; injection He as <-; cbn; auto).

Lemma start_attempts_errors pol bk meta role n last_err :
  Returns start_path_error (start_attempts pol bk meta role n last_err).
Proof.
  revert last_err. induction n as [|n IH]; intros last_err; cbn [start_attempts];
    returns_walk; error_leaves.
  all: apply IH.
Qed.

Lemma startup_tail_errors pol bk meta role :
  Returns start_path_error (startup_tail pol bk meta role).
Proof. unfold startup_tail. returns_walk; apply start_attempts_errors. Qed.

Lemma gpu_section_errors pol bk meta role :
  Returns start_path_error (gpu_section pol bk meta role).
Proof.
  pose proof (startup_tail_errors pol bk meta role).
  unfold gpu_section, on_gpu_busy. returns_walk; error_leaves.
Qed.

Lemma locked_section_errors pol bk meta role :
  Returns start_path_error
    (with_lock (backend_lock bk)
      (st2 ← container_status (container meta);
       if running st2 then probe_running pol bk (model meta)
       else with_lock (gpu_lock (gpu meta)) (gpu_section pol bk meta role))).
Proof.
  pose proof (gpu_section_errors pol bk meta role).
  returns_walk; error_leaves.
Qed.

Lemma bring_online_run pol bk meta role o h :
  let c := container meta in
  bring_online pol bk meta role o h
  = match o_status o h c with
    | INotFound => (Ok (Some (container_missing_error meta)), [EvStatus c INotFound])
    | IError text => (Raise (DockerError text), [EvStatus c (IError text)])
    | IState true =>
        let r := probe_running pol bk (model meta) o (h ++ [EvStatus c (IState true)]) in
        (r.1, EvStatus c (IState true) :: r.2)
    | IState false =>
        let r := with_lock (backend_lock bk)
                   (st2 ← container_status (container meta);
                    if running st2 then probe_running pol bk (model meta)
                    else with_lock (gpu_lock (gpu meta)) (gpu_section pol bk meta role))
                   o (h ++ [EvStatus c (IState false)]) in
        (r.1, EvStatus c (IState false) :: r.2)
    end.
Proof.
  cbv zeta. unfold bring_online, mbind at 1, M_bind at 1.
  rewrite m_bind_run, container_status_run.
  destruct (o_status o h (container meta)) as [|[|]|text]; reflexivity.
Qed.

(** X4: every error the controller returns is one of rate_limited (429),
    container_missing (409), and unhealthy, gpu_busy or start_failed
    (503). *)
Theorem ensure_online_backend_errors pol o h bk role e :
  (ensure_online_backend pol bk role o h).1 = Ok (Some e) → controller_error e.
Proof.
  destruct (BACKENDS_at bk) as [meta|x] eqn:Hat.
  2: { unfold ensure_online_backend. rewrite Hat. discriminate. }
  assert (Hreg : assoc_get bk BACKENDS = Some meta).
  { unfold BACKENDS_at in Hat. destruct (assoc_get bk BACKENDS); congruence. }
  rewrite (ensure_online_backend_run _ _ _ _ _ _ Hreg). cbv zeta.
  destruct (sum_inflight _ _) as [n|x]; [|discriminate].
  destruct (_ <=? n)%Z; cbn [fst].
  - intros [= <-]. left. auto.
  - rewrite bring_online_run. cbv zeta.
    destruct (o_status _ _ _) as [|[|]|text]; cbn [fst].
    + intros [= <-]. right. left. auto.
    + rewrite probe_running_run. cbn [fst].
      destruct (o_healthy _ _ _ _); intros [= <-]. right. right. cbn. auto.
    + intros He. right. right.
      exact (locked_section_errors pol bk meta role o _ _ He e eq_refl).
    + discriminate.
Qed.

Lemma ensure_online_backend_errors_witness :
  controller_error (container_missing_error
                      (mk "bge-m3" "embeddings" "1" "throughput" "http://bge_embed_1:8000/v1"
                          "bge_embed_1")).
Proof.
  apply (ensure_online_backend_errors default_policy oracle_absent [] "bge-m3@1" "n8n").
  reflexivity.
Defined.

(** X5: the controller answers container_missing exactly when the first
    inspection of the container, made right after the cap check, finds no
    container; the invocation then does nothing else.  A container that
    is gone only at the recheck under the lock is not reported missing. *)
Theorem ensure_online_backend_container_missing pol o h bk meta role :
  assoc_get bk BACKENDS = Some meta →
  let r := (ensure_online_backend pol bk role o h).1 in
  let tr := (ensure_online_backend pol bk role o h).2 in
  let absent := [EvReadState (o_state o h); EvStatus (container meta) INotFound] in
  ((∃ e, r = Ok (Some e) ∧ err_type e = "container_missing") ↔ tr = absent)
  ∧ (tr = absent → r = Ok (Some (container_missing_error meta))).
Proof.
  intros Hreg. cbv zeta. rewrite (ensure_online_backend_run _ _ _ _ _ _ Hreg). cbv zeta.
  destruct (sum_inflight _ _) as [n|x].
  2: { cbn [fst snd]. repeat split; [intros (e & [=] & _) | intros [=] | intros [=]]. }
  destruct (_ <=? n)%Z; cbn [fst snd].
  { repeat split; [intros (e & [= <-] & [=]) | intros [=] | intros [=]]. }
  rewrite bring_online_run. cbv zeta.
  destruct (o_status _ _ _) as [|[|]|text]; cbn [fst snd].
  - repeat split; eauto.
  - rewrite probe_running_run. cbn [fst snd].
    repeat split; [| intros [=] | intros [=]].
    intros (e & He & Hty). destruct (o_healthy _ _ _ _); [discriminate He|].
    injection He as <-. discriminate Hty.
  - repeat split; [| intros [=] | intros [=]].
    intros (e & He & Hty).
    destruct (locked_section_errors pol bk meta role o _ _ He e eq_refl) as (_ & [H|[H|H]]);
      rewrite H in Hty; discriminate Hty.
  - repeat split; [intros (e & [=] & _) | intros [=] | intros [=]].
Qed.

Lemma ensure_online_backend_container_missing_witness :
  (run (ensure_online_backend default_policy "bge-m3@1" "n8n") oracle_absent).2
  = [EvReadState initial_state; EvStatus "bge_embed_1" INotFound].
Proof.
  apply (ensure_online_backend_container_missing default_policy oracle_absent []
           "bge-m3@1" _ "n8n" eq_refl).
  eexists. split; reflexivity.
Defined.

(** *** What an invocation stops *)

Lemma Only_bind_lift {A B} (T : Event → Prop) (x : Exc A) (f : A → M B) :
  (∀ a, x = Ok a → Only T (f a)) → Only T (m_bind (lift x) f).
Proof.
  intros Hf o h. rewrite m_bind_run. unfold lift. destruct x as [a|e]; cbn [snd].
  - apply (Hf a eq_refl).
  - constructor.
Qed.

Lemma Only_bind_returns {A B} (T : Event → Prop) (R : A → Prop) (m : M A) (f : A → M B) :
  Only T m → Returns R m → (∀ a, R a → Only T (f a)) → Only T (m_bind m f).
Proof.
  intros Hm HR Hf o h. rewrite m_bind_run. specialize (Hm o h). specialize (HR o h).
  destruct (m o h) as [[a|e] t1]; cbn [fst snd] in *; [|exact Hm].
  apply Forall_app. split; [exact Hm|]. apply Hf. apply HR. reflexivity.
Qed.

Lemma Only_stop_container P pol name timeout :
  P name → Only (stops_to P) (stop_container pol name timeout).
Proof.
  intros HP o h. eapply Forall_impl; [apply stop_container_events|].
  intros ev [Hc _] _. exists name. auto.
Qed.

Lemma Only_no_stop {A} P (m : M A) :
  Only (λ ev, is_stop_event ev = false) m → Only (stops_to P) m.
Proof. apply Only_weaken. intros ev H H'. congruence. Qed.

Lemma running_heavy_scan_no_stop g except_bk l :
  Only (λ ev, is_stop_event ev = false) (running_heavy_scan g except_bk l).
Proof.
  eapply Only_weaken; [|apply running_heavy_scan_status].
  intros [] H; try discriminate H; reflexivity.
Qed.

#[local] Hint Resolve running_heavy_scan_no_stop : only.

(** The scan returns a chat backend of the GPU, other than the excepted one. *)
Lemma running_heavy_scan_result g bk l :
  truthy (Some bk) = true →
  Returns (λ r, ∀ b, r = Some b →
             b ≠ bk ∧ ∃ meta, In (b, meta) l ∧ gpu meta = g ∧ kind meta = "chat")
          (running_heavy_scan g (Some bk) l).
Proof.
  intros Htruthy. induction l as [|[b meta] l IH]; cbn [running_heavy_scan].
  - apply Returns_ret. intros b [=].
  - assert (Hrest : Returns (λ r, ∀ b0, r = Some b0 →
                        b0 ≠ bk ∧ ∃ meta0, In (b0, meta0) ((b, meta) :: l)
                                    ∧ gpu meta0 = g ∧ kind meta0 = "chat")
                      (running_heavy_scan g (Some bk) l)).
    { intros o h a Ha b0 Hb. destruct (IH o h a Ha b0 Hb) as (Hne & m & Hm & Hg & Hk).
      split; [exact Hne|]. exists m. split; [right; exact Hm | auto]. }
    destruct (String.eqb_spec (gpu meta) g) as [Hg|Hg]; cbn [negb]; [|exact Hrest].
    rewrite Htruthy. cbn [andb].
    destruct (bool_decide (Some b = Some bk)) eqn:Hdec; [exact Hrest|].
    apply bool_decide_eq_false in Hdec.
    destruct (String.eqb_spec (kind meta) "chat") as [Hk|Hk]; cbn [negb]; [|exact Hrest].
    returns_walk. apply Returns_ret. intros b0 [= <-]. split; [congruence|].
    exists meta. split; [left; reflexivity | auto].
Qed.

Create HintDb stops discriminated.

Ltac stops_walk :=
  unfold mbind, M_bind, mret, M_ret;
  repeat first
    [ assumption
    | solve [auto 1 with stops nocore]
    | apply Only_no_stop; solve [only_walk]
    | apply Only_stop_container
    | apply Only_try
    | apply Only_finally
    | apply Only_bind_lift; intros ? ?
    | apply Only_bind; [| intro]
    | match goal with
      | |- Only _ (if ?b then _ else _) => destruct b eqn:?
      | |- Only _ (match ?x with _ => _ end) => destruct x eqn:?
      end ].

Lemma start_attempts_stops pol bk meta role n last_err :
  Only (stops_to (stop_target pol bk role meta)) (start_attempts pol bk meta role n last_err).
Proof.
  revert last_err. induction n as [|n IH]; intros last_err; cbn [start_attempts];
    stops_walk; try apply IH.
  left. reflexivity.
Qed.

Lemma stop_embed_rank_loop_stops pol bk role meta :
  displaces pol meta = true →
  Only (stops_to (stop_target pol bk role meta))
       (stop_embed_rank_loop pol ["bge-m3@1"; "bge-reranker@1"]).
Proof.
  intros Hd. cbn [stop_embed_rank_loop]. stops_walk.
  all: repeat match goal with
              | H : BACKENDS_at _ = Ok _ |- _ => vm_compute in H; injection H as <-
              end.
  all: right; left; auto.
Qed.

#[local] Hint Resolve start_attempts_stops : stops.

Lemma startup_tail_stops pol bk meta role :
  Only (stops_to (stop_target pol bk role meta)) (startup_tail pol bk meta role).
Proof.
  unfold startup_tail. fold (displaces pol meta).
  destruct (displaces pol meta) eqn:Hd.
  - pose proof (stop_embed_rank_loop_stops pol bk role meta Hd).
    unfold stop_gpu1_embed_rank_best_effort. stops_walk.
  - stops_walk.
Qed.

#[local] Hint Resolve startup_tail_stops : stops.

Lemma on_gpu_busy_stops pol bk meta role busy_bk :
  (busy_bk ≠ bk ∧ ∃ m, In (busy_bk, m) BACKENDS ∧ gpu m = gpu meta ∧ kind m = "chat") →
  Only (stops_to (stop_target pol bk role meta)) (on_gpu_busy pol bk meta role busy_bk).
Proof.
  intros (Hne & m & Hin & Hg & Hk). unfold on_gpu_busy. fold (may_preempt pol role meta).
  destruct (String.eqb role "webui" && WEBUI_FAIL_FAST_IF_GPU_BUSY pol); [stops_walk|].
  destruct (may_preempt pol role meta) eqn:Hp; stops_walk.
  right. right. split; [exact Hp|]. exists busy_bk, a. repeat split; auto.
  - unfold BACKENDS_at in H. destruct (assoc_get busy_bk BACKENDS); congruence.
  - apply registry_registered in Hin. cbn [fst snd] in Hin.
    unfold BACKENDS_at in H. rewrite Hin in H. injection H as <-. exact Hg.
  - apply registry_registered in Hin. cbn [fst snd] in Hin.
    unfold BACKENDS_at in H. rewrite Hin in H. injection H as <-. exact Hk.
Qed.

Lemma gpu_section_stops pol bk meta role :
  truthy (Some bk) = true →
  Only (stops_to (stop_target pol bk role meta)) (gpu_section pol bk meta role).
Proof.
  intros Htruthy. unfold gpu_section, mbind, M_bind.
  apply Only_bind; [apply Only_no_stop; only_walk|]. intros [|]; [|stops_walk].
  eapply Only_bind_returns.
  - apply Only_no_stop. unfold running_heavy_backend_on_gpu. only_walk.
  - unfold running_heavy_backend_on_gpu. apply (running_heavy_scan_result _ _ _ Htruthy).
  - intros [busy_bk|] Hres; cbn beta.
    + destruct (truthy (Some busy_bk)); [|stops_walk].
      apply on_gpu_busy_stops. exact (Hres busy_bk eq_refl).
    + destruct (truthy None); stops_walk.
Qed.

Lemma bring_online_stops pol bk meta role :
  truthy (Some bk) = true →
  Only (stops_to (stop_target pol bk role meta)) (bring_online pol bk meta role).
Proof.
  intros Htruthy. pose proof (gpu_section_stops pol bk meta role Htruthy).
  unfold bring_online, with_lock. stops_walk.
Qed.

Lemma ensure_online_backend_stops pol bk meta role :
  assoc_get bk BACKENDS = Some meta →
  Only (stops_to (stop_target pol bk role meta)) (ensure_online_backend pol bk role).
Proof.
  intros Hreg o h. rewrite (ensure_online_backend_run _ _ _ _ _ _ Hreg). cbv zeta.
  assert (Hread : ∀ st, stops_to (stop_target pol bk role meta) (EvReadState st))
    by (intros st; discriminate).
  destruct (sum_inflight _ _) as [n|e]; [|repeat constructor; apply Hread].
  destruct (_ <=? n)%Z; cbn [snd]; [repeat constructor; apply Hread|].
  constructor; [apply Hread|].
  apply (bring_online_stops pol bk meta role (registered_truthy _ _ Hreg)).
Qed.

(** X6: an invocation for [bk] calls [stop_container] only on its own
    container, on the embedding and rerank containers when it displaces
    them (line 382), and, when the caller may preempt (automation role,
    GPU 1, flag on), on another chat backend of its GPU. *)
Theorem ensure_online_backend_stop_targets pol o h bk meta role :
  assoc_get bk BACKENDS = Some meta →
  Forall (stops_to (stop_target pol bk role meta)) (ensure_online_backend pol bk role o h).2.
Proof. intros Hreg. apply (ensure_online_backend_stops pol bk meta role Hreg). Qed.

Lemma ensure_online_backend_stop_targets_witness :
  Forall (stops_to (stop_target default_policy "llama31-8b-instruct@1" "n8n"
                      (mk "llama31-8b-instruct" "chat" "1" "throughput"
                          "http://llama_1:8000/v1" "llama_1")))
         (run (ensure_online_backend default_policy "llama31-8b-instruct@1" "n8n")
              oracle_cold).2.
Proof.
  apply (ensure_online_backend_stop_targets default_policy oracle_cold []
           "llama31-8b-instruct@1" _ "n8n" eq_refl).
Defined.

(** X7: every container an invocation calls [stop_container] on belongs
    to a registered backend on the GPU of the invocation's backend. *)
Theorem ensure_online_backend_stops_same_gpu pol o h bk meta role :
  assoc_get bk BACKENDS = Some meta →
  Forall (stops_to (λ c, ∃ b m, assoc_get b BACKENDS = Some m ∧ container m = c
                                ∧ gpu m = gpu meta))
         (ensure_online_backend pol bk role o h).2.
Proof.
  intros Hreg. eapply Forall_impl; [apply (ensure_online_backend_stops pol bk meta role Hreg)|].
  intros ev Hev Hstop. destruct (Hev Hstop) as (c & Hc & Htarget). exists c. split; [exact Hc|].
  destruct Htarget as [-> | [(Hd & Hbge) | (_ & b & m & Hb & _ & Hg & _ & ->)]].
  - exists bk, meta. auto.
  - unfold displaces in Hd. apply andb_prop in Hd as [Hd _]. apply andb_prop in Hd as [_ Hd].
    apply String.eqb_eq in Hd. rewrite Hd.
    destruct Hbge as [-> | ->]; [exists "bge-m3@1" | exists "bge-reranker@1"];
      eexists; repeat split; reflexivity.
  - exists b, m. auto.
Qed.

Lemma ensure_online_backend_stops_same_gpu_witness :
  Forall (stops_to (λ c, ∃ b m, assoc_get b BACKENDS = Some m ∧ container m = c
                                ∧ gpu m = "1"))
         (run (ensure_online_backend default_policy "llama31-8b-instruct@1" "n8n")
              oracle_cold).2.
Proof.
  apply (ensure_online_backend_stops_same_gpu default_policy oracle_cold []
           "llama31-8b-instruct@1" _ "n8n" eq_refl).
Defined.


(** ** The engine adapter *)

(** X8: [stop_container] raises only when the lookup of the container
    fails, and then does nothing else; once the container is found it
    issues a graceful stop with the timeout given (the configured one by
    default), issues a kill exactly when that stop failed, swallows the
    failure of the kill, and makes at most three engine calls. *)
Theorem stop_container_escalates pol name timeout o h :
  let t := default (CONTAINER_STOP_TIMEOUT_S pol) timeout in
  let r := (stop_container pol name timeout o h).1 in
  let tr := (stop_container pol name timeout o h).2 in
  (r = Ok tt ∨ ∃ text, r = Raise (DockerError text) ∧ tr = [EvGet name (Some text)])
  ∧ (r = Ok tt → ∃ s, In (EvStop name t s) tr)
  ∧ (∀ k, In (EvKill name k) tr → ∃ text, In (EvStop name t (Some text)) tr)
  ∧ (∀ text, In (EvStop name t (Some text)) tr → ∃ k, In (EvKill name k) tr)
  ∧ (length tr <= 3)%nat.
Proof.
  cbv zeta. unfold stop_container. m_eval. rewrite ?app_nil_r.
  destruct (o_get o h name) as [text|]; m_eval.
  { repeat split.
    - right. exists text. auto.
    - discriminate.
    - intros k [[=]|[]].
    - intros s [[=]|[]].
    - cbn. lia. }
  destruct (o_stop o _ name _) as [text|] eqn:Hstop; m_eval.
  - destruct (o_kill o _ name) as [k|]; m_eval.
    all: repeat split; [left; reflexivity | intros _; eexists; right; left; reflexivity
                        | intros k' _; eexists; right; left; reflexivity
                        | intros s _; eexists; right; right; left; reflexivity
                        | cbn; lia].
  - repeat split.
    + left. reflexivity.
    + intros _. eexists. right. left. reflexivity.
    + intros k [[=]|[[=]|[]]].
    + intros s [[=]|[[=]|[]]].
    + cbn. lia.
Qed.

(** ** The sweeper, continued *)

Lemma sweep_sweeper_events pol st now l :
  Only (λ ev, is_sweeper_event ev = true) (sweep pol st now l).
Proof. induction l as [|[bk meta] l IH]; cbn [sweep]; only_walk. Qed.

#[local] Hint Resolve sweep_sweeper_events : only.

Lemma ttl_sweeper_tick_events pol :
  Only (λ ev, is_sweeper_event ev = true) (ttl_sweeper_tick pol).
Proof. unfold ttl_sweeper_tick. only_walk. Qed.

#[local] Hint Resolve ttl_sweeper_tick_events : only.

(** X9: the sweeper never starts a container, takes no lock, probes no
    backend, calls no proxy and writes none of the shared dictionaries:
    it sleeps, reads the clock and the dictionaries, inspects containers
    and stops them. *)
Theorem ttl_sweeper_events pol ticks o h :
  Forall (λ ev, is_sweeper_event ev = true) (ttl_sweeper pol ticks o h).2.
Proof.
  revert o h. change (Only (λ ev, is_sweeper_event ev = true) (ttl_sweeper pol ticks)).
  induction ticks as [|n IH]; cbn [ttl_sweeper]; only_walk.
Qed.

(** The outcome of a run of the sweeper's code: it went through, and no
    inspection failed, or it ended on the first inspection that failed. *)
Lemma sweep_outcome pol st now l o h :
  (∀ kv, In kv l → assoc_get kv.1 BACKENDS = Some kv.2) →
  sweeper_outcome (sweep pol st now l o h).1 (sweep pol st now l o h).2.
Proof.
  revert h. induction l as [|[bk meta] l IH]; intros h Hreg.
  - left. split; [reflexivity | constructor].
  - assert (Hregl : ∀ kv, In kv l → assoc_get kv.1 BACKENDS = Some kv.2)
      by (intros kv Hkv; apply Hreg; right; exact Hkv).
    destruct (not_error_cases (o_status o h (container meta))) as [[text Hst]|Hok].
    + rewrite (sweep_step_error _ _ _ _ _ _ _ _ _ Hst). right.
      exists [], (container meta), text. repeat split. constructor.
    + rewrite (sweep_step _ _ _ _ _ _ _ _ _ (Hreg (bk, meta) (or_introl eq_refl)) eq_refl Hok).
      cbv zeta. cbn [fst snd].
      set (r := o_status o h (container meta)) in *.
      set (stop := if reports_running r && sweep_decides pol st now bk meta
                   then (stop_container pol (container meta) None o
                           (h ++ [EvStatus (container meta) r])).2
                   else []).
      assert (Hhead : Forall (λ ev, inspect_failed ev = false)
                        (EvStatus (container meta) r :: stop)).
      { constructor.
        - destruct r as [| |text]; try reflexivity. destruct (Hok text eq_refl).
        - subst stop. destruct (_ && _); [|constructor].
          eapply Forall_impl; [apply stop_container_events|].
          intros ev [_ H]. destruct ev; try discriminate H; reflexivity. }
      destruct (IH (h ++ EvStatus (container meta) r :: stop) Hregl)
        as [[Hr Hall] | (pre & c & text & Htr & Hr & Hall)].
      * left. split; [exact Hr|].
        change (EvStatus ?c ?x :: stop ++ ?t) with ((EvStatus c x :: stop) ++ t).
        apply Forall_app. auto.
      * right. exists ((EvStatus (container meta) r :: stop) ++ pre), c, text.
        repeat split.
        -- rewrite Htr. rewrite <- app_assoc. reflexivity.
        -- exact Hr.
        -- apply Forall_app. auto.
Qed.

Lemma sweeper_outcome_prefix r t1 t2 :
  Forall (λ ev, inspect_failed ev = false) t1 →
  sweeper_outcome r t2 → sweeper_outcome r (t1 ++ t2).
Proof.
  intros H1 [[Hr Hall] | (pre & c & text & -> & Hr & Hall)].
  - left. split; [exact Hr | apply Forall_app; auto].
  - right. exists (t1 ++ pre), c, text. rewrite <- app_assoc.
    repeat split; [exact Hr | apply Forall_app; auto].
Qed.

Lemma ttl_sweeper_tick_at pol o h :
  let now := o_now o (h ++ [EvSleep 60]) in
  let st := o_state o (h ++ [EvSleep 60; EvNow now]) in
  let h' := h ++ [EvSleep 60; EvNow now; EvReadState st] in
  ttl_sweeper_tick pol o h
  = ((sweep pol st now BACKENDS o h').1,
     [EvSleep 60; EvNow now; EvReadState st] ++ (sweep pol st now BACKENDS o h').2).
Proof.
  cbv zeta. unfold ttl_sweeper_tick. m_eval. rewrite <- ?app_assoc. cbn [app].
  destruct (sweep pol _ _ BACKENDS o _). reflexivity.
Qed.

Lemma ttl_sweeper_tick_outcome pol : Post sweeper_outcome (ttl_sweeper_tick pol).
Proof.
  intros o h. rewrite ttl_sweeper_tick_at. cbv zeta. cbn [fst snd].
  apply sweeper_outcome_prefix; [repeat constructor|].
  apply sweep_outcome. apply registry_registered.
Qed.

(** X10: over any number of ticks the sweeper either goes through with
    no inspection failing - failures of the lookup, the stop and the kill
    do not end it - or ends for good on the first inspection that the
    engine answers with an error other than not-found, raising that
    error. *)
Theorem ttl_sweeper_outcome pol ticks o h :
  sweeper_outcome (ttl_sweeper pol ticks o h).1 (ttl_sweeper pol ticks o h).2.
Proof.
  revert h. induction ticks as [|n IH]; intros h; cbn [ttl_sweeper].
  - left. split; [reflexivity | constructor].
  - rewrite m_bind_run. pose proof (ttl_sweeper_tick_outcome pol o h) as Htick.
    destruct (ttl_sweeper_tick pol o h) as [[[]|e] t1]; cbn [fst snd] in *.
    + destruct Htick as [[_ Hall] | (pre & c & text & _ & [=] & _)].
      apply sweeper_outcome_prefix; [exact Hall | apply IH].
    + exact Htick.
Qed.

(** ** The selector, continued *)

Lemma indexed_serves m bk : In bk (MODEL_BACKENDS_get m) → serves bk m.
Proof.
  rewrite MODEL_BACKENDS_get_filter. intros Hin.
  apply in_map_iff in Hin as ([b meta] & <- & Hin).
  apply List.filter_In in Hin as [Hin Hm]. cbn [fst snd] in *.
  exists meta. split; [exact (registry_keys_unique _ Hin) | apply String.eqb_eq; exact Hm].
Qed.

Lemma sticky_scan_serves pol st m est gpus sb :
  sticky_scan pol st m est gpus = Ok (Some sb) → serves sb m.
Proof.
  induction gpus as [|g rest IH]; cbn [sticky_scan]; [discriminate|]. cbv zeta.
  destruct (default None (sticky_backend_by_gpu st !! g)) as [s|]; [|exact IH].
  destruct (truthy (Some s)); [|exact IH].
  unfold BACKENDS_at. destruct (assoc_get s BACKENDS) as [meta|] eqn:Hreg; [|discriminate].
  unfold mbind, Exc_bind, exc_bind.
  destruct (String.eqb_spec (model meta) m) as [Hm|]; [|exact IH].
  assert (Hsb : serves s m) by (exists meta; auto).
  destruct (ADAPTIVE_ROUTING_ENABLED pol), est as [e|]; try (intros [= <-]; exact Hsb).
  cbv zeta. destruct (_ || _); [intros [= <-]; exact Hsb | exact IH].
Qed.

Lemma sticky_scan_total pol st m est gpus :
  sticky_wf st → ∃ r, sticky_scan pol st m est gpus = Ok r.
Proof.
  intros Hwf. induction gpus as [|g rest IH]; cbn [sticky_scan]; [eauto|]. cbv zeta.
  destruct (sticky_backend_by_gpu st !! g) as [[s|]|] eqn:Hs; cbn [default from_option id];
    try exact IH.
  destruct (Hwf g s Hs) as (meta & Hreg & _).
  rewrite (registered_truthy _ _ Hreg), (BACKENDS_at_registered _ _ Hreg).
  unfold mbind, Exc_bind, exc_bind.
  destruct (String.eqb (model meta) m); [|exact IH].
  destruct (ADAPTIVE_ROUTING_ENABLED pol), est as [e|]; eauto.
  cbv zeta. destruct (_ || _); eauto.
Qed.

Lemma first_with_serves (p : Meta → bool) m bk :
  first_with p (MODEL_BACKENDS_get m) = Ok (Some bk) → serves bk m.
Proof.
  rewrite first_with_model.
  destruct (List.find _ BACKENDS) as [[b meta]|] eqn:Hfind;
    cbn [fmap option_fmap option_map fst]; [|discriminate].
  intros Heq. assert (b = bk) as -> by congruence. clear Heq.
  apply List.find_some in Hfind as [Hin Hp]. cbn [fst snd] in *.
  apply andb_prop in Hp as [Hm _].
  exists meta. split; [exact (registry_keys_unique _ Hin) | apply String.eqb_eq; exact Hm].
Qed.

Lemma first_with_total (p : Meta → bool) m :
  ∃ x, first_with p (MODEL_BACKENDS_get m) = Ok x ∧ ∀ bk, x = Some bk → serves bk m.
Proof.
  pose proof (first_with_serves p m) as Hs. rewrite first_with_model in *.
  eexists. split; [reflexivity|]. intros bk Hbk. apply Hs. rewrite Hbk. reflexivity.
Qed.

(** X11: the selector returns nothing exactly for a model that no
    backend serves; a backend it returns is a registered backend of the
    requested model, whatever the sticky entries, the estimate and the
    role; and it raises nothing when the sticky entries are registered
    ids. *)
Theorem choose_backend_sound pol st m est role :
  (MODEL_BACKENDS_get m = [] → choose_backend pol st m est role = Ok None)
  ∧ (choose_backend pol st m est role = Ok None → MODEL_BACKENDS_get m = [])
  ∧ (∀ bk, choose_backend pol st m est role = Ok (Some bk) → serves bk m)
  ∧ (sticky_wf st → ∃ r, choose_backend pol st m est role = Ok r).
Proof.
  unfold choose_backend.
  destruct (MODEL_BACKENDS_get m) as [|b l] eqn:Hidx.
  { repeat split; try discriminate; eauto. }
  rewrite <- Hidx.
  assert (Hb : serves b m) by (apply indexed_serves; rewrite Hidx; left; reflexivity).
  pose proof (sticky_scan_serves pol st m est ["0"; "1"]) as Hsticky.
  pose proof (sticky_scan_total pol st m est ["0"; "1"]) as Htotal.
  split; [rewrite Hidx; discriminate|].
  match goal with
  | |- context [if ADAPTIVE_ROUTING_ENABLED pol then ?a else ?b] =>
      assert (HA : ∃ x, (if ADAPTIVE_ROUTING_ENABLED pol then a else b) = Ok x
                        ∧ ∀ bk, x = Some bk → serves bk m)
  end.
  { destruct (ADAPTIVE_ROUTING_ENABLED pol), est as [e|];
      try (exists None; split; [reflexivity | discriminate]).
    destruct (needs_long_context pol e); apply first_with_total. }
  match goal with
  | |- context [match role with Some r => @?a r | None => ?b end] =>
      assert (HR : ∃ x, (match role with Some r => a r | None => b end) = Ok x
                        ∧ ∀ bk, x = Some bk → serves bk m)
  end.
  { destruct role as [r|]; [|exists None; split; [reflexivity | discriminate]].
    destruct (String.eqb r "webui"); [apply first_with_total|].
    destruct (String.eqb r "n8n"); [apply first_with_total|].
    exists None; split; [reflexivity | discriminate]. }
  destruct HA as (xa & -> & Ha). destruct HR as (xr & -> & Hr).
  destruct (sticky_scan pol st m est ["0"; "1"]) as [[sb|]|e];
    unfold mbind, Exc_bind, exc_bind.
  - repeat split; [discriminate | intros bk [= <-]; auto | eauto].
  - destruct xa as [ba|]; [|destruct xr as [br|]].
    all: repeat split; [discriminate | intros bk [= <-]; auto | eauto].
  - repeat split; try discriminate. intros Hwf. destruct (Htotal Hwf) as [r [=]].
Qed.

Lemma adaptive_pick_run pol m est :
  match ADAPTIVE_ROUTING_ENABLED pol, est with
  | true, Some e =>
      if needs_long_context pol e
      then first_with (λ meta, String.eqb (strategy meta) "long") (MODEL_BACKENDS_get m)
      else first_with (λ meta, String.eqb (strategy meta) "throughput") (MODEL_BACKENDS_get m)
  | _, _ => Ok None
  end = Ok (adaptive_pick pol m est).
Proof.
  unfold adaptive_pick, inferred_need, first_registered.
  destruct (ADAPTIVE_ROUTING_ENABLED pol), est as [e|]; try reflexivity.
  destruct (needs_long_context pol e); apply first_with_model.
Qed.

(** X12: when the sticky loop returns nothing and the adaptive rule picks
    nothing, the interactive role gets the model's first backend on GPU 0
    and the automation role its first backend on GPU 1, each falling back
    to the model's first backend when there is none; any other role gets
    the model's first backend. *)
Theorem choose_backend_role_affinity pol st m est b l :
  sticky_scan pol st m est ["0"; "1"] = Ok None →
  adaptive_pick pol m est = None →
  MODEL_BACKENDS_get m = b :: l →
  choose_backend pol st m est (Some "webui") = Ok (Some (default b (first_on_gpu m "0")))
  ∧ choose_backend pol st m est (Some "n8n") = Ok (Some (default b (first_on_gpu m "1")))
  ∧ (∀ role, role ≠ Some "webui" → role ≠ Some "n8n" →
       choose_backend pol st m est role = Ok (Some b)).
Proof.
  intros Hscan Hpick Hidx.
  assert (Hhead : ∀ role, choose_backend pol st m est role
            = by_role ← match role with
                        | Some r =>
                            if String.eqb r "webui"
                            then first_with (λ meta, String.eqb (gpu meta) "0")
                                            (MODEL_BACKENDS_get m)
                            else if String.eqb r "n8n"
                            then first_with (λ meta, String.eqb (gpu meta) "1")
                                            (MODEL_BACKENDS_get m)
                            else Ok None
                        | None => Ok None
                        end;
              match by_role with
              | Some bk => Ok (Some bk)
              | None => Ok (Some b)
              end).
  { intros role. unfold choose_backend. rewrite Hidx, Hscan, <- Hidx.
    unfold mbind at 1 2, Exc_bind at 1 2, exc_bind at 1 2.
    rewrite adaptive_pick_run, Hpick. reflexivity. }
  repeat split.
  - rewrite Hhead. cbn [String.eqb Ascii.eqb Bool.eqb]. rewrite first_with_model.
    unfold first_on_gpu, mbind, Exc_bind, exc_bind.
    destruct (List.find _ BACKENDS) as [[b0 meta0]|]; reflexivity.
  - rewrite Hhead. cbn [String.eqb Ascii.eqb Bool.eqb]. rewrite first_with_model.
    unfold first_on_gpu, mbind, Exc_bind, exc_bind.
    destruct (List.find _ BACKENDS) as [[b0 meta0]|]; reflexivity.
  - intros role Hw Hn. rewrite Hhead. destruct role as [r|]; [|reflexivity].
    destruct (String.eqb_spec r "webui") as [->|_]; [congruence|].
    destruct (String.eqb_spec r "n8n") as [->|_]; [congruence|]. reflexivity.
Qed.

Lemma choose_backend_role_affinity_witness :
  choose_backend default_policy initial_state "bge-m3" (Some (PInt 5000)) (Some "webui")
  = Ok (Some "bge-m3@1")
  ∧ choose_backend default_policy initial_state "llama31-8b-instruct" None (Some "webui")
    = Ok (Some "llama31-8b-instruct@0").
Proof.
  split.
  - exact (proj1 (choose_backend_role_affinity default_policy initial_state "bge-m3"
                    (Some (PInt 5000)) "bge-m3@1" [] eq_refl eq_refl eq_refl)).
  - exact (proj1 (choose_backend_role_affinity default_policy initial_state
                    "llama31-8b-instruct" None "llama31-8b-instruct@0"
                    ["llama31-8b-instruct@1"] eq_refl eq_refl eq_refl)).
Defined.
